(** * go-mcp-local-filesystem: the MCP file server, embedded and verified

    A shallow embedding of [server.go]: the JSON-RPC dispatcher
    ([handleMessage], [Run]), the resource and tool handlers, and the
    parts of the Go standard library they call ([strings], [path/filepath],
    [encoding/json], [os]).  Go strings are byte strings; they are modelled
    by Rocq's [string], whose characters are bytes. *)

From Stdlib Require Import ZArith Ascii.
From stdpp Require Import base tactics option list strings gmap sorting pretty.

Set Default Proof Using "Type".

(** ** Errors

    Go's [error] values that the server can meet.  [SkipDir] and [SkipAll]
    are the sentinels of [io/fs]; [ErrBadPattern] is [filepath.ErrBadPattern];
    a [PathError] is what [os] returns, carrying the errno; [SyntaxError]
    and [UnmarshalTypeError] are the errors of [encoding/json], whose texts
    (offsets, Go type names) are not modelled: the server only logs them. *)

Inductive Errno := ENOENT | EACCES | ENOTDIR | EISDIR.

Inductive error :=
| SkipDir
| SkipAll
| ErrBadPattern
| PathError (op path : string) (errno : Errno)
| SyntaxError
| UnmarshalTypeError (value : string)
| ErrorString (msg : string).

Definition errnoString (e : Errno) : string :=
  match e with
  | ENOENT => "no such file or directory"
  | EACCES => "permission denied"
  | ENOTDIR => "not a directory"
  | EISDIR => "is a directory"
  end.

(** [err.Error()], which [%v] prints. *)
Definition errText (e : error) : string :=
  match e with
  | SkipDir => "skip this directory"
  | SkipAll => "skip everything and stop the walk"
  | ErrBadPattern => "syntax error in pattern"
  | PathError op path errno => op +:+ " " +:+ path +:+ ": " +:+ errnoString errno
  | SyntaxError => "invalid JSON"
  | UnmarshalTypeError value => "json: cannot unmarshal " +:+ value
  | ErrorString msg => msg
  end.

(** [os.IsNotExist]. *)
Definition IsNotExist (e : error) : bool :=
  match e with
  | PathError _ _ ENOENT => true
  | _ => false
  end.

(** A Go result [(v, err)]: the value, or the error. *)
Inductive result (A : Type) :=
| Ok (v : A)
| Err (e : error).
Global Arguments Ok {A} v.
Global Arguments Err {A} e.

(** ** Package [strings] *)

Module strings.

Fixpoint HasPrefix (s prefix : string) : bool :=
  match prefix, s with
  | EmptyString, _ => true
  | String p prefix', String c s' => Ascii.eqb c p && HasPrefix s' prefix'
  | String _ _, EmptyString => false
  end.

Fixpoint drop (n : nat) (s : string) : string :=
  match n, s with
  | S n', String _ s' => drop n' s'
  | _, _ => s
  end.

Definition TrimPrefix (s prefix : string) : string :=
  if HasPrefix s prefix then drop (String.length prefix) s else s.

Definition isUpper (c : ascii) : bool :=
  (65 <=? nat_of_ascii c)%nat && (nat_of_ascii c <=? 90)%nat.

Definition lowerByte (c : ascii) : ascii :=
  if isUpper c then ascii_of_nat (nat_of_ascii c + 32) else c.

(** [strings.ToLower] on the ASCII letters; bytes of other runes are kept
    (Go maps them through [unicode.ToLower], which no entry of the
    server's extension table can come from, the Kelvin sign apart). *)
Fixpoint ToLower (s : string) : string :=
  match s with
  | EmptyString => EmptyString
  | String c s' => String (lowerByte c) (ToLower s')
  end.

Fixpoint ContainsByte (s : string) (b : ascii) : bool :=
  match s with
  | EmptyString => false
  | String c s' => Ascii.eqb c b || ContainsByte s' b
  end.

Fixpoint CountByte (s : string) (b : ascii) : nat :=
  match s with
  | EmptyString => 0
  | String c s' => (if Ascii.eqb c b then 1 else 0) + CountByte s' b
  end.

(** [strings.Join(elems, sep)]. *)
Fixpoint Join (elems : list string) (sep : string) : string :=
  match elems with
  | [] => ""
  | [e] => e
  | e :: rest => e +:+ sep +:+ Join rest sep
  end.

Definition ofBytes (l : list ascii) : string := String.string_of_list_ascii l.

End strings.

(** ** Package [unicode/utf8] *)

Module utf8.

Definition RuneError : Z := 65533.

Definition byteAt (s : string) (i : nat) : option Z :=
  match String.get i s with
  | Some c => Some (Z.of_nat (nat_of_ascii c))
  | None => None
  end.

(** The continuation byte [b], when it lies in [lo..hi]. *)
Definition cont (lo hi : Z) (b : option Z) : option Z :=
  match b with
  | Some x => if (lo <=? x)%Z && (x <=? hi)%Z then Some (Z.land x 63) else None
  | None => None
  end.

(** [first[s0]]: the size of the sequence that [s0] starts and the range
    accepted for its second byte; [None] for an invalid first byte. *)
Definition first (s0 : Z) : option (Z * Z * Z) :=
  if (s0 <? 194)%Z then None
  else if (s0 <? 224)%Z then Some (2, 128, 191)%Z
  else if (s0 =? 224)%Z then Some (3, 160, 191)%Z
  else if (s0 =? 237)%Z then Some (3, 128, 159)%Z
  else if (s0 <? 240)%Z then Some (3, 128, 191)%Z
  else if (s0 =? 240)%Z then Some (4, 144, 191)%Z
  else if (s0 <? 244)%Z then Some (4, 128, 191)%Z
  else if (s0 =? 244)%Z then Some (4, 128, 143)%Z
  else None.

(** [utf8.DecodeRuneInString]: the first rune of [s] and its width. *)
Definition DecodeRuneInString (s : string) : Z * nat :=
  match byteAt s 0 with
  | None => (RuneError, 0)
  | Some s0 =>
    if (s0 <? 128)%Z then (s0, 1)
    else
      match first s0 with
      | None => (RuneError, 1)
      | Some (sz, lo, hi) =>
        match cont lo hi (byteAt s 1) with
        | None => (RuneError, 1)
        | Some c1 =>
          if (sz <=? 2)%Z
          then (Z.lor (Z.shiftl (Z.land s0 31) 6) c1, 2)
          else
            match cont 128 191 (byteAt s 2) with
            | None => (RuneError, 1)
            | Some c2 =>
              if (sz <=? 3)%Z
              then (Z.lor (Z.lor (Z.shiftl (Z.land s0 15) 12) (Z.shiftl c1 6)) c2, 3)
              else
                match cont 128 191 (byteAt s 3) with
                | None => (RuneError, 1)
                | Some c3 =>
                  (Z.lor (Z.lor (Z.lor (Z.shiftl (Z.land s0 7) 18) (Z.shiftl c1 12))
                                (Z.shiftl c2 6)) c3, 4)
                end
            end
        end
      end
  end.

End utf8.

(** ** Package [path/filepath] (Unix) *)

Module filepath.

Definition Separator : ascii := "/"%char.

Definition IsPathSeparator (c : ascii) : bool := Ascii.eqb c Separator.

Definition IsAbs (path : string) : bool := strings.HasPrefix path "/".

(** The bytes of [Clean]'s [lazybuf] are kept last-written first, so
    that [out.w] is the length of the list. *)
Fixpoint copyElement (p : string) (out : list ascii) : string * list ascii :=
  match p with
  | EmptyString => (p, out)
  | String c p' =>
    if IsPathSeparator c then (p, out) else copyElement p' (c :: out)
  end.

(** [for out.w > dotdot && !IsPathSeparator(out.index(out.w)) { out.w-- }],
    where [removed] is the byte at index [out.w]. *)
Fixpoint backtrack (dotdot : nat) (removed : ascii) (out : list ascii) : list ascii :=
  match out with
  | [] => []
  | c :: out' =>
    if (dotdot <? length out)%nat && negb (IsPathSeparator removed)
    then backtrack dotdot c out'
    else out
  end.

(** True at the end of a path element: [r == n || IsPathSeparator(path[r])]. *)
Definition atElementEnd (p : string) : bool :=
  match p with
  | EmptyString => true
  | String c _ => IsPathSeparator c
  end.

(** [path[r] == '.' && path[r+1] == '.' && (r+2 == n || IsPathSeparator(path[r+2]))]:
    the path after the [..] element, when [p] starts with one. *)
Definition dotdotElement (p : string) : option string :=
  match p with
  | String c0 (String c1 p2) =>
    if Ascii.eqb c0 "." && Ascii.eqb c1 "." && atElementEnd p2
    then Some p2 else None
  | _ => None
  end.

(** The main loop of [Clean], on the unread part [p] of the path. *)
Fixpoint cleanLoop (fuel : nat) (rooted : bool) (p : string)
         (out : list ascii) (dotdot : nat) : list ascii :=
  match fuel with
  | O => out
  | S fuel' =>
    match p with
    | EmptyString => out
    | String c p1 =>
      if IsPathSeparator c then
        (* empty path element *)
        cleanLoop fuel' rooted p1 out dotdot
      else if Ascii.eqb c "." && atElementEnd p1 then
        (* . element *)
        cleanLoop fuel' rooted p1 out dotdot
      else
        match dotdotElement p with
        | Some p2 =>
          (* .. element: remove to last separator *)
          if (dotdot <? length out)%nat then
            match out with
            | removed :: out' =>
              cleanLoop fuel' rooted p2 (backtrack dotdot removed out') dotdot
            | [] => cleanLoop fuel' rooted p2 out dotdot
            end
          else if negb rooted then
            let out1 := if (0 <? length out)%nat then Separator :: out else out in
            let out2 := "."%char :: "."%char :: out1 in
            cleanLoop fuel' rooted p2 out2 (length out2)
          else cleanLoop fuel' rooted p2 out dotdot
        | None =>
          (* real path element: add slash if needed, copy element *)
          let out1 :=
            if (rooted && negb (length out =? 1)%nat)
               || (negb rooted && negb (length out =? 0)%nat)
            then Separator :: out else out in
          let '(p', out2) := copyElement p out1 in
          cleanLoop fuel' rooted p' out2 dotdot
        end
    end
  end.

Definition Clean (path : string) : string :=
  match path with
  | EmptyString => "."
  | String c p1 =>
    let rooted := IsPathSeparator c in
    let out :=
      if rooted
      then cleanLoop (S (String.length path)) true p1 [Separator] 1
      else cleanLoop (S (String.length path)) false path [] 0 in
    match out with
    | [] => "."
    | _ => strings.ofBytes (rev out)
    end
  end.

(** [Join]: the elements from the first non-empty one on, joined by the
    separator and cleaned. *)
Fixpoint Join (elem : list string) : string :=
  match elem with
  | [] => ""
  | e :: rest =>
    if String.eqb e "" then Join rest
    else Clean (strings.Join elem "/")
  end.

(** [Abs], given what [os.Getwd] returns. *)
Definition Abs (getwd : result string) (path : string) : result string :=
  if IsAbs path then Ok (Clean path)
  else
    match getwd with
    | Ok wd => Ok (Join [wd; path])
    | Err e => Err e
    end.

(** [Ext]: the suffix from the last dot of the last element. *)
Fixpoint Ext (path : string) : string :=
  match path with
  | EmptyString => ""
  | String c p' =>
    if IsPathSeparator c then Ext p'
    else
      match Ext p' with
      | EmptyString =>
        if Ascii.eqb c "." && negb (strings.ContainsByte p' Separator)
        then path else ""
      | e => e
      end
  end.

(** *** [Rel] *)

(** The element at the head of [p], and what follows it (the separator
    included). *)
Fixpoint splitElement (p : string) : string * string :=
  match p with
  | EmptyString => ("", "")
  | String c p' =>
    if IsPathSeparator c then ("", p)
    else let '(e, rest) := splitElement p' in (String c e, rest)
  end.

(** [if bi < bl { bi++ }]. *)
Definition skipSeparator (p : string) : string :=
  match p with
  | EmptyString => p
  | String _ p' => p'
  end.

(** The loop of [Rel] that positions [base[b0:bi]] and [targ[t0:ti]] at
    the first differing elements.  It returns [base[b0:bi]], [base[b0:]]
    and [targ[t0:]]. *)
Fixpoint relLoop (fuel : nat) (base targ : string) : string * string * string :=
  match fuel with
  | O => ("", base, targ)
  | S fuel' =>
    if String.eqb base "" || String.eqb targ "" then ("", base, targ)
    else
      let '(be, bafter) := splitElement base in
      let '(te, tafter) := splitElement targ in
      if negb (String.eqb te be) then (be, base, targ)
      else relLoop fuel' (skipSeparator bafter) (skipSeparator tafter)
  end.

Fixpoint dotdots (seps : nat) : string :=
  match seps with
  | O => ""
  | S n => "/.." +:+ dotdots n
  end.

Definition relError (basepath targpath : string) : error :=
  ErrorString ("Rel: can't make " +:+ targpath +:+ " relative to " +:+ basepath).

Definition Rel (basepath targpath : string) : result string :=
  let base := Clean basepath in
  let targ := Clean targpath in
  if String.eqb targ base then Ok "."
  else
    let base := if String.eqb base "." then "" else base in
    if negb (Bool.eqb (IsAbs base) (IsAbs targ)) then Err (relError basepath targpath)
    else
      let '(belem, brest, trest) := relLoop (S (String.length base)) base targ in
      if String.eqb belem ".." then Err (relError basepath targpath)
      else if negb (String.eqb brest "") then
        (* Base elements left. Must go up before going down. *)
        let up := ".." +:+ dotdots (strings.CountByte brest Separator) in
        Ok (if String.eqb trest "" then up else up +:+ "/" +:+ trest)
      else Ok trest.

(** *** [Match] (as of Go 1.16, which reports a malformed pattern also
    when the match has already failed) *)

(** The scan of [scanChunk], after the leading stars: the chunk (last
    byte first) and the rest of the pattern. *)
Fixpoint scanLoop (pattern : string) (inrange : bool) (chunk : list ascii)
  : list ascii * string :=
  match pattern with
  | EmptyString => (chunk, "")
  | String c p' =>
    if Ascii.eqb c "\" then
      match p' with
      | String c1 p'' => scanLoop p'' inrange (c1 :: c :: chunk)
      | EmptyString => (c :: chunk, "")
      end
    else if Ascii.eqb c "[" then scanLoop p' true (c :: chunk)
    else if Ascii.eqb c "]" then scanLoop p' false (c :: chunk)
    else if Ascii.eqb c "*" && negb inrange then (chunk, pattern)
    else scanLoop p' inrange (c :: chunk)
  end.

Fixpoint skipStars (pattern : string) : bool * string :=
  match pattern with
  | String c p' =>
    if Ascii.eqb c "*" then (true, snd (skipStars p')) else (false, pattern)
  | EmptyString => (false, pattern)
  end.

Definition scanChunk (pattern : string) : bool * string * string :=
  let '(star, pattern) := skipStars pattern in
  let '(chunk, rest) := scanLoop pattern false [] in
  (star, strings.ofBytes (rev chunk), rest).

(** [getEsc]: one possibly escaped rune of a character class. *)
Definition getEsc (chunk : string) : result (Z * string) :=
  match chunk with
  | EmptyString => Err ErrBadPattern
  | String c chunk' =>
    if Ascii.eqb c "-" || Ascii.eqb c "]" then Err ErrBadPattern
    else
      let chunk1 := if Ascii.eqb c "\" then chunk' else chunk in
      if String.eqb chunk1 "" then Err ErrBadPattern
      else
        let '(r, n) := utf8.DecodeRuneInString chunk1 in
        let nchunk := strings.drop n chunk1 in
        if (r =? utf8.RuneError)%Z && (n =? 1)%nat then Err ErrBadPattern
        else if String.eqb nchunk "" then Err ErrBadPattern
        else Ok (r, nchunk)
    end.

(** The string after its first byte, when that byte is [b]:
    [len(s) > 0 && s[0] == b]. *)
Definition cutByte (b : ascii) (s : string) : option string :=
  match s with
  | String c s' => if Ascii.eqb c b then Some s' else None
  | EmptyString => None
  end.

(** The loop that parses the ranges of a character class and tells
    whether the rune [r] is in one of them. *)
Fixpoint classLoop (fuel : nat) (chunk : string) (r : Z) (matched : bool)
         (nrange : nat) : result (bool * string) :=
  match fuel with
  | O => Err ErrBadPattern
  | S fuel' =>
    match (if (0 <? nrange)%nat then cutByte "]" chunk else None) with
    | Some chunk' => Ok (matched, chunk')
    | None =>
      match getEsc chunk with
      | Err e => Err e
      | Ok (lo, chunk1) =>
        let range :=
          match cutByte "-" chunk1 with
          | Some chunk2 => getEsc chunk2
          | None => Ok (lo, chunk1)
          end in
        match range with
        | Err e => Err e
        | Ok (hi, chunk3) =>
          classLoop fuel' chunk3 r
                    (matched || ((lo <=? r)%Z && (r <=? hi)%Z)) (S nrange)
        end
      end
    end
  end.

(** The default case of [matchChunk]: the byte [c] of the chunk against
    the first byte of [s]. *)
Definition matchByte (c : ascii) (s : string) (failed : bool) : string * bool :=
  if failed then (s, failed)
  else
    match s with
    | String c0 s' => (s', negb (Ascii.eqb c c0))
    | EmptyString => (s, true)
    end.

(** [matchChunk]: [Ok (Some rest)] when the chunk matches a prefix of
    [s], [Ok None] when it does not.  Once [failed], the loop goes on,
    checking the chunk but no longer reading [s]. *)
Fixpoint matchChunkLoop (fuel : nat) (chunk s : string) (failed : bool)
  : result (option string) :=
  match fuel with
  | O => Err ErrBadPattern
  | S fuel' =>
    match chunk with
    | EmptyString => Ok (if failed then None else Some s)
    | String c chunk' =>
      let failed := failed || String.eqb s "" in
      if Ascii.eqb c "[" then
        (* character class *)
        let '(r, s1) :=
          if failed then (0%Z, s)
          else let '(r, n) := utf8.DecodeRuneInString s in (r, strings.drop n s) in
        (* possibly negated *)
        let '(negated, chunk1) :=
          match cutByte "^" chunk' with
          | Some chunk'' => (true, chunk'')
          | None => (false, chunk')
          end in
        (* parse all ranges *)
        match classLoop (S (String.length chunk1)) chunk1 r false 0 with
        | Err e => Err e
        | Ok (matched, chunk2) =>
          matchChunkLoop fuel' chunk2 s1 (failed || Bool.eqb matched negated)
        end
      else if Ascii.eqb c "?" then
        if failed then matchChunkLoop fuel' chunk' s failed
        else
          let sep := match s with String c0 _ => IsPathSeparator c0 | _ => false end in
          let '(_, n) := utf8.DecodeRuneInString s in
          matchChunkLoop fuel' chunk' (strings.drop n s) sep
      else if Ascii.eqb c "\" then
        match chunk' with
        | EmptyString => Err ErrBadPattern
        | String c1 chunk1 =>
          let '(s1, failed1) := matchByte c1 s failed in
          matchChunkLoop fuel' chunk1 s1 failed1
        end
      else
        let '(s1, failed1) := matchByte c s failed in
        matchChunkLoop fuel' chunk' s1 failed1
    end
  end.

Definition matchChunk (chunk s : string) : result (option string) :=
  matchChunkLoop (S (String.length chunk)) chunk s false.

(** The loop entered after a star: look for a match skipping [i+1]
    bytes of [name]; a [/] cannot be skipped.  [Ok (Some t)] continues
    the pattern loop at [t], [Ok None] is no match. *)
Fixpoint starLoop (chunk name : string) (lastChunk : bool) : result (option string) :=
  match name with
  | EmptyString => Ok None
  | String c name' =>
    if IsPathSeparator c then Ok None
    else
      match matchChunk chunk name' with
      | Ok (Some t) =>
        if lastChunk && negb (String.eqb t "") then starLoop chunk name' lastChunk
        else Ok (Some t)
      | Ok None => starLoop chunk name' lastChunk
      | Err e => Err e
      end
  end.

(** The check of the rest of the pattern, made before a failed match is
    reported. *)
Fixpoint checkRest (fuel : nat) (pattern : string) : result bool :=
  match fuel with
  | O => Ok false
  | S fuel' =>
    if String.eqb pattern "" then Ok false
    else
      let '(_, chunk, rest) := scanChunk pattern in
      match matchChunk chunk "" with
      | Err e => Err e
      | Ok _ => checkRest fuel' rest
      end
  end.

Fixpoint matchLoop (fuel : nat) (pattern name : string) : result bool :=
  match fuel with
  | O => Ok false
  | S fuel' =>
    if String.eqb pattern "" then Ok (String.eqb name "")
    else
      let '(star, chunk, rest) := scanChunk pattern in
      if star && String.eqb chunk "" then
        (* Trailing * matches rest of string unless it has a /. *)
        Ok (negb (strings.ContainsByte name Separator))
      else
        match matchChunk chunk name with
        | Err e => Err e
        | Ok r =>
          let lastChunk := String.eqb rest "" in
          (* if we're the last chunk, make sure we've exhausted the name *)
          let here :=
            match r with
            | Some t => if String.eqb t "" || negb lastChunk then Some t else None
            | None => None
            end in
          match here with
          | Some t => matchLoop fuel' rest t
          | None =>
            let skipped := if star then starLoop chunk name lastChunk else Ok None in
            match skipped with
            | Err e => Err e
            | Ok (Some t) => matchLoop fuel' rest t
            | Ok None => checkRest fuel' rest
            end
          end
        end
  end.

Definition Match (pattern name : string) : result bool :=
  matchLoop (S (String.length pattern)) pattern name.

End filepath.

(** ** Package [encoding/json] *)

Module json.

(** *** The syntax of a JSON text *)

#[warnings="-register-all"]
Inductive Value :=
| JNull
| JBool (b : bool)
| JNumber (lit : string)
| JString (s : string)
| JArray (elems : list Value)
| JObject (members : list (string * Value)).

Definition dquote : ascii := "034"%char.

Definition isSpace (c : ascii) : bool :=
  Ascii.eqb c " " || Ascii.eqb c "009" || Ascii.eqb c "013" || Ascii.eqb c "010".

Fixpoint skipSpace (s : string) : string :=
  match s with
  | String c s' => if isSpace c then skipSpace s' else s
  | EmptyString => s
  end.

Definition isDigit (c : ascii) : bool :=
  (48 <=? nat_of_ascii c)%nat && (nat_of_ascii c <=? 57)%nat.

Definition hexValue (c : ascii) : option Z :=
  let n := Z.of_nat (nat_of_ascii c) in
  if (48 <=? n)%Z && (n <=? 57)%Z then Some (n - 48)%Z
  else if (97 <=? n)%Z && (n <=? 102)%Z then Some (n - 87)%Z
  else if (65 <=? n)%Z && (n <=? 70)%Z then Some (n - 55)%Z
  else None.

(** [getu4]: the rune of a [\uXXXX] escape at the head of [s]. *)
Definition getu4 (s : string) : option Z :=
  match s with
  | String "\" (String "u" (String a (String b (String c (String d _))))) =>
    match hexValue a, hexValue b, hexValue c, hexValue d with
    | Some x3, Some x2, Some x1, Some x0 =>
      Some (Z.lor (Z.lor (Z.lor (Z.shiftl x3 12) (Z.shiftl x2 8)) (Z.shiftl x1 4)) x0)
    | _, _, _, _ => None
    end
  | _ => None
  end.

Definition byte (n : Z) : ascii := ascii_of_nat (Z.to_nat n).

Definition isSurrogate (r : Z) : bool := (55296 <=? r)%Z && (r <? 57344)%Z.

(** [utf8.EncodeRune]. *)
Definition EncodeRune (r : Z) : list ascii :=
  let r := if isSurrogate r || (r <? 0)%Z || (1114111 <? r)%Z then utf8.RuneError else r in
  if (r <? 128)%Z then [byte r]
  else if (r <? 2048)%Z then
    [byte (Z.lor 192 (Z.shiftr r 6)); byte (Z.lor 128 (Z.land r 63))]
  else if (r <? 65536)%Z then
    [byte (Z.lor 224 (Z.shiftr r 12));
     byte (Z.lor 128 (Z.land (Z.shiftr r 6) 63));
     byte (Z.lor 128 (Z.land r 63))]
  else
    [byte (Z.lor 240 (Z.shiftr r 18));
     byte (Z.lor 128 (Z.land (Z.shiftr r 12) 63));
     byte (Z.lor 128 (Z.land (Z.shiftr r 6) 63));
     byte (Z.lor 128 (Z.land r 63))].

(** [utf16.DecodeRune]. *)
Definition decodeSurrogates (r1 r2 : Z) : Z :=
  if (55296 <=? r1)%Z && (r1 <? 56320)%Z && (56320 <=? r2)%Z && (r2 <? 57344)%Z
  then (Z.lor (Z.shiftl (r1 - 55296) 10) (r2 - 56320) + 65536)%Z
  else utf8.RuneError.

Definition simpleEscape (c : ascii) : option ascii :=
  if Ascii.eqb c dquote then Some dquote
  else if Ascii.eqb c "\" then Some "\"%char
  else if Ascii.eqb c "/" then Some "/"%char
  else if Ascii.eqb c "b" then Some "008"%char
  else if Ascii.eqb c "f" then Some "012"%char
  else if Ascii.eqb c "n" then Some "010"%char
  else if Ascii.eqb c "r" then Some "013"%char
  else if Ascii.eqb c "t" then Some "009"%char
  else None.

(** The body of a string literal, after the opening quote: the decoded
    string (bytes last first in [acc]) and the text after the closing
    quote.  Invalid UTF-8 is replaced by U+FFFD, as [unquote] does. *)
Fixpoint stringBody (fuel : nat) (s : string) (acc : list ascii) : option (string * string) :=
  match fuel with
  | O => None
  | S fuel' =>
    match s with
    | EmptyString => None
    | String c s' =>
      if Ascii.eqb c dquote then Some (strings.ofBytes (rev acc), s')
      else if Ascii.eqb c "\" then
        match s' with
        | String "u" _ =>
          match getu4 s with
          | None => None
          | Some rr =>
            let s6 := strings.drop 6 s in
            if isSurrogate rr then
              match getu4 s6 with
              | Some rr1 =>
                let dec := decodeSurrogates rr rr1 in
                if (dec =? utf8.RuneError)%Z
                then stringBody fuel' s6 (rev (EncodeRune utf8.RuneError) ++ acc)
                else stringBody fuel' (strings.drop 6 s6) (rev (EncodeRune dec) ++ acc)
              | None => stringBody fuel' s6 (rev (EncodeRune utf8.RuneError) ++ acc)
              end
            else stringBody fuel' s6 (rev (EncodeRune rr) ++ acc)
          end
        | String e s'' =>
          match simpleEscape e with
          | Some b => stringBody fuel' s'' (b :: acc)
          | None => None
          end
        | EmptyString => None
        end
      else if (nat_of_ascii c <? 32)%nat then None
      else if (nat_of_ascii c <? 128)%nat then stringBody fuel' s' (c :: acc)
      else
        let '(r, n) := utf8.DecodeRuneInString s in
        stringBody fuel' (strings.drop n s) (rev (EncodeRune r) ++ acc)
    end
  end.

Fixpoint digits (s : string) (acc : list ascii) : list ascii * string :=
  match s with
  | String c s' => if isDigit c then digits s' (c :: acc) else (acc, s)
  | EmptyString => (acc, s)
  end.

(** A number literal at the head of [s]: an optional minus sign, an
    integer part without a leading zero, an optional fraction and an
    optional exponent. *)
Definition number (s : string) : option (string * string) :=
  let '(acc, s) :=
    match s with
    | String "-" s' => (["-"%char], s')
    | _ => ([], s)
    end in
  let int :=
    match s with
    | String "0" s' => Some ("0"%char :: acc, s')
    | String c _ => if isDigit c then Some (digits s acc) else None
    | EmptyString => None
    end in
  match int with
  | None => None
  | Some (acc, s) =>
    let frac :=
      match s with
      | String "." s' =>
        match digits s' ("."%char :: acc) with
        | (acc', rest) =>
          if (length acc' =? S (length acc))%nat then None else Some (acc', rest)
        end
      | _ => Some (acc, s)
      end in
    match frac with
    | None => None
    | Some (acc, s) =>
      let exp :=
        match s with
        | String e s' =>
          if Ascii.eqb e "e" || Ascii.eqb e "E" then
            let '(acc1, s1) :=
              match s' with
              | String sg s'' =>
                if Ascii.eqb sg "+" || Ascii.eqb sg "-" then (sg :: e :: acc, s'')
                else (e :: acc, s')
              | EmptyString => (e :: acc, s')
              end in
            match digits s1 acc1 with
            | (acc', rest) =>
              if (length acc' =? length acc1)%nat then None else Some (acc', rest)
            end
          else Some (acc, s)
        | EmptyString => Some (acc, s)
        end in
      match exp with
      | None => None
      | Some (acc, rest) => Some (strings.ofBytes (rev acc), rest)
      end
    end
  end.

(** The scanner's limit on nesting. *)
Definition maxNestingDepth : nat := 100 * 100.

(** One value at the head of [s] (after white space), and the text that
    follows it. *)
Fixpoint value (fuel : nat) (depth : nat) (s : string) : option (Value * string) :=
  match fuel with
  | O => None
  | S fuel' =>
    let s := skipSpace s in
    match s with
    | EmptyString => None
    | String c s' =>
      if Ascii.eqb c dquote then
        match stringBody (S (String.length s')) s' [] with
        | Some (str, rest) => Some (JString str, rest)
        | None => None
        end
      else if Ascii.eqb c "{" then
        if (maxNestingDepth <? S depth)%nat then None
        else
          let s1 := skipSpace s' in
          match s1 with
          | String "}" rest => Some (JObject [], rest)
          | _ =>
            (fix members (fuel : nat) (s : string) (acc : list (string * Value))
               : option (Value * string) :=
               match fuel with
               | O => None
               | S fuel'' =>
                 match skipSpace s with
                 | String q s2 =>
                   match (if Ascii.eqb q dquote
                          then stringBody (S (String.length s2)) s2 []
                          else None) with
                   | Some (key, s3) =>
                     match skipSpace s3 with
                     | String ":" s4 =>
                       match value fuel' (S depth) s4 with
                       | Some (v, s5) =>
                         match skipSpace s5 with
                         | String "," s6 => members fuel'' s6 ((key, v) :: acc)
                         | String "}" rest => Some (JObject (rev ((key, v) :: acc)), rest)
                         | _ => None
                         end
                       | None => None
                       end
                     | _ => None
                     end
                   | None => None
                   end
                 | _ => None
                 end
               end) fuel' s1 []
          end
      else if Ascii.eqb c "[" then
        if (maxNestingDepth <? S depth)%nat then None
        else
          let s1 := skipSpace s' in
          match s1 with
          | String "]" rest => Some (JArray [], rest)
          | _ =>
            (fix elements (fuel : nat) (s : string) (acc : list Value)
               : option (Value * string) :=
               match fuel with
               | O => None
               | S fuel'' =>
                 match value fuel' (S depth) s with
                 | Some (v, s2) =>
                   match skipSpace s2 with
                   | String "," s3 => elements fuel'' s3 (v :: acc)
                   | String "]" rest => Some (JArray (rev (v :: acc)), rest)
                   | _ => None
                   end
                 | None => None
                 end
               end) fuel' s1 []
          end
      else if strings.HasPrefix s "true" then Some (JBool true, strings.drop 4 s)
      else if strings.HasPrefix s "false" then Some (JBool false, strings.drop 5 s)
      else if strings.HasPrefix s "null" then Some (JNull, strings.drop 4 s)
      else
        match number s with
        | Some (lit, rest) => Some (JNumber lit, rest)
        | None => None
        end
    end
  end.

(** [checkValid] and the scan of the text: one value, white space on
    both sides, nothing else. *)
Definition parse (data : string) : result Value :=
  match value (S (String.length data)) 0 data with
  | Some (v, rest) =>
    if String.eqb (skipSpace rest) "" then Ok v else Err SyntaxError
  | None => Err SyntaxError
  end.

(** *** Go values decoded from JSON

    What [Unmarshal] stores in an [interface{}]: [nil], [bool],
    [float64], [string], [[]interface{}] or [map[string]interface{}].  A
    [float64] is named by the literal it was read from: the conversion of
    [strconv.ParseFloat] is not computed, only whether it succeeds, since
    the server never inspects a number and hands it on as it is.  (Two
    literals of one [float64] are thus kept apart; an equation between
    values of this type holds of the Go values as well.) *)

#[warnings="-register-all"]
Inductive any :=
| Nil
| Boolean (b : bool)
| Float64 (lit : string)
| Str (s : string)
| Slice (l : list any)
| Map (m : gmap string any).

(** In a Go map a later member replaces an earlier one of the same key. *)
Fixpoint toAny (v : Value) : any :=
  match v with
  | JNull => Nil
  | JBool b => Boolean b
  | JNumber lit => Float64 lit
  | JString s => Str s
  | JArray elems => Slice (map toAny elems)
  | JObject members =>
    Map (fold_left (fun m kv => <[fst kv := toAny (snd kv)]> m) members ∅)
  end.

Fixpoint digitsToZ (s : string) (acc : Z) : Z :=
  match s with
  | String c s' =>
    if isDigit c then digitsToZ s' (10 * acc + (Z.of_nat (nat_of_ascii c) - 48))%Z
    else acc
  | EmptyString => acc
  end.

Fixpoint afterDigits (s : string) : string :=
  match s with
  | String c s' => if isDigit c then afterDigits s' else s
  | EmptyString => s
  end.

(** The magnitude of a number literal, as [m * 10^e]. *)
Definition magnitude (lit : string) : Z * Z :=
  let lit := match lit with String "-" l => l | _ => lit end in
  let int := digitsToZ lit 0 in
  let s1 := afterDigits lit in
  let '(m, nfrac, s2) :=
    match s1 with
    | String "." f =>
      (digitsToZ f int, Z.of_nat (String.length f - String.length (afterDigits f)),
       afterDigits f)
    | _ => (int, 0%Z, s1)
    end in
  let e :=
    match s2 with
    | String _ (String "-" d) => (- digitsToZ d 0)%Z
    | String _ (String "+" d) => digitsToZ d 0
    | String _ d => digitsToZ d 0
    | EmptyString => 0%Z
    end in
  (m, (e - nfrac)%Z).

(** [strconv.ParseFloat(lit, 64)] succeeds: the literal does not round
    to an infinity (it is below [2^1024 - 2^970]). *)
Definition floatInRange (lit : string) : bool :=
  let '(m, e) := magnitude lit in
  let limit := (2 ^ 1024 - 2 ^ 970)%Z in
  if (m =? 0)%Z then true
  else if (0 <=? e)%Z then
    (* beyond 10^400 without computing the power *)
    if (400 <? e)%Z then false else (m * 10 ^ e <? limit)%Z
  else (m <? limit * 10 ^ (- e))%Z.

(** [strconv.ParseInt(lit, 10, 64)]. *)
Definition parseInt64 (lit : string) : option Z :=
  let '(neg, ds) := match lit with String "-" l => (true, l) | _ => (false, lit) end in
  if String.eqb (afterDigits ds) "" && negb (String.eqb ds "") then
    let n := if neg then (- digitsToZ ds 0)%Z else digitsToZ ds 0 in
    if (- 2 ^ 63 <=? n)%Z && (n <? 2 ^ 63)%Z then Some n else None
  else None.

(** Every number of the value converts to a [float64]. *)
Fixpoint numbersInRange (v : Value) : bool :=
  match v with
  | JNumber lit => floatInRange lit
  | JArray elems => forallb numbersInRange elems
  | JObject members => forallb (fun kv => numbersInRange (snd kv)) members
  | _ => true
  end.

(** *** Decoding into structs

    A key selects the field whose name it equals, or else a field whose
    name it equals under case folding (here: of the ASCII letters). *)

Definition EqualFold (a b : string) : bool :=
  String.eqb (strings.ToLower a) (strings.ToLower b).

Definition fieldOf (fields : list string) (key : string) : option string :=
  match find (String.eqb key) fields with
  | Some f => Some f
  | None => find (EqualFold key) fields
  end.

(** *** [Marshal] of a decoded value: the members of a map are written
    in the order of their keys *)

Definition sortedMembers {V} (m : gmap string V) : list (string * V) :=
  merge_sort (fun a b => Is_true (String.leb (fst a) (fst b))) (map_to_list m).

Fixpoint Marshal (v : any) : Value :=
  match v with
  | Nil => JNull
  | Boolean b => JBool b
  | Float64 lit => JNumber lit
  | Str s => JString s
  | Slice l => JArray (map Marshal l)
  | Map m => JObject (sortedMembers (Marshal <$> m))
  end.

Definition typeError {A} (v : Value) : result A :=
  Err (UnmarshalTypeError
         match v with
         | JNull => "null"
         | JBool _ => "bool"
         | JNumber _ => "number"
         | JString _ => "string"
         | JArray _ => "array"
         | JObject _ => "object"
         end).

(** Into an [interface{}]. *)
Definition decodeAny (v : Value) : result any :=
  if numbersInRange v then Ok (toAny v) else Err (UnmarshalTypeError "number").

(** A JSON [null] leaves a field of a basic type as it is. *)
Definition decodeString (v : Value) (old : string) : result string :=
  match v with
  | JNull => Ok old
  | JString s => Ok s
  | _ => typeError v
  end.

Definition decodeBool (v : Value) (old : bool) : result bool :=
  match v with
  | JNull => Ok old
  | JBool b => Ok b
  | _ => typeError v
  end.

Definition decodeInt (v : Value) (old : Z) : result Z :=
  match v with
  | JNull => Ok old
  | JNumber lit =>
    match parseInt64 lit with
    | Some n => Ok n
    | None => typeError v
    end
  | _ => typeError v
  end.

(** Into a [map[string]interface{}]: [null] makes the map nil (here
    empty), an object adds its members to the map. *)
Definition decodeMap (v : Value) (old : gmap string any) : result (gmap string any) :=
  match v with
  | JNull => Ok ∅
  | JObject members =>
    fold_left
      (fun acc kv =>
         match acc, decodeAny (snd kv) with
         | Ok m, Ok x => Ok (<[fst kv := x]> m)
         | Err e, _ => Err e
         | _, Err e => Err e
         end)
      members (Ok old)
  | _ => typeError v
  end.

(** Into a struct of type [X], whose fields [fields] are set by [set]:
    the members are taken in their order; a key that names no field is
    skipped. *)
Definition decodeStruct {X} (fields : list string)
           (set : string -> Value -> X -> result X) (v : Value) (old : X) : result X :=
  match v with
  | JNull => Ok old
  | JObject members =>
    fold_left
      (fun acc kv =>
         match acc with
         | Err e => Err e
         | Ok x =>
           match fieldOf fields (fst kv) with
           | Some f => set f (snd kv) x
           | None => Ok x
           end
         end)
      members (Ok old)
  | _ => typeError v
  end.

(** Into a pointer to a struct: [null] makes it nil, another value
    decodes into what it points to (a new zero struct when it was nil). *)
Definition decodePointer {X} (zero : X) (dec : Value -> X -> result X)
           (v : Value) (old : option X) : result (option X) :=
  match v with
  | JNull => Ok None
  | _ =>
    match dec v (default zero old) with
    | Ok x => Ok (Some x)
    | Err e => Err e
    end
  end.

End json.

(** ** Package [os] and the file system

    The file system is a tree of directories and regular files; a node
    carries whether the process may read it (and, for a directory, search
    it).  The entries of a directory are kept in the order [os.ReadDir]
    returns them, which is by file name.  Symbolic links are not modelled. *)

Module os.

#[warnings="-register-all"]
Inductive Node :=
| File (readable : bool) (data : string)
| Dir (readable : bool) (entries : list (string * Node)).

(** The process's view: the root directory and what [os.Getwd] returns. *)
Record OS := {
  Root : Node;
  Getwd : result string;
}.

(** [fs.DirEntry] (with the size its [Info] reports). *)
Record DirEntry := {
  Name : string;
  IsDir : bool;
  Size : nat;
}.

Definition entryOf (name : string) (n : Node) : DirEntry :=
  match n with
  | File _ data => {| Name := name; IsDir := false; Size := String.length data |}
  | Dir _ _ => {| Name := name; IsDir := true; Size := 0 |}
  end.

Fixpoint lookupEntry (name : string) (entries : list (string * Node)) : option Node :=
  match entries with
  | [] => None
  | (n, node) :: rest => if String.eqb n name then Some node else lookupEntry name rest
  end.

(** One step of the kernel's path walk.  [stack] holds the node reached
    and its ancestors, the root last. *)
Definition step (elem : string) (stack : list Node) : Errno + list Node :=
  match stack with
  | [] => inl ENOENT
  | File _ _ :: _ => inl ENOTDIR
  | Dir readable entries :: up =>
    if String.eqb elem "" || String.eqb elem "." then inr stack
    else if negb readable then inl EACCES
    else if String.eqb elem ".." then
      match up with
      | [] => inr stack
      | _ => inr up
      end
    else
      match lookupEntry elem entries with
      | Some n => inr (n :: stack)
      | None => inl ENOENT
      end
  end.

Fixpoint walkElements (fuel : nat) (path : string) (stack : list Node) : Errno + list Node :=
  match fuel with
  | O => inr stack
  | S fuel' =>
    if String.eqb path "" then inr stack
    else
      let '(elem, rest) := filepath.splitElement path in
      match step elem stack with
      | inl e => inl e
      | inr stack' =>
        match rest with
        | EmptyString => inr stack'
        | String _ rest' =>
          (* a trailing separator asks for a directory *)
          if String.eqb rest' "" then step "." stack'
          else walkElements fuel' rest' stack'
        end
      end
  end.

(** The node that [path] names, from the root when it is absolute and
    from the working directory otherwise. *)
Definition resolve (fs : OS) (path : string) : Errno + Node :=
  if String.eqb path "" then inl ENOENT
  else
    let start :=
      if filepath.IsAbs path then inr [Root fs]
      else
        match Getwd fs with
        | Ok wd => walkElements (S (String.length wd)) wd [Root fs]
        | Err _ => inl ENOENT
        end in
    match start with
    | inl e => inl e
    | inr stack =>
      match walkElements (S (String.length path)) path stack with
      | inr (n :: _) => inr n
      | inr [] => inl ENOENT
      | inl e => inl e
      end
    end.

Definition ReadFile (fs : OS) (name : string) : result string :=
  match resolve fs name with
  | inl e => Err (PathError "open" name e)
  | inr (File true data) => Ok data
  | inr (File false _) => Err (PathError "open" name EACCES)
  | inr (Dir true _) => Err (PathError "read" name EISDIR)
  | inr (Dir false _) => Err (PathError "open" name EACCES)
  end.

Definition ReadDir (fs : OS) (name : string) : result (list DirEntry) :=
  match resolve fs name with
  | inl e => Err (PathError "open" name e)
  | inr (Dir true entries) => Ok (map (fun e => entryOf (fst e) (snd e)) entries)
  | inr (Dir false _) => Err (PathError "open" name EACCES)
  | inr (File true _) => Err (PathError "readdirent" name ENOTDIR)
  | inr (File false _) => Err (PathError "open" name EACCES)
  end.

(** The name [os.Lstat] reports ([basename]): trailing separators are
    removed, then the leading directory.  The bytes are taken last
    first. *)
Fixpoint trimSlashes (r : list ascii) : list ascii :=
  match r with
  | c :: (_ :: _) as r' => if filepath.IsPathSeparator c then trimSlashes r' else r
  | _ => r
  end.

Fixpoint lastElement (r : list ascii) : list ascii :=
  match r with
  | [] => []
  | c :: r' => if filepath.IsPathSeparator c then [] else c :: lastElement r'
  end.

Definition basename (name : string) : string :=
  match trimSlashes (rev (String.list_ascii_of_string name)) with
  | [] => ""
  | c :: r => strings.ofBytes (rev (c :: lastElement r))
  end.

End os.

(** ** [filepath.WalkDir]

    The walk calls [fn] with the state [S] that the Go closure captures and
    updates. *)

Module walk.

Definition WalkDirFunc (S : Type) : Type :=
  string -> option os.DirEntry -> option error -> S -> option error * S.

Definition isSkipDir (e : error) : bool :=
  match e with
  | SkipDir => true
  | _ => false
  end.

Section WalkDir.
Context {S : Type} (fn : WalkDirFunc S).

(** [walkDir], on the node [n] that [path] names. *)
Fixpoint walkDir (path name : string) (n : os.Node) (s : S) : option error * S :=
  let d := os.entryOf name n in
  match fn path (Some d) None s with
  | (Some err, s1) =>
    (if isSkipDir err && os.IsDir d then None else Some err, s1)
  | (None, s1) =>
    match n with
    | os.File _ _ => (None, s1)
    | os.Dir false _ =>
      (* Second call, to report ReadDir error. *)
      match fn path (Some d) (Some (PathError "open" path EACCES)) s1 with
      | (Some err, s2) => (if isSkipDir err then None else Some err, s2)
      | (None, s2) => (None, s2)
      end
    | os.Dir true entries =>
      (fix loop (dirs : list (string * os.Node)) (s : S) : option error * S :=
         match dirs with
         | [] => (None, s)
         | (name1, n1) :: dirs' =>
           match walkDir (filepath.Join [path; name1]) name1 n1 s with
           | (Some err, s') =>
             if isSkipDir err then (None, s') else (Some err, s')
           | (None, s') => loop dirs' s'
           end
         end) entries s1
    end
  end.

Definition WalkDir (fs : os.OS) (root : string) (s : S) : option error * S :=
  let '(err, s') :=
    match os.resolve fs root with
    | inl e => fn root None (Some (PathError "lstat" root e)) s
    | inr n => walkDir root (os.basename root) n s
    end in
  match err with
  | Some SkipDir | Some SkipAll => (None, s')
  | _ => (err, s')
  end.

End WalkDir.

End walk.

(** ** The server: [server.go] *)

Import json.

(** *** MCP protocol message types *)

Record RPCError := {
  Code : Z;
  Message : string;
  Data : any;
}.

Record ClientInfo := {
  ClientInfo_Name : string;
  ClientInfo_Version : string;
}.

Record RootsCapability := {
  RootsCapability_ListChanged : bool;
}.

Record SamplingCapability := {}.

Record ClientCapabilities := {
  Roots : option RootsCapability;
  Sampling : option SamplingCapability;
}.

Record InitializeParams := {
  InitializeParams_ProtocolVersion : string;
  InitializeParams_Capabilities : ClientCapabilities;
  InitializeParams_ClientInfo : ClientInfo;
  InitializeParams_Meta : gmap string any;
}.

Record ResourcesCapability := {
  Subscribe : bool;
  ResourcesCapability_ListChanged : bool;
}.

Record ToolsCapability := {
  ToolsCapability_ListChanged : bool;
}.

Record ServerCapabilities := {
  Resources : option ResourcesCapability;
  Tools : option ToolsCapability;
}.

Record ServerInfo := {
  ServerInfo_Name : string;
  ServerInfo_Version : string;
}.

Record InitializeResult := {
  ProtocolVersion : string;
  Capabilities : ServerCapabilities;
  InitializeResult_ServerInfo : ServerInfo;
}.

Record Resource := {
  Resource_URI : string;
  Resource_Name : string;
  Description : string;
  Resource_MimeType : string;
  Resource_Meta : gmap string any;
}.

Record ListResourcesResult := {
  ListResourcesResult_Resources : list Resource;
}.

Record ReadResourceParams := {
  ReadResourceParams_URI : string;
}.

Record ResourceContent := {
  URI : string;
  MimeType : string;
  Text : string;
  Blob : string;
}.

Record ReadResourceResult := {
  Contents : list ResourceContent;
}.

Record Tool := {
  Tool_Name : string;
  Tool_Description : string;
  InputSchema : gmap string any;
}.

Record ListToolsResult := {
  ListToolsResult_Tools : list Tool;
}.

Record CallToolParams := {
  CallToolParams_Name : string;
  Arguments : gmap string any;
}.

Record ToolContent := {
  Type_ : string;
  ToolContent_Text : string;
}.

Record CallToolResult := {
  Content : list ToolContent;
  IsError : bool;
}.

(** What the [Result interface{}] of a message holds when it is not nil:
    a value decoded from JSON, or one of the result structs. *)
Inductive ResultValue :=
| Decoded (v : any)
| OfInitializeResult (r : InitializeResult)
| OfListResourcesResult (r : ListResourcesResult)
| OfReadResourceResult (r : ReadResourceResult)
| OfListToolsResult (r : ListToolsResult)
| OfCallToolResult (r : CallToolResult).

(** [ID] and [Params] are [interface{}] values decoded from JSON ([Nil]
    when absent); [Result] and [Error] are [None] when nil.  With
    [omitempty], a nil [ID], [Result] or [Error] is not written. *)
Record JSONRPCMessage := {
  JSONRPC : string;
  ID : any;
  Method : string;
  Params : any;
  Result : option ResultValue;
  Error : option RPCError;
}.

(** *** [json.Unmarshal] into the structs of the protocol *)

Definition zeroRPCError : RPCError := {| Code := 0; Message := ""; Data := Nil |}.

Definition setRPCError (f : string) (v : Value) (e : RPCError) : result RPCError :=
  if String.eqb f "code" then
    match decodeInt v (Code e) with
    | Ok c => Ok {| Code := c; Message := Message e; Data := Data e |}
    | Err err => Err err
    end
  else if String.eqb f "message" then
    match decodeString v (Message e) with
    | Ok m => Ok {| Code := Code e; Message := m; Data := Data e |}
    | Err err => Err err
    end
  else
    match decodeAny v with
    | Ok d => Ok {| Code := Code e; Message := Message e; Data := d |}
    | Err err => Err err
    end.

Definition decodeRPCError : Value -> RPCError -> result RPCError :=
  decodeStruct ["code"; "message"; "data"] setRPCError.

Definition zeroMessage : JSONRPCMessage :=
  {| JSONRPC := ""; ID := Nil; Method := ""; Params := Nil; Result := None; Error := None |}.

Definition setMessage (f : string) (v : Value) (m : JSONRPCMessage) : result JSONRPCMessage :=
  if String.eqb f "jsonrpc" then
    match decodeString v (JSONRPC m) with
    | Ok x => Ok {| JSONRPC := x; ID := ID m; Method := Method m; Params := Params m;
                    Result := Result m; Error := Error m |}
    | Err e => Err e
    end
  else if String.eqb f "id" then
    match decodeAny v with
    | Ok x => Ok {| JSONRPC := JSONRPC m; ID := x; Method := Method m; Params := Params m;
                    Result := Result m; Error := Error m |}
    | Err e => Err e
    end
  else if String.eqb f "method" then
    match decodeString v (Method m) with
    | Ok x => Ok {| JSONRPC := JSONRPC m; ID := ID m; Method := x; Params := Params m;
                    Result := Result m; Error := Error m |}
    | Err e => Err e
    end
  else if String.eqb f "params" then
    match decodeAny v with
    | Ok x => Ok {| JSONRPC := JSONRPC m; ID := ID m; Method := Method m; Params := x;
                    Result := Result m; Error := Error m |}
    | Err e => Err e
    end
  else if String.eqb f "result" then
    match decodeAny v with
    | Ok x => Ok {| JSONRPC := JSONRPC m; ID := ID m; Method := Method m; Params := Params m;
                    Result := match x with Nil => None | _ => Some (Decoded x) end;
                    Error := Error m |}
    | Err e => Err e
    end
  else
    match decodePointer zeroRPCError decodeRPCError v (Error m) with
    | Ok x => Ok {| JSONRPC := JSONRPC m; ID := ID m; Method := Method m; Params := Params m;
                    Result := Result m; Error := x |}
    | Err e => Err e
    end.

(** [json.Unmarshal([]byte(line), &msg)] with [var msg JSONRPCMessage]. *)
Definition UnmarshalMessage (line : string) : result JSONRPCMessage :=
  match parse line with
  | Err e => Err e
  | Ok v =>
    decodeStruct ["jsonrpc"; "id"; "method"; "params"; "result"; "error"] setMessage
                 v zeroMessage
  end.

Definition zeroClientInfo : ClientInfo :=
  {| ClientInfo_Name := ""; ClientInfo_Version := "" |}.

Definition setClientInfo (f : string) (v : Value) (c : ClientInfo) : result ClientInfo :=
  if String.eqb f "name" then
    match decodeString v (ClientInfo_Name c) with
    | Ok x => Ok {| ClientInfo_Name := x; ClientInfo_Version := ClientInfo_Version c |}
    | Err e => Err e
    end
  else
    match decodeString v (ClientInfo_Version c) with
    | Ok x => Ok {| ClientInfo_Name := ClientInfo_Name c; ClientInfo_Version := x |}
    | Err e => Err e
    end.

Definition setRootsCapability (f : string) (v : Value) (c : RootsCapability)
  : result RootsCapability :=
  match decodeBool v (RootsCapability_ListChanged c) with
  | Ok x => Ok {| RootsCapability_ListChanged := x |}
  | Err e => Err e
  end.

Definition zeroClientCapabilities : ClientCapabilities :=
  {| Roots := None; Sampling := None |}.

Definition setClientCapabilities (f : string) (v : Value) (c : ClientCapabilities)
  : result ClientCapabilities :=
  if String.eqb f "roots" then
    match decodePointer {| RootsCapability_ListChanged := false |}
                        (decodeStruct ["listChanged"] setRootsCapability) v (Roots c) with
    | Ok x => Ok {| Roots := x; Sampling := Sampling c |}
    | Err e => Err e
    end
  else
    match decodePointer Build_SamplingCapability
                        (decodeStruct [] (fun _ _ x => Ok x)) v (Sampling c) with
    | Ok x => Ok {| Roots := Roots c; Sampling := x |}
    | Err e => Err e
    end.

Definition zeroInitializeParams : InitializeParams :=
  {| InitializeParams_ProtocolVersion := "";
     InitializeParams_Capabilities := zeroClientCapabilities;
     InitializeParams_ClientInfo := zeroClientInfo;
     InitializeParams_Meta := ∅ |}.

Definition setInitializeParams (f : string) (v : Value) (p : InitializeParams)
  : result InitializeParams :=
  if String.eqb f "protocolVersion" then
    match decodeString v (InitializeParams_ProtocolVersion p) with
    | Ok x => Ok {| InitializeParams_ProtocolVersion := x;
                    InitializeParams_Capabilities := InitializeParams_Capabilities p;
                    InitializeParams_ClientInfo := InitializeParams_ClientInfo p;
                    InitializeParams_Meta := InitializeParams_Meta p |}
    | Err e => Err e
    end
  else if String.eqb f "capabilities" then
    match decodeStruct ["roots"; "sampling"] setClientCapabilities v
                       (InitializeParams_Capabilities p) with
    | Ok x => Ok {| InitializeParams_ProtocolVersion := InitializeParams_ProtocolVersion p;
                    InitializeParams_Capabilities := x;
                    InitializeParams_ClientInfo := InitializeParams_ClientInfo p;
                    InitializeParams_Meta := InitializeParams_Meta p |}
    | Err e => Err e
    end
  else if String.eqb f "clientInfo" then
    match decodeStruct ["name"; "version"] setClientInfo v (InitializeParams_ClientInfo p) with
    | Ok x => Ok {| InitializeParams_ProtocolVersion := InitializeParams_ProtocolVersion p;
                    InitializeParams_Capabilities := InitializeParams_Capabilities p;
                    InitializeParams_ClientInfo := x;
                    InitializeParams_Meta := InitializeParams_Meta p |}
    | Err e => Err e
    end
  else
    match decodeMap v (InitializeParams_Meta p) with
    | Ok x => Ok {| InitializeParams_ProtocolVersion := InitializeParams_ProtocolVersion p;
                    InitializeParams_Capabilities := InitializeParams_Capabilities p;
                    InitializeParams_ClientInfo := InitializeParams_ClientInfo p;
                    InitializeParams_Meta := x |}
    | Err e => Err e
    end.

(** [json.Unmarshal(data, &params)] with [var params InitializeParams]. *)
Definition UnmarshalInitializeParams (data : Value) : result InitializeParams :=
  decodeStruct ["protocolVersion"; "capabilities"; "clientInfo"; "meta"]
               setInitializeParams data zeroInitializeParams.

Definition zeroReadResourceParams : ReadResourceParams :=
  {| ReadResourceParams_URI := "" |}.

(** [json.Unmarshal(data, &params)] with [var params ReadResourceParams]. *)
Definition UnmarshalReadResourceParams (data : Value) : result ReadResourceParams :=
  decodeStruct ["uri"]
               (fun _ v p =>
                  match decodeString v (ReadResourceParams_URI p) with
                  | Ok x => Ok {| ReadResourceParams_URI := x |}
                  | Err e => Err e
                  end)
               data zeroReadResourceParams.

Definition zeroCallToolParams : CallToolParams :=
  {| CallToolParams_Name := ""; Arguments := ∅ |}.

(** [json.Unmarshal(data, &params)] with [var params CallToolParams]. *)
Definition UnmarshalCallToolParams (data : Value) : result CallToolParams :=
  decodeStruct ["name"; "arguments"]
               (fun f v p =>
                  if String.eqb f "name" then
                    match decodeString v (CallToolParams_Name p) with
                    | Ok x => Ok {| CallToolParams_Name := x; Arguments := Arguments p |}
                    | Err e => Err e
                    end
                  else
                    match decodeMap v (Arguments p) with
                    | Ok x => Ok {| CallToolParams_Name := CallToolParams_Name p; Arguments := x |}
                    | Err e => Err e
                    end)
               data zeroCallToolParams.

(** *** Output

    The process writes messages to standard output, one line each, and
    log entries to standard error.  An [IO] action threads the two
    streams. *)

Inductive LogEntry :=
| LogStarting (baseDir : string)
| LogReady
| LogReceived (line : string)
| LogInvalidJSON (err : error)
| LogErrorHandlingMessage (err : error)
| LogInitialize (name version : string)
| LogReceivedInitialized
| LogListingResources (baseDir : string)
| LogErrorWalking (err : error)
| LogFoundResources (n : nat)
| LogReadingResource (uri : string)
| LogSuccessfullyRead (absPath : string) (bytes : nat)
| LogListingTools
| LogReturningTools (n : nat)
| LogCallingTool (name : string) (arguments : gmap string any).

Record World := {
  stdout : list JSONRPCMessage;
  stderr : list LogEntry;
}.

Definition IO (A : Type) : Type := World -> A * World.

Definition ret {A} (a : A) : IO A := fun w => (a, w).

Definition bind {A B} (m : IO A) (k : A -> IO B) : IO B :=
  fun w => let '(a, w') := m w in k a w'.

Notation "x <- m ;; k" := (bind m (fun x => k))
  (at level 100, m at next level, right associativity).
Notation "m ;; k" := (bind m (fun _ => k))
  (at level 100, right associativity).

(** [fmt.Println(string(data))] *)
Definition Println (msg : JSONRPCMessage) : IO unit :=
  fun w => (tt, {| stdout := stdout w ++ [msg]; stderr := stderr w |}).

(** [log.Printf] *)
Definition logPrintf (e : LogEntry) : IO unit :=
  fun w => (tt, {| stdout := stdout w; stderr := stderr w ++ [e] |}).

(** *** MCP server implementation *)

Record MCPServer := {
  baseDir : string;
}.

Definition nl : string := String "010" "".

(** [json.Marshal] does not fail on a message of this server (its values
    are strings, booleans, decoded JSON and structs of those), so the line
    is always written and the error is nil. *)
Definition sendMessage (msg : JSONRPCMessage) : IO (option error) :=
  Println msg ;; ret None.

Definition sendError (id : any) (code : Z) (message : string) : IO (option error) :=
  let msg := {|
    JSONRPC := "2.0";
    ID := id;
    Method := "";
    Params := Nil;
    Result := None;
    Error := Some {| Code := code; Message := message; Data := Nil |};
  |} in
  sendMessage msg.

Definition sendResult (id : any) (result : ResultValue) : IO (option error) :=
  let msg := {|
    JSONRPC := "2.0";
    ID := id;
    Method := "";
    Params := Nil;
    Result := Some result;
    Error := None;
  |} in
  sendMessage msg.

Definition sendToolResult (id : any) (text : string) (isError : bool) : IO (option error) :=
  let result := {|
    Content := [ {| Type_ := "text"; ToolContent_Text := text |} ];
    IsError := isError;
  |} in
  sendResult id (OfCallToolResult result).

Definition handleInitialize (id : any) (params : InitializeParams) : IO (option error) :=
  logPrintf (LogInitialize (ClientInfo_Name (InitializeParams_ClientInfo params))
                           (ClientInfo_Version (InitializeParams_ClientInfo params))) ;;
  let result := {|
    ProtocolVersion := "2024-11-05";
    Capabilities := {|
      Resources := Some {| Subscribe := false; ResourcesCapability_ListChanged := false |};
      Tools := Some {| ToolsCapability_ListChanged := false |};
    |};
    InitializeResult_ServerInfo := {|
      ServerInfo_Name := "file-server";
      ServerInfo_Version := "1.0.0";
    |};
  |} in
  sendResult id (OfInitializeResult result).

Definition handleNotificationInitialized : IO unit :=
  (* This is a notification, no response needed *)
  logPrintf LogReceivedInitialized.

(** **** Utility functions *)

Definition getMimeType (ext : string) : string :=
  let e := strings.ToLower ext in
  if String.eqb e ".txt" || String.eqb e ".md" || String.eqb e ".markdown" then "text/plain"
  else if String.eqb e ".json" then "application/json"
  else if String.eqb e ".xml" then "application/xml"
  else if String.eqb e ".html" || String.eqb e ".htm" then "text/html"
  else if String.eqb e ".css" then "text/css"
  else if String.eqb e ".js" then "application/javascript"
  else if String.eqb e ".go" then "text/plain"
  else if String.eqb e ".py" then "text/plain"
  else if String.eqb e ".java" then "text/plain"
  else if String.eqb e ".c" || String.eqb e ".cpp" || String.eqb e ".h" then "text/plain"
  else "application/octet-stream".

(** The bytes of [v] as JSON are identified with the [Value] they spell. *)
Definition mustMarshal (v : any) : Value :=
  match v with
  | Nil => JObject []
  | _ => Marshal v
  end.

(** **** Resources *)

(** The function literal that [handleListResources] passes to [WalkDir];
    the state is the slice [resources]. *)
Definition listResourcesFn (s : MCPServer) : walk.WalkDirFunc (list Resource) :=
  fun path d err resources =>
    match err, d with
    | Some err, _ => (Some err, resources)
    | None, None => (Some (ErrorString "nil DirEntry"), resources)
    | None, Some d =>
      if os.IsDir d then (None, resources)
      else
        match filepath.Rel (baseDir s) path with
        | Err err => (Some err, resources)
        | Ok relPath =>
          let uri := "file://" +:+ filepath.Join [baseDir s; relPath] in
          (* Determine MIME type based on file extension *)
          let mimeType := getMimeType (filepath.Ext path) in
          let resource := {|
            Resource_URI := uri;
            Resource_Name := relPath;
            Description := "File: " +:+ relPath;
            Resource_MimeType := mimeType;
            Resource_Meta := ∅;
          |} in
          (None, resources ++ [resource])
        end
    end.

Definition handleListResources (fs : os.OS) (s : MCPServer) (id : any) : IO (option error) :=
  logPrintf (LogListingResources (baseDir s)) ;;
  let '(err, resources) := walk.WalkDir (listResourcesFn s) fs (baseDir s) [] in
  match err with
  | Some err =>
    logPrintf (LogErrorWalking err) ;;
    sendError id (-32603) ("Failed to list resources: " +:+ errText err)
  | None =>
    let result := {| ListResourcesResult_Resources := resources |} in
    logPrintf (LogFoundResources (length resources)) ;;
    sendResult id (OfListResourcesResult result)
  end.

Definition handleReadResource (fs : os.OS) (s : MCPServer) (id : any)
           (params : ReadResourceParams) : IO (option error) :=
  logPrintf (LogReadingResource (ReadResourceParams_URI params)) ;;
  (* Parse URI to get file path *)
  if negb (strings.HasPrefix (ReadResourceParams_URI params) "file://") then
    sendError id (-32602) "Invalid URI scheme, expected file://"
  else
    let filePath := strings.TrimPrefix (ReadResourceParams_URI params) "file://" in
    (* Security check: ensure the file is within the base directory *)
    match filepath.Abs (os.Getwd fs) filePath with
    | Err _ => sendError id (-32602) "Invalid file path"
    | Ok absPath =>
      match filepath.Abs (os.Getwd fs) (baseDir s) with
      | Err _ => sendError id (-32603) "Server configuration error"
      | Ok absBaseDir =>
        if negb (strings.HasPrefix absPath absBaseDir) then
          sendError id (-32602) "Access denied: file outside allowed directory"
        else
          (* Read file content *)
          match os.ReadFile fs absPath with
          | Err err =>
            if IsNotExist err then sendError id (-32602) "File not found"
            else sendError id (-32603) ("Failed to read file: " +:+ errText err)
          | Ok content =>
            let mimeType := getMimeType (filepath.Ext absPath) in
            let resourceContent := {|
              URI := ReadResourceParams_URI params;
              MimeType := mimeType;
              Text := content;
              Blob := "";
            |} in
            let result := {| Contents := [resourceContent] |} in
            logPrintf (LogSuccessfullyRead absPath (String.length content)) ;;
            sendResult id (OfReadResourceResult result)
          end
      end
    end.

(** **** Tools *)

Definition schema (properties : list (string * string)) (required : list string)
  : gmap string any :=
  list_to_map [
    ("type", Str "object");
    ("properties",
     Map (list_to_map
            (map (fun p => (fst p,
                            Map (list_to_map [("type", Str "string");
                                              ("description", Str (snd p))])))
                 properties)));
    ("required", Slice (map Str required))
  ].

Definition tools : list Tool := [
  {| Tool_Name := "read_file";
     Tool_Description := "Read the contents of a file";
     InputSchema := schema [("path", "The path to the file to read")] ["path"] |};
  {| Tool_Name := "list_directory";
     Tool_Description := "List files and directories in a given path";
     InputSchema :=
       schema [("path", "The path to the directory to list (optional, defaults to base directory)")]
              [] |};
  {| Tool_Name := "search_files";
     Tool_Description := "Search for files by name pattern";
     InputSchema :=
       schema [("pattern", "The filename pattern to search for (supports wildcards)")]
              ["pattern"] |}
].

Definition handleListTools (id : any) : IO (option error) :=
  logPrintf LogListingTools ;;
  let result := {| ListToolsResult_Tools := tools |} in
  logPrintf (LogReturningTools (length tools)) ;;
  sendResult id (OfListToolsResult result).

Definition handleReadFileTool (fs : os.OS) (s : MCPServer) (id : any)
           (args : gmap string any) : IO (option error) :=
  match args !! "path" with
  | None => sendError id (-32602) "Missing required argument: path"
  | Some (Str path) =>
    (* Security check: ensure the file is within the base directory *)
    let fullPath := filepath.Join [baseDir s; path] in
    match filepath.Abs (os.Getwd fs) fullPath with
    | Err _ => sendError id (-32602) "Invalid file path"
    | Ok absPath =>
      match filepath.Abs (os.Getwd fs) (baseDir s) with
      | Err _ => sendError id (-32603) "Server configuration error"
      | Ok absBaseDir =>
        if negb (strings.HasPrefix absPath absBaseDir) then
          sendError id (-32602) "Access denied: file outside allowed directory"
        else
          (* Read file content *)
          match os.ReadFile fs absPath with
          | Err err =>
            if IsNotExist err
            then sendToolResult id ("File not found: " +:+ path) true
            else sendToolResult id ("Failed to read file: " +:+ errText err) true
          | Ok content =>
            let result := "Contents of " +:+ path +:+ ":" +:+ nl +:+ content in
            sendToolResult id result false
          end
      end
    end
  | Some _ => sendError id (-32602) "Invalid path argument: must be string"
  end.

(** One line of the listing of [handleListDirectoryTool]. *)
Definition entryLine (entry : os.DirEntry) : string :=
  if os.IsDir entry then "ðŸ“ " +:+ os.Name entry +:+ "/" +:+ nl
  else "ðŸ“„ " +:+ os.Name entry +:+ " (" +:+ pretty (os.Size entry) +:+ " bytes)" +:+ nl.

Definition handleListDirectoryTool (fs : os.OS) (s : MCPServer) (id : any)
           (args : gmap string any) : IO (option error) :=
  let targetDir :=
    match args !! "path" with
    | Some (Str path) => Ok (filepath.Join [baseDir s; path])
    | Some _ => Err (ErrorString "Invalid path argument: must be string")
    | None => Ok (baseDir s)
    end in
  match targetDir with
  | Err _ => sendError id (-32602) "Invalid path argument: must be string"
  | Ok targetDir =>
    (* Security check *)
    match filepath.Abs (os.Getwd fs) targetDir with
    | Err _ => sendError id (-32602) "Invalid directory path"
    | Ok absPath =>
      match filepath.Abs (os.Getwd fs) (baseDir s) with
      | Err _ => sendError id (-32603) "Server configuration error"
      | Ok absBaseDir =>
        if negb (strings.HasPrefix absPath absBaseDir) then
          sendError id (-32602) "Access denied: directory outside allowed path"
        else
          (* List directory contents *)
          match os.ReadDir fs absPath with
          | Err err =>
            if IsNotExist err
            then sendToolResult id ("Directory not found: " +:+ targetDir) true
            else sendToolResult id ("Failed to list directory: " +:+ errText err) true
          | Ok entries =>
            let header :=
              match filepath.Rel (baseDir s) absPath with
              | Ok "." => "Contents of base directory:" +:+ nl
              | Ok relPath => "Contents of " +:+ relPath +:+ ":" +:+ nl
              | Err _ => "Contents of :" +:+ nl
              end in
            sendToolResult id (header +:+ String.concat "" (map entryLine entries)) false
          end
      end
    end
  end.

(** The function literal that [handleSearchFilesTool] passes to
    [WalkDir]; the state is the slice [matches]. *)
Definition searchFilesFn (s : MCPServer) (pattern : string) : walk.WalkDirFunc (list string) :=
  fun path d err matches =>
    match err, d with
    | Some err, _ => (Some err, matches)
    | None, None => (Some (ErrorString "nil DirEntry"), matches)
    | None, Some d =>
      if os.IsDir d then (None, matches)
      else
        match filepath.Match pattern (os.Name d) with
        | Err err => (Some err, matches)
        | Ok matched =>
          if matched then
            match filepath.Rel (baseDir s) path with
            | Err err => (Some err, matches)
            | Ok relPath => (None, matches ++ [relPath])
            end
          else (None, matches)
        end
    end.

Definition matchLine (m : string) : string := "ðŸ“„ " +:+ m +:+ nl.

Definition handleSearchFilesTool (fs : os.OS) (s : MCPServer) (id : any)
           (args : gmap string any) : IO (option error) :=
  match args !! "pattern" with
  | None => sendError id (-32602) "Missing required argument: pattern"
  | Some (Str pattern) =>
    let '(err, matches) := walk.WalkDir (searchFilesFn s pattern) fs (baseDir s) [] in
    match err with
    | Some err => sendToolResult id ("Search failed: " +:+ errText err) true
    | None =>
      let header := "Files matching pattern '" +:+ pattern +:+ "':" +:+ nl in
      let body :=
        if (length matches =? 0)%nat then "No files found matching the pattern."
        else String.concat "" (map matchLine matches) in
      sendToolResult id (header +:+ body) false
    end
  | Some _ => sendError id (-32602) "Invalid pattern argument: must be string"
  end.

Definition handleCallTool (fs : os.OS) (s : MCPServer) (id : any) (params : CallToolParams)
  : IO (option error) :=
  logPrintf (LogCallingTool (CallToolParams_Name params) (Arguments params)) ;;
  let name := CallToolParams_Name params in
  if String.eqb name "read_file" then handleReadFileTool fs s id (Arguments params)
  else if String.eqb name "list_directory" then handleListDirectoryTool fs s id (Arguments params)
  else if String.eqb name "search_files" then handleSearchFilesTool fs s id (Arguments params)
  else sendError id (-32601) ("Tool not found: " +:+ name).

(** **** The dispatcher *)

Definition handleMessage (fs : os.OS) (s : MCPServer) (msg : JSONRPCMessage)
  : IO (option error) :=
  let method := Method msg in
  if String.eqb method "initialize" then
    match UnmarshalInitializeParams (mustMarshal (Params msg)) with
    | Err _ => sendError (ID msg) (-32602) "Invalid initialize parameters"
    | Ok params => handleInitialize (ID msg) params
    end
  else if String.eqb method "notifications/initialized" then
    handleNotificationInitialized ;; ret None
  else if String.eqb method "resources/list" then
    handleListResources fs s (ID msg)
  else if String.eqb method "resources/read" then
    match UnmarshalReadResourceParams (mustMarshal (Params msg)) with
    | Err _ => sendError (ID msg) (-32602) "Invalid read resource parameters"
    | Ok params => handleReadResource fs s (ID msg) params
    end
  else if String.eqb method "tools/list" then
    handleListTools (ID msg)
  else if String.eqb method "tools/call" then
    match UnmarshalCallToolParams (mustMarshal (Params msg)) with
    | Err _ => sendError (ID msg) (-32602) "Invalid call tool parameters"
    | Ok params => handleCallTool fs s (ID msg) params
    end
  else sendError (ID msg) (-32601) ("Method not found: " +:+ method).

(** The loop of [Run] over the lines that the scanner yields. *)
Fixpoint scanLoop (fs : os.OS) (s : MCPServer) (lines : list string) : IO unit :=
  match lines with
  | [] => ret tt
  | line :: rest =>
    if String.eqb line "" then scanLoop fs s rest
    else
      logPrintf (LogReceived line) ;;
      match UnmarshalMessage line with
      | Err err =>
        logPrintf (LogInvalidJSON err) ;;
        scanLoop fs s rest
      | Ok msg =>
        err <- handleMessage fs s msg ;;
        match err with
        | Some err => logPrintf (LogErrorHandlingMessage err)
        | None => ret tt
        end ;;
        scanLoop fs s rest
      end
  end.

(** [Run], on the lines read from standard input and the error, if any,
    that ended the scan. *)
Definition Run (fs : os.OS) (s : MCPServer) (lines : list string) (scanErr : option error)
  : IO (option error) :=
  logPrintf (LogStarting (baseDir s)) ;;
  logPrintf LogReady ;;
  scanLoop fs s lines ;;
  match scanErr with
  | Some err => ret (Some (ErrorString ("scanner error: " +:+ errText err)))
  | None => ret None
  end.

Definition emptyWorld : World := {| stdout := []; stderr := [] |}.

(** JSON texts are written below with ['] for the double quote. *)
Fixpoint jsonText (s : string) : string :=
  match s with
  | EmptyString => EmptyString
  | String c s' => String (if Ascii.eqb c "'" then json.dquote else c) (jsonText s')
  end.

(** ** Notions of the specification *)

(** The response that [sendError] writes. *)
Definition errorResponse (id : any) (code : Z) (message : string) : JSONRPCMessage :=
  {| JSONRPC := "2.0"; ID := id; Method := ""; Params := Nil; Result := None;
     Error := Some {| Code := code; Message := message; Data := Nil |} |}.

(** The response that [sendResult] writes. *)
Definition resultResponse (id : any) (result : ResultValue) : JSONRPCMessage :=
  {| JSONRPC := "2.0"; ID := id; Method := ""; Params := Nil; Result := Some result;
     Error := None |}.

(** The response that [sendToolResult] writes. *)
Definition toolResponse (id : any) (text : string) (isError : bool) : JSONRPCMessage :=
  resultResponse id
    (OfCallToolResult {| Content := [ {| Type_ := "text"; ToolContent_Text := text |} ];
                         IsError := isError |}).

(** The world after the messages [msgs] and the log entries [logs] were
    written. *)
Definition after (w : World) (msgs : list JSONRPCMessage) (logs : list LogEntry) : World :=
  {| stdout := stdout w ++ msgs; stderr := stderr w ++ logs |}.

(** A protocol-level error: the envelope carries an [error] with [code]. *)
Definition isProtocolError (code : Z) (m : JSONRPCMessage) : Prop :=
  Result m = None /\ exists e, Error m = Some e /\ Code e = code.

(** A tool call failure: a successful envelope (a result, no error) whose
    result is a [CallToolResult] with [isError] set. *)
Definition isToolFailure (m : JSONRPCMessage) : Prop :=
  Error m = None /\ exists r, Result m = Some (OfCallToolResult r) /\ IsError r = true.

(** Exactly one of [result] and [error] is written, and the tag is 2.0. *)
Definition wellFormedResponse (m : JSONRPCMessage) : Prop :=
  JSONRPC m = "2.0"
  /\ ((is_Some (Result m) /\ Error m = None) \/ (Result m = None /\ is_Some (Error m))).

(** The containment that the specification asks of the sandbox, on
    absolute cleaned paths: the target is the root, or it continues the
    root after a separator. *)
Definition contained (root target : string) : bool :=
  String.eqb target root
  || strings.HasPrefix target (if String.eqb root "/" then root else root +:+ "/").

(** What the walk meets below the node [n] named by [path], in the order
    of the walk (a directory's entries in their order, each entry with all
    that is below it before the next): the regular files, and the
    directories that cannot be read. *)
Inductive Visit :=
| VisitFile (path name : string)
| VisitUnreadable (path : string).

Fixpoint visits (path name : string) (n : os.Node) : list Visit :=
  match n with
  | os.File _ _ => [VisitFile path name]
  | os.Dir false _ => [VisitUnreadable path]
  | os.Dir true entries =>
    (fix below (dirs : list (string * os.Node)) : list Visit :=
       match dirs with
       | [] => []
       | (name1, n1) :: dirs' =>
         visits (filepath.Join [path; name1]) name1 n1 ++ below dirs'
       end) entries
  end.

(** The search as the specification words it: each regular file's base
    name is matched against the pattern; the answer is the list of the
    matching files' paths relative to the root, in the order of the walk;
    the first error (a malformed pattern met on a file, a directory that
    cannot be read) ends the walk. *)
Fixpoint searchSpec (s : MCPServer) (pattern : string) (vs : list Visit)
  : result (list string) :=
  match vs with
  | [] => Ok []
  | VisitUnreadable path :: _ => Err (PathError "open" path EACCES)
  | VisitFile path name :: rest =>
    match filepath.Match pattern name with
    | Err e => Err e
    | Ok matched =>
      let here :=
        if matched then
          match filepath.Rel (baseDir s) path with
          | Ok relPath => Ok [relPath]
          | Err e => Err e
          end
        else Ok [] in
      match here, searchSpec s pattern rest with
      | Ok l, Ok l' => Ok (l ++ l')
      | Err e, _ => Err e
      | _, Err e => Err e
      end
    end
  end.

Definition searchOutcome (fs : os.OS) (s : MCPServer) (pattern : string)
  : result (list string) :=
  match os.resolve fs (baseDir s) with
  | inl e => Err (PathError "lstat" (baseDir s) e)
  | inr n => searchSpec s pattern (visits (baseDir s) (os.basename (baseDir s)) n)
  end.

(** An error that is none of the walk's sentinels. *)
Definition ordinary (e : error) : Prop := e <> SkipDir /\ e <> SkipAll.

(** What a walk with the state [ms] gives, against the search [r] of the
    specification: the matches are appended, or the walk ends with the
    error. *)
Definition searchResult (r : result (list string)) (ms : list string)
           (out : option error * list string) : Prop :=
  match r with
  | Ok l => out = (None, ms ++ l)
  | Err e => fst out = Some e
  end.

(** The text that [handleSearchFilesTool] answers for the relative paths
    [matches]. *)
Definition searchText (pattern : string) (matches : list string) : string :=
  ("Files matching pattern '" +:+ pattern +:+ "':" +:+ nl)
  +:+ match matches with
      | [] => "No files found matching the pattern."
      | _ => String.concat "" (map matchLine matches)
      end.

(** [writes a r msgs logs]: whatever was written before, the action [a]
    writes the messages [msgs] and the log entries [logs], and returns [r]. *)
Definition writes {A} (a : IO A) (r : A) (msgs : list JSONRPCMessage)
           (logs : list LogEntry) : Prop :=
  forall w, a w = (r, after w msgs logs).

(** [answers id a]: the action writes exactly one message, a well-formed
    response that carries [id], and returns no error. *)
Definition answers (id : any) (a : IO (option error)) : Prop :=
  exists m logs, writes a None [m] logs /\ ID m = id /\ wellFormedResponse m.

(** The fixed table of MIME types by (lower-case) extension. *)
Definition mimeTable : list (string * string) := [
  (".txt", "text/plain"); (".md", "text/plain"); (".markdown", "text/plain");
  (".json", "application/json"); (".xml", "application/xml");
  (".html", "text/html"); (".htm", "text/html"); (".css", "text/css");
  (".js", "application/javascript"); (".go", "text/plain"); (".py", "text/plain");
  (".java", "text/plain"); (".c", "text/plain"); (".cpp", "text/plain");
  (".h", "text/plain")
].

Definition lookupMime (ext : string) : string :=
  match find (fun entry => String.eqb ext (fst entry)) mimeTable with
  | Some entry => snd entry
  | None => "application/octet-stream"
  end.

(** The content that [resources/read] answers with. *)
Definition resourceResponse (id : any) (uri mimeType text : string) : JSONRPCMessage :=
  resultResponse id
    (OfReadResourceResult
       {| Contents := [ {| URI := uri; MimeType := mimeType; Text := text; Blob := "" |} ] |}).


(** The names of the tools. *)
Definition toolNames : list string := ["read_file"; "list_directory"; "search_files"].

(** ** A file system for the examples

    [/srv/data] is served; [/srv/data-other] is its sibling; [/srv/empty]
    is a directory without entries. *)

Definition exampleFS : os.OS := {|
  os.Root :=
    os.Dir true [
      ("srv", os.Dir true [
         ("data", os.Dir true [
            ("a.md", os.File true "# notes");
            ("a.txt", os.File true "alpha");
            ("b.txt", os.File true "beta");
            ("d", os.Dir true [("y.json", os.File true "{}")]);
            ("locked.bin", os.File false "0000")]);
         ("data-other", os.Dir true [("secret.txt", os.File true "secret")]);
         ("empty", os.Dir true [])])];
  os.Getwd := Ok "/srv/data";
|}.

Definition exampleServer : MCPServer := {| baseDir := "/srv/data" |}.

Definition emptyServer : MCPServer := {| baseDir := "/srv/empty" |}.

(** ** Notions for the further properties *)

(** What the server writes on standard output for one line, when nothing
    was written before. *)
Definition respond (fs : os.OS) (s : MCPServer) (line : string) : list JSONRPCMessage :=
  if String.eqb line "" then []
  else
    match UnmarshalMessage line with
    | Err _ => []
    | Ok msg => stdout (snd (handleMessage fs s msg emptyWorld))
    end.

(** The lines that get no response: the empty line, a line that does not
    decode, the notification. *)
Definition silent (line : string) : Prop :=
  line = ""
  \/ (exists e, UnmarshalMessage line = Err e)
  \/ (exists msg, UnmarshalMessage line = Ok msg
                  /\ Method msg = "notifications/initialized").

(** [responds P a]: the action writes exactly one message, which
    satisfies [P], and returns no error. *)
Definition responds (P : JSONRPCMessage -> Prop) (a : IO (option error)) : Prop :=
  exists m logs, writes a None [m] logs /\ P m.



(** The MIME types that [getMimeType] can give. *)
Definition mimeTypes : list string :=
  ["text/plain"; "application/json"; "application/xml"; "text/html"; "text/css";
   "application/javascript"; "application/octet-stream"].

(** Parameters that are neither absent nor an object. *)
Definition notObject (v : any) : Prop :=
  match v with
  | Nil | Map _ => False
  | _ => True
  end.

(** The keys that a tool's schema lists under [required] and under
    [properties]. *)
Definition required (t : Tool) : list string :=
  match InputSchema t !! "required" with
  | Some (Slice l) => omap (fun v => match v with Str k => Some k | _ => None end) l
  | _ => []
  end.

Definition properties (t : Tool) : list string :=
  match InputSchema t !! "properties" with
  | Some (Map m) => fst <$> map_to_list m
  | _ => []
  end.

(** A value that is no string. *)
Definition notString (v : any) : Prop :=
  match v with
  | Str _ => False
  | _ => True
  end.

(** The directory that [handleListDirectoryTool] lists: the base
    directory when there is no [path], the base directory joined with
    [path] when it is a string. *)
Definition listTarget (s : MCPServer) (args : gmap string any) : option string :=
  match args !! "path" with
  | Some (Str path) => Some (filepath.Join [baseDir s; path])
  | Some _ => None
  | None => Some (baseDir s)
  end.

(** The first line of a listing. *)
Definition listHeader (s : MCPServer) (absPath : string) : string :=
  match filepath.Rel (baseDir s) absPath with
  | Ok "." => "Contents of base directory:" +:+ nl
  | Ok relPath => "Contents of " +:+ relPath +:+ ":" +:+ nl
  | Err _ => "Contents of :" +:+ nl
  end.

(** The resource that [handleListResources] gives for the regular file
    at [path], whose path from the base directory is [relPath]. *)
Definition resourceOf (s : MCPServer) (path relPath : string) : Resource :=
  {| Resource_URI := "file://" +:+ filepath.Join [baseDir s; relPath];
     Resource_Name := relPath;
     Description := "File: " +:+ relPath;
     Resource_MimeType := getMimeType (filepath.Ext path);
     Resource_Meta := ∅ |}.

(** The listing over the visits of a walk: one resource for each regular
    file, in the order of the walk; the first error ends it. *)
Fixpoint listSpec (s : MCPServer) (vs : list Visit) : result (list Resource) :=
  match vs with
  | [] => Ok []
  | VisitUnreadable path :: _ => Err (PathError "open" path EACCES)
  | VisitFile path name :: rest =>
    match filepath.Rel (baseDir s) path with
    | Err e => Err e
    | Ok relPath =>
      match listSpec s rest with
      | Ok l => Ok (resourceOf s path relPath :: l)
      | Err e => Err e
      end
    end
  end.

(** The visits of the walk from the base directory. *)
Definition walked (fs : os.OS) (s : MCPServer) : Errno + list Visit :=
  match os.resolve fs (baseDir s) with
  | inl e => inl e
  | inr n => inr (visits (baseDir s) (os.basename (baseDir s)) n)
  end.

Definition listOutcome (fs : os.OS) (s : MCPServer) : result (list Resource) :=
  match walked fs s with
  | inl e => Err (PathError "lstat" (baseDir s) e)
  | inr vs => listSpec s vs
  end.

Definition listResult (r : result (list Resource)) (rs : list Resource)
           (out : option error * list Resource) : Prop :=
  match r with
  | Ok l => out = (None, rs ++ l)
  | Err e => fst out = Some e
  end.

Definition isFile (v : Visit) : bool :=
  match v with
  | VisitFile _ _ => true
  | VisitUnreadable _ => false
  end.

(** No file name of the visits holds a separator. *)
Definition plainNames (vs : list Visit) : Prop :=
  Forall (fun v => match v with
                   | VisitFile _ name => strings.ContainsByte name "/" = false
                   | VisitUnreadable _ => True
                   end) vs.

(** [os.Stat], of which [main] uses the error only. *)
Definition Stat (fs : os.OS) (name : string) : option error :=
  match os.resolve fs name with
  | inl e => Some (PathError "stat" name e)
  | inr _ => None
  end.

Definition NewMCPServer (baseDir : string) : MCPServer := {| baseDir := baseDir |}.

(** How the process ends: [main] returns, or [log.Fatalf] prints the
    message and exits with status 1. *)
Inductive Exit :=
| Returned
| Fatal (message : string).

(** [main], on the arguments of the process ([os.Args], the name of the
    program first) and the lines of the standard input. *)
Definition main (fs : os.OS) (args : list string) (lines : list string)
           (scanErr : option error) : IO Exit :=
  (* Default to current directory if no argument provided *)
  let baseDir :=
    match args with
    | _ :: arg :: _ => arg
    | _ => "."
    end in
  (* Ensure the directory exists *)
  if match Stat fs baseDir with
     | Some err => IsNotExist err
     | None => false
     end
  then ret (Fatal ("Directory does not exist: " +:+ baseDir))
  else
    err <- Run fs (NewMCPServer baseDir) lines scanErr ;;
    match err with
    | Some err => ret (Fatal ("Server error: " +:+ errText err))
    | None => ret Returned
    end.

(** The directory that [main] serves. *)
Definition served (args : list string) : string := nth 1 args ".".



(** The test of a file name: not empty, not [.] or [..], without a
    separator. *)
Definition properb (n : string) : bool :=
  negb (String.eqb n "") && negb (String.eqb n ".") && negb (String.eqb n "..")
  && negb (strings.ContainsByte n "/").

Definition proper (n : string) : Prop := properb n = true.

(** The elements [els], each after a separator. *)
Fixpoint joinPath (els : list string) : string :=
  match els with
  | [] => ""
  | e :: els' => String "/" (e +:+ joinPath els')
  end.

(** The absolute path in clean form of the names [xs]. *)
Definition pathOf (xs : list string) : string :=
  match xs with
  | [] => "/"
  | _ => joinPath xs
  end.

(** An element that [Clean] drops. *)
Definition skippedb (e : string) : bool := String.eqb e "" || String.eqb e ".".

Definition bytesOf (s : string) : list ascii := String.list_ascii_of_string s.

(** The path of the names [ns] from the directory they start in. *)
Definition relOf (ns : list string) : string :=
  match ns with
  | [] => "."
  | n :: ns' => n +:+ joinPath ns'
  end.

(** The bytes that [Clean] has written after the names [ys], the last
    byte first: of a rooted path, or of a relative one. *)
Definition buffer (rooted : bool) (ys : list string) : list ascii :=
  rev (bytesOf (if rooted then pathOf ys else strings.drop 1 (joinPath ys))).

(** The node below [n] that the names [ns] lead to, through directories
    that can be read. *)
Fixpoint nodeAt (ns : list string) (n : os.Node) : option os.Node :=
  match ns with
  | [] => Some n
  | name :: ns' =>
    match n with
    | os.Dir true entries =>
      match os.lookupEntry name entries with
      | Some child => nodeAt ns' child
      | None => None
      end
    | _ => None
    end
  end.

(** The path walk of the kernel, element by element. *)
Fixpoint descend (ns : list string) (stack : list os.Node) : Errno + list os.Node :=
  match ns with
  | [] => inr stack
  | name :: ns' =>
    match os.step name stack with
    | inl e => inl e
    | inr stack' => descend ns' stack'
    end
  end.

Fixpoint uniqueNames (names : list string) : bool :=
  match names with
  | [] => true
  | n :: rest => negb (existsb (String.eqb n) rest) && uniqueNames rest
  end.

(** A tree whose directories hold entries of distinct names, each a file
    name: not empty, not [.] or [..], without a separator. *)
Fixpoint wellNamed (n : os.Node) : bool :=
  match n with
  | os.File _ _ => true
  | os.Dir _ entries =>
    forallb properb (map fst entries) && uniqueNames (map fst entries)
    && forallb (fun e => wellNamed (snd e)) entries
  end.

(** The base directory in clean form: the absolute path of the names
    [xs], or the relative path of the names [bs], from the working
    directory of the names [wds]. *)
Inductive Base :=
| AbsBase (xs : list string)
| RelBase (wds bs : list string).

Definition basedAt (fs : os.OS) (s : MCPServer) (b : Base) : Prop :=
  match b with
  | AbsBase xs => baseDir s = pathOf xs /\ Forall proper xs
  | RelBase wds bs =>
    os.Getwd fs = Ok (pathOf wds) /\ baseDir s = relOf bs
    /\ Forall proper wds /\ Forall proper bs
  end.

(** The names from the root of the file system to the base directory. *)
Definition baseNames (b : Base) : list string :=
  match b with
  | AbsBase xs => xs
  | RelBase wds bs => wds ++ bs
  end.

(** The path that the walk gives the node at the names [ns] below the
    base directory. *)
Definition walkPath (b : Base) (ns : list string) : string :=
  match b with
  | AbsBase xs => pathOf (xs ++ ns)
  | RelBase _ bs => relOf (bs ++ ns)
  end.

(** The first line of a listing of the names [ns] below the base
    directory. *)
Definition headerBelow (b : Base) (ns : list string) : string :=
  match b with
  | AbsBase _ =>
    match ns with
    | [] => "Contents of base directory:" +:+ nl
    | _ => "Contents of " +:+ relOf ns +:+ ":" +:+ nl
    end
  | RelBase _ _ => "Contents of :" +:+ nl
  end.

(** A file of the walk: its path is that of the names that lead to it
    from the base directory. *)
Definition fileBelow (b : Base) (n : os.Node) (v : Visit) : Prop :=
  match v with
  | VisitFile path _ =>
    exists ns readable data,
      path = walkPath b ns
      /\ Forall proper ns
      /\ nodeAt ns n = Some (os.File readable data)
  | VisitUnreadable _ => True
  end.

(** What [resources/read] answers for the URI of the resource [r]: the
    file at the absolute path of the URI, with the MIME type of [r]. *)
Definition readBack (fs : os.OS) (s : MCPServer) (id : any) (w : World) (r : Resource)
  : Prop :=
  exists path absPath,
    Resource_URI r = "file://" +:+ path
    /\ filepath.Abs (os.Getwd fs) path = Ok absPath
    /\ match os.ReadFile fs absPath with
       | Ok content =>
         handleReadResource fs s id {| ReadResourceParams_URI := Resource_URI r |} w
         = (None, after w [resourceResponse id (Resource_URI r) (Resource_MimeType r) content]
                        [LogReadingResource (Resource_URI r);
                         LogSuccessfullyRead absPath (String.length content)])
       | Err e =>
         e = PathError "open" absPath EACCES
         /\ handleReadResource fs s id {| ReadResourceParams_URI := Resource_URI r |} w
            = (None, after w [errorResponse id (-32603)
                                            ("Failed to read file: " +:+ errText e)]
                           [LogReadingResource (Resource_URI r)])
       end.

(** What [read_file] answers for the relative path [rel]: the file at
    the absolute path of [rel] below the base directory. *)
Definition readFileBack (fs : os.OS) (s : MCPServer) (id : any) (w : World) (rel : string)
  : Prop :=
  exists absPath,
    filepath.Abs (os.Getwd fs) (filepath.Join [baseDir s; rel]) = Ok absPath
    /\ match os.ReadFile fs absPath with
       | Ok content =>
         handleReadFileTool fs s id {["path" := Str rel]} w
         = (None, after w [toolResponse id ("Contents of " +:+ rel +:+ ":" +:+ nl +:+ content)
                                        false] [])
       | Err e =>
         e = PathError "open" absPath EACCES
         /\ handleReadFileTool fs s id {["path" := Str rel]} w
            = (None, after w [toolResponse id ("Failed to read file: " +:+ errText e) true] [])
       end.

(** * Evaluation of the library models *)

Example Clean_examples :
  filepath.Clean "/a/b/../bc" = "/a/bc"
  /\ filepath.Clean "a//b/./c/.." = "a/b"
  /\ filepath.Clean "../../x/.." = "../.."
  /\ filepath.Clean "/../a/" = "/a"
  /\ filepath.Clean "/" = "/"
  /\ filepath.Clean "./" = "."
  /\ filepath.Clean "a/.." = "."
  /\ filepath.Clean "a/../../b" = "../b"
  /\ filepath.Clean "/a/b/../../../c" = "/c"
  /\ filepath.Join ["/srv/data"; "../data-other/x"] = "/srv/data-other/x"
  /\ filepath.Join [""; "a"] = "a"
  /\ filepath.Ext "/a/b.c/d.tar.gz" = ".gz"
  /\ filepath.Ext "/a/b.c/d" = ""
  /\ filepath.Ext "/a/.profile" = ".profile"
  /\ filepath.Ext "a." = ".".
Proof. vm_compute. repeat split. Qed.

Example Rel_examples :
  filepath.Rel "/a/b" "/a/b/c/d.txt" = Ok "c/d.txt"
  /\ filepath.Rel "." "x/y" = Ok "x/y"
  /\ filepath.Rel "/a/b" "/a/b" = Ok "."
  /\ filepath.Rel "/a/b" "/a/bc" = Ok "../bc"
  /\ filepath.Rel "/a/b/c" "/a" = Ok "../.."
  /\ filepath.Rel "/" "/a" = Ok "a"
  /\ filepath.Rel ".." "../a" = Ok "a"
  /\ filepath.Rel "a" "/a" = Err (filepath.relError "a" "/a").
Proof. vm_compute. repeat split. Qed.

Example Match_examples :
  filepath.Match "*.txt" "a.txt" = Ok true
  /\ filepath.Match "*.txt" "a.md" = Ok false
  /\ filepath.Match "a?c*" "abcdef" = Ok true
  /\ filepath.Match "[a-c]x" "bx" = Ok true
  /\ filepath.Match "[^a-c]x" "bx" = Ok false
  /\ filepath.Match "*x*y" "axbxcy" = Ok true
  /\ filepath.Match "a\*b" "a*b" = Ok true
  /\ filepath.Match "*" "a/b" = Ok false
  /\ filepath.Match "" "" = Ok true
  /\ filepath.Match "[" "a" = Err ErrBadPattern
  /\ filepath.Match "a[" "b" = Err ErrBadPattern
  /\ filepath.Match "[]a]" "]" = Err ErrBadPattern
  /\ filepath.Match "a\" "b" = Err ErrBadPattern
  /\ filepath.Match "x*[" "y" = Err ErrBadPattern.
Proof. vm_compute. repeat split. Qed.

Example parse_examples :
  json.parse (jsonText "{'jsonrpc':'2.0','id':1,'method':'tools/list'}")
  = Ok (json.JObject [("jsonrpc", json.JString "2.0"); ("id", json.JNumber "1");
                      ("method", json.JString "tools/list")])
  /\ json.parse (jsonText " [1.5e3, true , null, 'a\nAé', {}, []] ")
     = Ok (json.JArray [json.JNumber "1.5e3"; json.JBool true; json.JNull;
                        json.JString (String "a" (String "010" "Aé"));
                        json.JObject []; json.JArray []])
  /\ json.parse (jsonText "{not json") = Err SyntaxError
  /\ json.parse (jsonText "{'a':1,}") = Err SyntaxError
  /\ json.parse "01" = Err SyntaxError
  /\ json.parse "1." = Err SyntaxError
  /\ json.parse "-" = Err SyntaxError
  /\ json.parse "1e" = Err SyntaxError
  /\ json.parse "{} x" = Err SyntaxError
  /\ json.parse "" = Err SyntaxError.
Proof. vm_compute. repeat split. Qed.

Example getMimeType_examples :
  getMimeType ".json" = "application/json"
  /\ getMimeType ".md" = "text/plain"
  /\ getMimeType ".bin" = "application/octet-stream"
  /\ getMimeType ".HTML" = "text/html"
  /\ getMimeType "" = "application/octet-stream".
Proof. vm_compute. repeat split. Qed.

(** A session on the example file system: a request with a number id, a
    notification that carries an id, a line that is no JSON, an empty line,
    an unknown method with a string id. *)
Example Run_session :
  stdout (snd (Run exampleFS exampleServer
                   (jsonText <$>
                      ["{'jsonrpc':'2.0','id':1,'method':'resources/read','params':{'uri':'file:///srv/data/a.txt'}}";
                       "{'jsonrpc':'2.0','id':2,'method':'notifications/initialized'}";
                       "{'jsonrpc':'2.0','id':3";
                       "";
                       "{'jsonrpc':'2.0','id':'four','method':'foo/bar'}"])
                   None emptyWorld))
  = [resourceResponse (Float64 "1") "file:///srv/data/a.txt" "text/plain" "alpha";
     errorResponse (Str "four") (-32601) "Method not found: foo/bar"].
Proof. vm_compute. reflexivity. Qed.

(** * The errors of [Match] and [Rel] *)

Lemma getEsc_error chunk e : filepath.getEsc chunk = Err e -> e = ErrBadPattern.
Proof. unfold filepath.getEsc. intros H. repeat case_match; by simplify_eq. Qed.

Lemma classLoop_error fuel : forall chunk r matched nrange e,
  filepath.classLoop fuel chunk r matched nrange = Err e -> e = ErrBadPattern.
Proof.
  induction fuel as [| fuel IH]; simpl; intros chunk r matched nrange e H.
  - by simplify_eq.
  - repeat case_match; simplify_eq; eauto using getEsc_error.
Qed.

Lemma matchChunkLoop_error fuel : forall chunk s failed e,
  filepath.matchChunkLoop fuel chunk s failed = Err e -> e = ErrBadPattern.
Proof.
  induction fuel as [| fuel IH]; simpl; intros chunk s failed e H.
  - by simplify_eq.
  - repeat case_match; simplify_eq; eauto using classLoop_error, getEsc_error.
Qed.

Lemma matchChunk_error chunk s e : filepath.matchChunk chunk s = Err e -> e = ErrBadPattern.
Proof. apply matchChunkLoop_error. Qed.

Lemma starLoop_error chunk lastChunk : forall name e,
  filepath.starLoop chunk name lastChunk = Err e -> e = ErrBadPattern.
Proof.
  induction name as [| c name IH]; simpl; intros e H.
  - by simplify_eq.
  - repeat case_match; simplify_eq; eauto using matchChunk_error.
Qed.

Lemma checkRest_error fuel : forall pattern e,
  filepath.checkRest fuel pattern = Err e -> e = ErrBadPattern.
Proof.
  induction fuel as [| fuel IH]; simpl; intros pattern e H.
  - by simplify_eq.
  - repeat case_match; simplify_eq; eauto using matchChunk_error.
Qed.

Lemma matchLoop_error fuel : forall pattern name e,
  filepath.matchLoop fuel pattern name = Err e -> e = ErrBadPattern.
Proof.
  induction fuel as [| fuel IH]; simpl; intros pattern name e H.
  - by simplify_eq.
  - repeat case_match; simplify_eq;
      eauto using matchChunk_error, starLoop_error, checkRest_error.
Qed.

(** The only error of [Match] is [ErrBadPattern]. *)
Lemma Match_error pattern name e : filepath.Match pattern name = Err e -> e = ErrBadPattern.
Proof. apply matchLoop_error. Qed.

Lemma Rel_error basepath targpath e :
  filepath.Rel basepath targpath = Err e -> e = filepath.relError basepath targpath.
Proof. unfold filepath.Rel. intros H. repeat case_match; by simplify_eq. Qed.

(** * The walk of [search_files] *)

#[local] Arguments filepath.Join : simpl never.
#[local] Arguments filepath.Match : simpl never.
#[local] Arguments filepath.Rel : simpl never.
#[local] Arguments filepath.Abs : simpl never.

(** Induction on a tree: the property holds of a directory when it holds
    of the nodes of its entries. *)
Lemma Node_ind' (P : os.Node -> Prop) :
  (forall readable data, P (os.File readable data)) ->
  (forall readable entries,
      Forall (fun e => P (snd e)) entries -> P (os.Dir readable entries)) ->
  forall n, P n.
Proof.
  intros Hfile Hdir.
  exact (fix go (n : os.Node) : P n :=
           match n with
           | os.File readable data => Hfile readable data
           | os.Dir readable entries =>
             Hdir readable entries
                  ((fix all (es : list (string * os.Node))
                    : Forall (fun e => P (snd e)) es :=
                      match es with
                      | [] => List.Forall_nil _
                      | (name1, n1) :: es' =>
                        @List.Forall_cons _ (fun e => P (snd e)) (name1, n1) es'
                                          (go n1) (all es')
                      end) entries)
           end).
Qed.

Lemma searchSpec_app s pattern vs1 vs2 :
  searchSpec s pattern (vs1 ++ vs2)
  = match searchSpec s pattern vs1 with
    | Err e => Err e
    | Ok l1 =>
      match searchSpec s pattern vs2 with
      | Ok l2 => Ok (l1 ++ l2)
      | Err e => Err e
      end
    end.
Proof.
  induction vs1 as [| [path name | path] vs1 IH]; simpl.
  - by destruct (searchSpec s pattern vs2).
  - rewrite IH.
    destruct (filepath.Match pattern name) as [[] |]; [| | done].
    + destruct (filepath.Rel (baseDir s) path); [| done].
      destruct (searchSpec s pattern vs1); [| done].
      destruct (searchSpec s pattern vs2); [| done]. by rewrite app_assoc.
    + destruct (searchSpec s pattern vs1); [| done].
      by destruct (searchSpec s pattern vs2).
  - done.
Qed.

Lemma searchSpec_ordinary s pattern vs e :
  searchSpec s pattern vs = Err e -> ordinary e.
Proof.
  induction vs as [| [path name | path] vs IH]; simpl; intros H.
  - done.
  - destruct (filepath.Match pattern name) as [matched | e'] eqn:Hm.
    + destruct matched.
      * destruct (filepath.Rel (baseDir s) path) eqn:Hr.
        -- destruct (searchSpec s pattern vs); simplify_eq. by apply IH.
        -- simplify_eq. by rewrite (Rel_error _ _ _ Hr).
      * destruct (searchSpec s pattern vs); simplify_eq. by apply IH.
    + simplify_eq. by rewrite (Match_error _ _ _ Hm).
  - by simplify_eq.
Qed.

Lemma walkDir_search s pattern n :
  forall path name ms,
    searchResult (searchSpec s pattern (visits path name n)) ms
                 (walk.walkDir (searchFilesFn s pattern) path name n ms).
Proof.
  induction n as [readable data | readable entries IH] using Node_ind';
    intros path name ms.
  - (* a regular file *)
    simpl. destruct (filepath.Match pattern name) as [[] | e] eqn:Hm; simpl.
    + destruct (filepath.Rel (baseDir s) path); simpl; [done |].
      by rewrite andb_false_r.
    + by rewrite app_nil_r.
    + by rewrite andb_false_r.
  - destruct readable; [| done].
    (* a directory: its entries in turn *)
    simpl. revert ms.
    induction IH as [| [name1 n1] entries Hn1 _ IHentries]; intros ms.
    + simpl. by rewrite app_nil_r.
    + rewrite searchSpec_app. simpl in Hn1.
      specialize (Hn1 (filepath.Join [path; name1]) name1 ms).
      destruct (searchSpec s pattern (visits (filepath.Join [path; name1]) name1 n1))
        as [l1 | e] eqn:H1; simpl in Hn1.
      * rewrite Hn1. specialize (IHentries (ms ++ l1)).
        match goal with
        | |- context [searchSpec s pattern ?vs] =>
          destruct (searchSpec s pattern vs) as [l2 | e] eqn:H2
        end; simpl in *.
        -- by rewrite IHentries, app_assoc.
        -- done.
      * destruct (walk.walkDir _ _ _ n1 ms) as [[err |] ms'] eqn:Hw; simplify_eq/=.
        destruct (searchSpec_ordinary _ _ _ _ H1) as [Hskip _].
        by destruct e.
Qed.

(** The walk of [handleSearchFilesTool] gives what the specification's
    search gives. *)
Lemma WalkDir_search fs s pattern :
  match searchOutcome fs s pattern with
  | Ok l => walk.WalkDir (searchFilesFn s pattern) fs (baseDir s) [] = (None, l)
  | Err e => exists ms, walk.WalkDir (searchFilesFn s pattern) fs (baseDir s) [] = (Some e, ms)
  end.
Proof.
  unfold searchOutcome, walk.WalkDir.
  destruct (os.resolve fs (baseDir s)) as [errno | n]; simpl.
  - by eexists.
  - pose proof (walkDir_search s pattern n (baseDir s) (os.basename (baseDir s)) []) as H.
    destruct (searchSpec s pattern _) as [l | e] eqn:Hs; simpl in H.
    + by rewrite H.
    + destruct (walk.walkDir _ _ _ n []) as [[err |] ms'] eqn:Hw; simplify_eq/=.
      destruct (searchSpec_ordinary _ _ _ _ Hs) as [Hskip Hall].
      exists ms'. by destruct e.
Qed.

(** * The output of the handlers *)

Lemma sendError_eq id code message w :
  sendError id code message w = (None, after w [errorResponse id code message] []).
Proof. unfold sendError, sendMessage, bind, Println, ret, after; simpl. by rewrite app_nil_r. Qed.

Lemma sendResult_eq id result w :
  sendResult id result w = (None, after w [resultResponse id result] []).
Proof. unfold sendResult, sendMessage, bind, Println, ret, after; simpl. by rewrite app_nil_r. Qed.

Lemma sendToolResult_eq id text isError w :
  sendToolResult id text isError w = (None, after w [toolResponse id text isError] []).
Proof. unfold sendToolResult. apply sendResult_eq. Qed.

Lemma logPrintf_eq e w : logPrintf e w = (tt, after w [] [e]).
Proof. unfold logPrintf, after; simpl. by rewrite app_nil_r. Qed.

Lemma after_after w ms1 ls1 ms2 ls2 :
  after (after w ms1 ls1) ms2 ls2 = after w (ms1 ++ ms2) (ls1 ++ ls2).
Proof. unfold after; simpl. by rewrite !app_assoc. Qed.

Lemma after_nil w : after w [] [] = w.
Proof. destruct w. unfold after; simpl. by rewrite !app_nil_r. Qed.

Lemma wellFormed_errorResponse id code message :
  wellFormedResponse (errorResponse id code message).
Proof. split; [done | right; split; [done | by eexists]]. Qed.

Lemma wellFormed_resultResponse id result :
  wellFormedResponse (resultResponse id result).
Proof. split; [done | left; split; [by eexists | done]]. Qed.

Lemma writes_ret {A} (r : A) : writes (ret r) r [] [].
Proof. intros w. by rewrite after_nil. Qed.

Lemma writes_bind {A B} (a : IO A) (k : A -> IO B) r ms ls r' ms' ls' :
  writes a r ms ls -> writes (k r) r' ms' ls' ->
  writes (bind a k) r' (ms ++ ms') (ls ++ ls').
Proof. intros Ha Hk w. unfold bind. by rewrite Ha, Hk, after_after. Qed.

Lemma writes_logPrintf e : writes (logPrintf e) tt [] [e].
Proof. intros w. apply logPrintf_eq. Qed.

Lemma writes_log {A} e (a : IO A) r ms ls :
  writes a r ms ls -> writes (logPrintf e ;; a) r ms (e :: ls).
Proof. intros Ha. exact (writes_bind _ _ _ _ _ _ _ _ (writes_logPrintf e) Ha). Qed.

Lemma writes_sendError id code message :
  writes (sendError id code message) None [errorResponse id code message] [].
Proof. intros w. apply sendError_eq. Qed.

Lemma writes_sendResult id result :
  writes (sendResult id result) None [resultResponse id result] [].
Proof. intros w. apply sendResult_eq. Qed.

Lemma writes_sendToolResult id text isError :
  writes (sendToolResult id text isError) None [toolResponse id text isError] [].
Proof. intros w. apply sendToolResult_eq. Qed.

Lemma answers_sendError id code message : answers id (sendError id code message).
Proof.
  exists (errorResponse id code message), [].
  auto using writes_sendError, wellFormed_errorResponse.
Qed.

Lemma answers_sendResult id result : answers id (sendResult id result).
Proof.
  exists (resultResponse id result), [].
  auto using writes_sendResult, wellFormed_resultResponse.
Qed.

Lemma answers_sendToolResult id text isError : answers id (sendToolResult id text isError).
Proof. apply answers_sendResult. Qed.

Lemma answers_log id e a : answers id a -> answers id (logPrintf e ;; a).
Proof.
  intros (m & logs & Ha & Hid & Hwf). exists m, (e :: logs).
  auto using writes_log.
Qed.

Create HintDb answers.
#[local] Hint Resolve answers_sendError answers_sendResult answers_sendToolResult
  answers_log : answers.

Ltac answers_cases :=
  repeat first
    [ solve [auto with answers]
    | apply answers_log
    | match goal with
      | |- answers _ (match ?x with _ => _ end) => destruct x eqn:?
      | |- answers _ (if ?x then _ else _) => destruct x eqn:?
      | |- answers _ (let '(_, _) := ?x in _) => destruct x eqn:?
      end ].

Lemma answers_handleInitialize id params : answers id (handleInitialize id params).
Proof. unfold handleInitialize. answers_cases. Qed.

Lemma answers_handleListResources fs s id : answers id (handleListResources fs s id).
Proof. unfold handleListResources. answers_cases. Qed.

Lemma answers_handleReadResource fs s id params :
  answers id (handleReadResource fs s id params).
Proof. unfold handleReadResource. answers_cases. Qed.

Lemma answers_handleListTools id : answers id (handleListTools id).
Proof. unfold handleListTools. answers_cases. Qed.

Lemma answers_handleReadFileTool fs s id args : answers id (handleReadFileTool fs s id args).
Proof. unfold handleReadFileTool. answers_cases. Qed.

Lemma answers_handleListDirectoryTool fs s id args :
  answers id (handleListDirectoryTool fs s id args).
Proof. unfold handleListDirectoryTool. answers_cases. Qed.

Lemma answers_handleSearchFilesTool fs s id args :
  answers id (handleSearchFilesTool fs s id args).
Proof. unfold handleSearchFilesTool. answers_cases. Qed.

#[local] Hint Resolve answers_handleInitialize answers_handleListResources
  answers_handleReadResource answers_handleListTools answers_handleReadFileTool
  answers_handleListDirectoryTool answers_handleSearchFilesTool : answers.

Lemma answers_handleCallTool fs s id params : answers id (handleCallTool fs s id params).
Proof. unfold handleCallTool. answers_cases. Qed.

#[local] Hint Resolve answers_handleCallTool : answers.

(** The dispatcher answers every message once, the notification apart,
    for which it only logs. *)
Lemma handleMessage_cases fs s msg :
  (Method msg = "notifications/initialized"
   /\ writes (handleMessage fs s msg) None [] [LogReceivedInitialized])
  \/ (Method msg <> "notifications/initialized"
      /\ answers (ID msg) (handleMessage fs s msg)).
Proof.
  unfold handleMessage.
  destruct (String.eqb_spec (Method msg) "notifications/initialized") as [Hn | Hn].
  - left. split; [done |]. rewrite Hn. simpl.
    change [LogReceivedInitialized] with ([LogReceivedInitialized] ++ []).
    change (@nil JSONRPCMessage) with (@nil JSONRPCMessage ++ []).
    eapply writes_bind; [apply writes_logPrintf | apply writes_ret].
  - right. split; [done |].
    destruct (String.eqb (Method msg) "initialize"); [answers_cases |].
    answers_cases.
Qed.

(** What the dispatcher writes for one message: at most one response,
    which carries the message's id and is well formed. *)
Lemma handleMessage_writes fs s msg :
  exists msgs logs,
    writes (handleMessage fs s msg) None msgs logs
    /\ Forall (fun m => ID m = ID msg /\ wellFormedResponse m) msgs.
Proof.
  destruct (handleMessage_cases fs s msg) as [[_ H] | [_ (m & logs & H & Hid & Hwf)]].
  - by exists [], [LogReceivedInitialized].
  - exists [m], logs. split; [done |]. by constructor.
Qed.


(** The empty line is no JSON text. *)
Lemma UnmarshalMessage_nonempty line msg : UnmarshalMessage line = Ok msg -> line <> "".
Proof. intros Hmsg ->. by vm_compute in Hmsg. Qed.

(** One line that decodes to [msg]: the loop logs it, dispatches it and
    goes on. *)
Lemma scanLoop_decoded fs s line msg rest msgs logs w :
  UnmarshalMessage line = Ok msg ->
  writes (handleMessage fs s msg) None msgs logs ->
  scanLoop fs s (line :: rest) w
  = scanLoop fs s rest (after w msgs (LogReceived line :: logs)).
Proof.
  intros Hmsg Hh.
  pose proof (UnmarshalMessage_nonempty _ _ Hmsg) as Hne.
  simpl. destruct (String.eqb_spec line ""); [done |].
  unfold bind at 1. rewrite logPrintf_eq, Hmsg.
  unfold bind at 1. rewrite Hh, after_after. unfold bind at 1. by unfold ret.
Qed.

(** One line that does not decode: the loop logs it, and goes on. *)
Lemma scanLoop_undecoded fs s line err rest w :
  line <> "" ->
  UnmarshalMessage line = Err err ->
  scanLoop fs s (line :: rest) w
  = scanLoop fs s rest (after w [] [LogReceived line; LogInvalidJSON err]).
Proof.
  intros Hne Hmsg.
  simpl. destruct (String.eqb_spec line ""); [done |].
  unfold bind at 1. rewrite logPrintf_eq, Hmsg.
  unfold bind at 1. by rewrite logPrintf_eq, after_after.
Qed.

Lemma scanLoop_writes fs s lines :
  exists msgs logs,
    writes (scanLoop fs s lines) tt msgs logs /\ Forall wellFormedResponse msgs.
Proof.
  induction lines as [| line rest (ms2 & ls2 & IH & Hall2)].
  - exists [], []. split; [apply writes_ret | done].
  - destruct (String.eqb_spec line "") as [-> | Hne].
    { exists ms2, ls2. split; [| done]. intros w. simpl. apply IH. }
    destruct (UnmarshalMessage line) as [msg | err] eqn:Hmsg.
    + destruct (handleMessage_writes fs s msg) as (ms & ls & Hh & Hall).
      exists (ms ++ ms2), ((LogReceived line :: ls) ++ ls2). split.
      * intros w. rewrite (scanLoop_decoded _ _ _ _ _ _ _ _ Hmsg Hh).
        by rewrite IH, after_after.
      * apply Forall_app. split; [| done].
        eapply Forall_impl; [exact Hall |]. by intros ? [_ ?].
    + exists ms2, ([LogReceived line; LogInvalidJSON err] ++ ls2). split; [| done].
      intros w. rewrite (scanLoop_undecoded _ _ _ _ _ _ Hne Hmsg).
      by rewrite IH, after_after.
Qed.


(** * The sandbox check, the MIME table *)

#[local] Arguments strings.HasPrefix : simpl nomatch.

Lemma HasPrefix_app s p q :
  strings.HasPrefix s (p +:+ q) = true -> strings.HasPrefix s p = true.
Proof.
  revert s. induction p as [| c p IH]; intros s H; [by destruct s |].
  destruct s as [| c' s]; simpl in *; [done |].
  apply andb_true_iff in H as [-> H]. simpl. by apply IH.
Qed.

Lemma HasPrefix_refl s : strings.HasPrefix s s = true.
Proof. induction s as [| c s IH]; simpl; [done |]. by rewrite Ascii.eqb_refl. Qed.

(** The code's prefix test accepts every target that the containment of
    the specification accepts; the converse fails (claim C1). *)
Lemma contained_HasPrefix root target :
  contained root target = true -> strings.HasPrefix target root = true.
Proof.
  unfold contained. intros [Heq | Hpre]%orb_true_iff.
  - apply String.eqb_eq in Heq as ->. apply HasPrefix_refl.
  - destruct (String.eqb root "/"); [done |]. by eapply HasPrefix_app.
Qed.

Lemma getMimeType_table ext : getMimeType ext = lookupMime (strings.ToLower ext).
Proof.
  unfold getMimeType, lookupMime. generalize (strings.ToLower ext) as e. intros e.
  simpl. repeat (destruct (String.eqb e _); [reflexivity |]). reflexivity.
Qed.


(** The pattern [[] is malformed: [Match] reports it on every name. *)
Lemma matchChunkLoop_open_bracket fuel s failed :
  filepath.matchChunkLoop (S fuel) "[" s failed = Err ErrBadPattern.
Proof.
  cbn [filepath.matchChunkLoop]. change (Ascii.eqb "[" "[") with true. cbv iota.
  match goal with
  | |- (let '(_, _) := ?x in _) = _ => by destruct x as [r s1]
  end.
Qed.

Lemma matchChunk_open_bracket s : filepath.matchChunk "[" s = Err ErrBadPattern.
Proof. apply matchChunkLoop_open_bracket. Qed.

Lemma Match_open_bracket name : filepath.Match "[" name = Err ErrBadPattern.
Proof.
  unfold filepath.Match. cbn [String.length filepath.matchLoop].
  change (filepath.scanChunk "[") with (false, "[", "").
  cbn [String.eqb Ascii.eqb andb]. cbv iota. by rewrite matchChunk_open_bracket.
Qed.

(** * The claims *)

(** C4 — Notification silence.  A line whose envelope has the method
    [notifications/initialized] makes the server write nothing on standard
    output, whatever id the envelope carries: the dispatcher only logs, and
    the loop goes on with the next line. *)
Theorem C4_notification_silence fs s line msg rest w :
  UnmarshalMessage line = Ok msg ->
  Method msg = "notifications/initialized" ->
  handleMessage fs s msg w = (None, after w [] [LogReceivedInitialized])
  /\ scanLoop fs s (line :: rest) w
     = scanLoop fs s rest (after w [] [LogReceived line; LogReceivedInitialized]).
Proof.
  intros Hmsg Hmethod.
  destruct (handleMessage_cases fs s msg) as [[_ H] | [Hne _]]; [| done].
  split; [apply H |]. exact (scanLoop_decoded _ _ _ _ _ _ _ _ Hmsg H).
Qed.

Lemma C4_notification_silence_witness :
  let line := jsonText "{'jsonrpc':'2.0','id':7,'method':'notifications/initialized'}" in
  let msg := {| JSONRPC := "2.0"; ID := Float64 "7"; Method := "notifications/initialized";
                Params := Nil; Result := None; Error := None |} in
  UnmarshalMessage line = Ok msg
  /\ handleMessage exampleFS exampleServer msg emptyWorld
     = (None, after emptyWorld [] [LogReceivedInitialized])
  /\ scanLoop exampleFS exampleServer [line] emptyWorld
     = scanLoop exampleFS exampleServer []
                (after emptyWorld [] [LogReceived line; LogReceivedInitialized]).
Proof.
  intros line msg.
  split; [vm_compute; reflexivity |].
  apply (C4_notification_silence exampleFS exampleServer line msg [] emptyWorld);
    vm_compute; reflexivity.
Defined.

(** C5 (as amended) — A non-empty line that is not valid JSON is
    discarded: the server logs the line and the parse error on the side
    channel, writes no response, and goes on with the next line. *)
Theorem C5_invalid_json_line fs s line err rest w :
  line <> "" ->
  json.parse line = Err err ->
  UnmarshalMessage line = Err err
  /\ scanLoop fs s (line :: rest) w
     = scanLoop fs s rest (after w [] [LogReceived line; LogInvalidJSON err]).
Proof.
  intros Hne Hparse.
  assert (UnmarshalMessage line = Err err) as Hmsg
      by (unfold UnmarshalMessage; by rewrite Hparse).
  split; [done |]. by apply scanLoop_undecoded.
Qed.

Lemma C5_invalid_json_line_witness :
  let line := "{not json" in
  line <> ""
  /\ json.parse line = Err SyntaxError
  /\ UnmarshalMessage line = Err SyntaxError
  /\ scanLoop exampleFS exampleServer [line; jsonText "{'id':1,'method':'tools/list'}"]
              emptyWorld
     = scanLoop exampleFS exampleServer [jsonText "{'id':1,'method':'tools/list'}"]
                (after emptyWorld [] [LogReceived line; LogInvalidJSON SyntaxError]).
Proof.
  intros line.
  split; [discriminate |]. split; [vm_compute; reflexivity |].
  apply (C5_invalid_json_line exampleFS exampleServer line SyntaxError
                              [jsonText "{'id':1,'method':'tools/list'}"] emptyWorld);
    [discriminate | vm_compute; reflexivity].
Defined.

(** C5, the claim as stated, fails on the empty line: it is not a JSON
    text, and the server skips it without a log entry. *)
Lemma C5_counterexample_empty_line :
  json.parse "" = Err SyntaxError
  /\ Run exampleFS exampleServer [""] None emptyWorld
     = (None, after emptyWorld [] [LogStarting "/srv/data"; LogReady])
  /\ (LogReceived "" ∉ stderr (snd (Run exampleFS exampleServer [""] None emptyWorld)))
  /\ (LogInvalidJSON SyntaxError
      ∉ stderr (snd (Run exampleFS exampleServer [""] None emptyWorld))).
Proof.
  assert (Run exampleFS exampleServer [""] None emptyWorld
          = (None, after emptyWorld [] [LogStarting "/srv/data"; LogReady])) as Hrun
      by (vm_compute; reflexivity).
  split; [vm_compute; reflexivity |]. split; [exact Hrun |].
  rewrite Hrun. simpl.
  split; (repeat (apply not_elem_of_cons; split; [discriminate |]));
    apply not_elem_of_nil.
Qed.



(** C9 — Response envelope invariant.  Every message that a run of the
    server writes on standard output carries the protocol tag 2.0 and
    exactly one of [result] and [error]. *)
Theorem C9_response_envelope_invariant fs s lines scanErr :
  Forall wellFormedResponse (stdout (snd (Run fs s lines scanErr emptyWorld))).
Proof.
  destruct (scanLoop_writes fs s lines) as (msgs & logs & Hw & Hall).
  unfold Run.
  unfold bind at 1. rewrite logPrintf_eq. unfold bind at 1. rewrite logPrintf_eq.
  unfold bind at 1. rewrite Hw.
  by destruct scanErr.
Qed.

(** C10 — Absent parameters.  When the envelope has no [params] (or a
    null one), [mustMarshal] gives the empty object, which decodes without
    error into the zero value of each parameter struct; the dispatcher then
    calls the handler on that zero value, for [initialize], [resources/read]
    and [tools/call] alike, instead of answering with a decode error. *)
Theorem C10_absent_params fs s msg :
  Params msg = Nil ->
  mustMarshal (Params msg) = JObject []
  /\ UnmarshalInitializeParams (JObject []) = Ok zeroInitializeParams
  /\ UnmarshalReadResourceParams (JObject []) = Ok zeroReadResourceParams
  /\ UnmarshalCallToolParams (JObject []) = Ok zeroCallToolParams
  /\ (Method msg = "initialize" ->
      handleMessage fs s msg = handleInitialize (ID msg) zeroInitializeParams)
  /\ (Method msg = "resources/read" ->
      handleMessage fs s msg = handleReadResource fs s (ID msg) zeroReadResourceParams)
  /\ (Method msg = "tools/call" ->
      handleMessage fs s msg = handleCallTool fs s (ID msg) zeroCallToolParams).
Proof.
  intros Hp. unfold handleMessage. rewrite Hp.
  repeat split; try reflexivity; intros ->; reflexivity.
Qed.

Lemma C10_absent_params_witness :
  let msg := {| JSONRPC := "2.0"; ID := Float64 "1"; Method := "initialize";
                Params := Nil; Result := None; Error := None |} in
  UnmarshalMessage (jsonText "{'jsonrpc':'2.0','id':1,'method':'initialize','params':null}")
  = Ok msg
  /\ Params msg = Nil
  /\ handleMessage exampleFS exampleServer msg
     = handleInitialize (Float64 "1") zeroInitializeParams.
Proof.
  intros msg.
  split; [vm_compute; reflexivity |]. split; [reflexivity |].
  apply (C10_absent_params exampleFS exampleServer msg); reflexivity.
Defined.

(** C3 (as amended) — A [tools/call] whose tool name is none of
    [read_file], [list_directory], [search_files] is answered with a
    protocol-level error envelope: code -32601, message [Tool not found:]
    and the name, the request's id, and no result; it is not a tool call
    failure. *)
Theorem C3_unknown_tool fs s id params w :
  CallToolParams_Name params ∉ toolNames ->
  let m := errorResponse id (-32601) ("Tool not found: " +:+ CallToolParams_Name params) in
  handleCallTool fs s id params w
  = (None, after w [m] [LogCallingTool (CallToolParams_Name params) (Arguments params)])
  /\ isProtocolError (-32601) m
  /\ ~ isToolFailure m.
Proof.
  intros Hname m. split; [| split].
  - unfold handleCallTool, toolNames in *.
    apply (writes_log _ _ None [m] []).
    repeat match goal with
           | |- context [String.eqb (CallToolParams_Name params) ?c] =>
             destruct (String.eqb_spec (CallToolParams_Name params) c) as [He | _];
               [exfalso; apply Hname; rewrite He; set_solver |]
           end.
    apply writes_sendError.
  - split; [done |]. by eexists.
  - by intros [H _].
Qed.

Lemma C3_unknown_tool_witness :
  let params := {| CallToolParams_Name := "delete_file"; Arguments := ∅ |} in
  let m := errorResponse (Float64 "1") (-32601) "Tool not found: delete_file" in
  ("delete_file" ∉ toolNames)
  /\ handleCallTool exampleFS exampleServer (Float64 "1") params emptyWorld
     = (None, after emptyWorld [m] [LogCallingTool "delete_file" ∅])
  /\ isProtocolError (-32601) m
  /\ ~ isToolFailure m.
Proof.
  intros params m.
  assert ("delete_file" ∉ toolNames) as Hname by compute_done.
  split; [exact Hname |].
  exact (C3_unknown_tool exampleFS exampleServer (Float64 "1") params emptyWorld Hname).
Defined.

(** C3, the claim as stated, fails: the answer to an unknown tool is not
    a successful envelope with an error-flagged ToolResult. *)
Lemma C3_counterexample_unknown_tool :
  ~ exists m,
      stdout (snd (handleCallTool exampleFS exampleServer (Float64 "1")
                                  {| CallToolParams_Name := "delete_file"; Arguments := ∅ |}
                                  emptyWorld)) = [m]
      /\ isToolFailure m.
Proof.
  intros (m & Hm & Hfail & _). vm_compute in Hm.
  injection Hm as <-. discriminate Hfail.
Qed.

(** C2 (as amended) — [read_file] with a string [path].  When the
    sandbox check denies the path (its absolute form does not start with
    the absolute base directory), the answer is the protocol-level error
    -32602 [Access denied: file outside allowed directory].  When the check
    accepts the path and the file does not exist, the answer is a successful
    envelope with a ToolResult flagged [isError] whose text is [File not
    found:] and the path as the caller gave it. *)
Theorem C2_read_file_errors fs s id args path absPath absBaseDir w :
  args !! "path" = Some (Str path) ->
  filepath.Abs (os.Getwd fs) (filepath.Join [baseDir s; path]) = Ok absPath ->
  filepath.Abs (os.Getwd fs) (baseDir s) = Ok absBaseDir ->
  (strings.HasPrefix absPath absBaseDir = false ->
   handleReadFileTool fs s id args w
   = (None, after w [errorResponse id (-32602)
                                   "Access denied: file outside allowed directory"] []))
  /\ (strings.HasPrefix absPath absBaseDir = true ->
      forall err, os.ReadFile fs absPath = Err err -> IsNotExist err = true ->
      handleReadFileTool fs s id args w
      = (None, after w [toolResponse id ("File not found: " +:+ path) true] [])
        /\ isToolFailure (toolResponse id ("File not found: " +:+ path) true)).
Proof.
  intros Hargs Habs Hbase. unfold handleReadFileTool. rewrite Hargs, Habs, Hbase.
  split.
  - intros ->. apply sendError_eq.
  - intros -> err -> ->. split; [apply sendToolResult_eq |].
    split; [done |]. by eexists.
Qed.

Lemma C2_read_file_errors_witness :
  let args : gmap string any := {["path" := Str "missing.txt"]} in
  args !! "path" = Some (Str "missing.txt")
  /\ handleReadFileTool exampleFS exampleServer (Float64 "1") args emptyWorld
     = (None, after emptyWorld
                    [toolResponse (Float64 "1") "File not found: missing.txt" true] []).
Proof.
  intros args. split; [reflexivity |].
  refine (proj1 (proj2 (C2_read_file_errors exampleFS exampleServer (Float64 "1") args
                          "missing.txt" "/srv/data/missing.txt" "/srv/data" emptyWorld
                          _ _ _) _ (PathError "open" "/srv/data/missing.txt" ENOENT) _ _));
    vm_compute; reflexivity.
Defined.

(** C2, the claim as stated, fails for a path outside the root: the
    answer is not a successful envelope with an error-flagged ToolResult. *)
Lemma C2_counterexample_outside_path :
  ~ exists m,
      stdout (snd (handleReadFileTool exampleFS exampleServer (Float64 "1")
                                      {["path" := Str "../../outside.txt"]} emptyWorld))
      = [m]
      /\ isToolFailure m.
Proof.
  intros (m & Hm & Hfail & _). vm_compute in Hm.
  injection Hm as <-. discriminate Hfail.
Qed.



(** C1 — Sandbox soundness fails in the code: the check is a prefix test
    on strings, so a sibling of the base directory whose name continues the
    base directory's name is accepted, by [read_file], by [resources/read]
    and by [list_directory], although the containment of the specification
    rejects it. *)
Theorem C1_sibling_prefix_accepted :
  let id := Float64 "1" in
  contained "/a/b" "/a/bc" = false
  /\ strings.HasPrefix "/a/bc" "/a/b" = true
  /\ contained "/srv/data" "/srv/data-other/secret.txt" = false
  /\ filepath.Abs (os.Getwd exampleFS)
                  (filepath.Join [baseDir exampleServer; "../data-other/secret.txt"])
     = Ok "/srv/data-other/secret.txt"
  /\ handleReadFileTool exampleFS exampleServer id
                        {["path" := Str "../data-other/secret.txt"]} emptyWorld
     = (None, after emptyWorld
                    [toolResponse id ("Contents of ../data-other/secret.txt:" +:+ nl +:+ "secret")
                                  false] [])
  /\ handleReadResource exampleFS exampleServer id
                        {| ReadResourceParams_URI := "file:///srv/data-other/secret.txt" |}
                        emptyWorld
     = (None, after emptyWorld
                    [resourceResponse id "file:///srv/data-other/secret.txt" "text/plain"
                                      "secret"]
                    [LogReadingResource "file:///srv/data-other/secret.txt";
                     LogSuccessfullyRead "/srv/data-other/secret.txt" 6])
  /\ handleListDirectoryTool exampleFS exampleServer id
                             {["path" := Str "../data-other"]} emptyWorld
     = (None, after emptyWorld
                    [toolResponse id ("Contents of ../data-other:" +:+ nl
                                      +:+ "ðŸ“„ secret.txt (6 bytes)" +:+ nl) false] []).
Proof. vm_compute. repeat split. Qed.

(** C7 (as amended) — [search_files] with a string [pattern].  The tool
    walks the tree below the base directory and runs [Match] on the base
    name of each regular file.  The walk ends at the first error: a
    directory that cannot be read, or a malformed pattern, which only shows
    when [Match] runs on a file; the error is answered as a ToolResult
    flagged [isError].  Otherwise the answer is a ToolResult without the flag
    that lists the matching files' paths relative to the base directory, in
    the order of the walk, or says that no file matches; this also is the
    answer to a malformed pattern when the tree holds no regular file. *)
Theorem C7_search_files fs s id args pattern w :
  args !! "pattern" = Some (Str pattern) ->
  handleSearchFilesTool fs s id args w
  = (None, after w [match searchOutcome fs s pattern with
                    | Ok matches => toolResponse id (searchText pattern matches) false
                    | Err e => toolResponse id ("Search failed: " +:+ errText e) true
                    end] [])
  /\ searchText pattern []
     = ("Files matching pattern '" +:+ pattern +:+ "':" +:+ nl)
       +:+ "No files found matching the pattern."
  /\ (forall n path name rest e,
         os.resolve fs (baseDir s) = inr n ->
         visits (baseDir s) (os.basename (baseDir s)) n = VisitFile path name :: rest ->
         filepath.Match pattern name = Err e ->
         searchOutcome fs s pattern = Err e)
  /\ (forall n,
         os.resolve fs (baseDir s) = inr n ->
         visits (baseDir s) (os.basename (baseDir s)) n = [] ->
         searchOutcome fs s pattern = Ok []).
Proof.
  intros Hargs. split; [| split; [done | split]].
  - unfold handleSearchFilesTool. rewrite Hargs.
    pose proof (WalkDir_search fs s pattern) as Hwalk.
    destruct (searchOutcome fs s pattern) as [matches | e].
    + rewrite Hwalk. rewrite sendToolResult_eq. unfold searchText.
      by destruct matches.
    + destruct Hwalk as [ms ->]. apply sendToolResult_eq.
  - intros n path name rest e Hn Hvisits Hmatch.
    unfold searchOutcome. rewrite Hn, Hvisits. simpl. by rewrite Hmatch.
  - intros n Hn Hvisits. unfold searchOutcome. by rewrite Hn, Hvisits.
Qed.

Lemma C7_search_files_witness :
  let id := Float64 "5" in
  let args (pattern : string) : gmap string any := {["pattern" := Str pattern]} in
  args "*.txt" !! "pattern" = Some (Str "*.txt")
  /\ handleSearchFilesTool exampleFS exampleServer id (args "*.txt") emptyWorld
     = (None, after emptyWorld
                    [toolResponse id ("Files matching pattern '*.txt':" +:+ nl
                                      +:+ "ðŸ“„ a.txt" +:+ nl +:+ "ðŸ“„ b.txt" +:+ nl) false] [])
  /\ handleSearchFilesTool exampleFS exampleServer id (args "*.csv") emptyWorld
     = (None, after emptyWorld
                    [toolResponse id ("Files matching pattern '*.csv':" +:+ nl
                                      +:+ "No files found matching the pattern.") false] [])
  /\ handleSearchFilesTool exampleFS exampleServer id (args "[") emptyWorld
     = (None, after emptyWorld
                    [toolResponse id "Search failed: syntax error in pattern" true] []).
Proof.
  intros id args. split; [reflexivity |].
  pose proof (fun pattern H =>
                proj1 (C7_search_files exampleFS exampleServer id (args pattern) pattern
                                       emptyWorld H)) as C7.
  split; [| split].
  - rewrite (C7 "*.txt"); [| reflexivity]. vm_compute; reflexivity.
  - rewrite (C7 "*.csv"); [| reflexivity]. vm_compute; reflexivity.
  - rewrite (C7 "["); [| reflexivity]. vm_compute; reflexivity.
Defined.

(** C7, the claim as stated, fails: on a tree without a regular file, a
    malformed pattern (one that [Match] reports on every name) is answered
    with the message that no file matches, without the error flag. *)
Lemma C7_counterexample_malformed_pattern :
  let m := toolResponse (Float64 "5")
                        (("Files matching pattern '[':" +:+ nl)
                         +:+ "No files found matching the pattern.") false in
  (forall name, filepath.Match "[" name = Err ErrBadPattern)
  /\ handleSearchFilesTool exampleFS emptyServer (Float64 "5")
                           {["pattern" := Str "["]} emptyWorld
     = (None, after emptyWorld [m] [])
  /\ ~ isToolFailure m.
Proof.
  intros m. split; [apply Match_open_bracket |]. split; [vm_compute; reflexivity |].
  intros (_ & r & Hr & Herr). injection Hr as <-. discriminate Herr.
Qed.

(** * Further properties of the server *)

(** ** The loop of [Run], line by line *)

Lemma writes_stdout {A} (a : IO A) r msgs logs :
  writes a r msgs logs -> stdout (snd (a emptyWorld)) = msgs.
Proof. intros H. by rewrite H. Qed.

Lemma respond_decoded fs s line msg msgs logs :
  UnmarshalMessage line = Ok msg ->
  writes (handleMessage fs s msg) None msgs logs ->
  respond fs s line = msgs.
Proof.
  intros Hmsg Hh. unfold respond.
  destruct (String.eqb_spec line "") as [-> | _]; [by vm_compute in Hmsg |].
  rewrite Hmsg. by eapply writes_stdout.
Qed.

Lemma respond_undecoded fs s line err :
  UnmarshalMessage line = Err err -> respond fs s line = [].
Proof. intros Hmsg. unfold respond. rewrite Hmsg. by destruct (String.eqb line ""). Qed.

Lemma scanLoop_respond fs s lines :
  exists logs, writes (scanLoop fs s lines) tt (concat (respond fs s <$> lines)) logs.
Proof.
  induction lines as [| line rest [ls2 IH]].
  - exists []. apply writes_ret.
  - destruct (String.eqb_spec line "") as [-> | Hne].
    { exists ls2. intros w. simpl. apply IH. }
    destruct (UnmarshalMessage line) as [msg | err] eqn:Hmsg.
    + destruct (handleMessage_writes fs s msg) as (ms & ls & Hh & _).
      exists ((LogReceived line :: ls) ++ ls2). intros w.
      rewrite (scanLoop_decoded _ _ _ _ _ _ _ _ Hmsg Hh), IH, after_after.
      by rewrite fmap_cons, (respond_decoded _ _ _ _ _ _ Hmsg Hh).
    + exists ([LogReceived line; LogInvalidJSON err] ++ ls2). intros w.
      rewrite (scanLoop_undecoded _ _ _ _ _ _ Hne Hmsg), IH, after_after.
      rewrite fmap_cons, (respond_undecoded _ _ _ _ Hmsg). done.
Qed.

Lemma Run_stdout fs s lines scanErr :
  stdout (snd (Run fs s lines scanErr emptyWorld)) = concat (respond fs s <$> lines).
Proof.
  destruct (scanLoop_respond fs s lines) as [logs Hw]. unfold Run.
  unfold bind at 1. rewrite logPrintf_eq. unfold bind at 1. rewrite logPrintf_eq.
  unfold bind at 1. rewrite Hw. by destruct scanErr.
Qed.

(** X1 — The server is stateless and answers in order: what a run writes
    on standard output is, line after line, what it writes for each line
    taken alone; so the output for an input in two parts is the output for
    the first part followed by the output for the second. *)
Theorem X1_run_line_by_line fs s lines lines' scanErr :
  stdout (snd (Run fs s lines scanErr emptyWorld)) = concat (respond fs s <$> lines)
  /\ stdout (snd (Run fs s (lines ++ lines') scanErr emptyWorld))
     = stdout (snd (Run fs s lines None emptyWorld))
       ++ stdout (snd (Run fs s lines' None emptyWorld)).
Proof.
  split; [apply Run_stdout |].
  by rewrite !Run_stdout, fmap_app, concat_app.
Qed.

(** X2 — One line, at most one response: the server writes exactly one
    message for a line, except for the empty line, a line that does not
    decode and the notification, for which it writes none. *)
Theorem X2_one_response_or_none fs s line :
  (silent line -> respond fs s line = [])
  /\ (~ silent line -> exists m, respond fs s line = [m]).
Proof.
  split.
  - intros [-> | [[e He] | (msg & Hmsg & Hn)]].
    + reflexivity.
    + by eapply respond_undecoded.
    + destruct (handleMessage_cases fs s msg) as [[_ H] | [Hne _]]; [| done].
      exact (respond_decoded _ _ _ _ _ _ Hmsg H).
  - intros Hloud.
    destruct (UnmarshalMessage line) as [msg | err] eqn:Hmsg.
    + destruct (handleMessage_cases fs s msg) as [[Hn _] | [_ (m & logs & H & _)]].
      * exfalso. apply Hloud. right. right. by exists msg.
      * exists m. exact (respond_decoded _ _ _ _ _ _ Hmsg H).
    + exfalso. apply Hloud. right. left. by exists err.
Qed.

Lemma X2_one_response_or_none_witness :
  let ping := jsonText "{'jsonrpc':'2.0','id':9,'method':'tools/list'}" in
  silent "{oops"
  /\ respond exampleFS exampleServer "{oops" = []
  /\ ~ silent ping
  /\ exists m, respond exampleFS exampleServer ping = [m].
Proof.
  intros ping.
  assert (silent "{oops") as Hs by (right; left; exists SyntaxError; vm_compute; reflexivity).
  assert (~ silent ping) as Hl.
  { intros [H | [[e H] | (msg & H & Hn)]]; vm_compute in H; [discriminate.. |].
    injection H as <-. discriminate Hn. }
  split; [exact Hs |].
  split; [exact (proj1 (X2_one_response_or_none exampleFS exampleServer "{oops") Hs) |].
  split; [exact Hl |].
  exact (proj2 (X2_one_response_or_none exampleFS exampleServer ping) Hl).
Defined.

(** ** The shape of the responses *)

Lemma responds_sendError (P : JSONRPCMessage -> Prop) id code message :
  P (errorResponse id code message) -> responds P (sendError id code message).
Proof. intros HP. exists (errorResponse id code message), []. auto using writes_sendError. Qed.

Lemma responds_sendResult (P : JSONRPCMessage -> Prop) id result :
  P (resultResponse id result) -> responds P (sendResult id result).
Proof. intros HP. exists (resultResponse id result), []. auto using writes_sendResult. Qed.

Lemma responds_sendToolResult (P : JSONRPCMessage -> Prop) id text isError :
  P (toolResponse id text isError) -> responds P (sendToolResult id text isError).
Proof. apply responds_sendResult. Qed.

Lemma responds_log (P : JSONRPCMessage -> Prop) e a :
  responds P a -> responds P (logPrintf e ;; a).
Proof. intros (m & logs & Ha & HP). exists m, (e :: logs). auto using writes_log. Qed.

(** Every path of a handler ends in one of the three [send] functions;
    [solve_P] proves the property of the message sent. *)
Ltac responds_cases solve_P :=
  repeat first
    [ match goal with H : _ |- _ => solve [apply H] end
    | apply responds_log
    | apply responds_sendError; solve_P
    | apply responds_sendToolResult; solve_P
    | apply responds_sendResult; solve_P
    | match goal with
      | |- responds _ (match ?x with _ => _ end) => destruct x eqn:?
      | |- responds _ (if ?x then _ else _) => destruct x eqn:?
      | |- responds _ (let '(_, _) := ?x in _) => destruct x eqn:?
      end ].






(** ** The MIME types *)

(** X4 — [getMimeType] gives one of seven MIME types, and it gives
    [application/octet-stream] exactly for the extensions that, in lower
    case, are not in the table. *)
Theorem X4_getMimeType_range ext :
  getMimeType ext ∈ mimeTypes
  /\ (getMimeType ext = "application/octet-stream"
      <-> strings.ToLower ext ∉ (fst <$> mimeTable)).
Proof.
  rewrite getMimeType_table. generalize (strings.ToLower ext) as e. intros e.
  unfold lookupMime.
  destruct (find _ mimeTable) as [entry |] eqn:Hfind.
  - apply find_some in Hfind as [Hin Heq]. apply String.eqb_eq in Heq. subst e.
    apply list_elem_of_In in Hin. unfold mimeTable, mimeTypes in *.
    repeat (apply elem_of_cons in Hin as [-> | Hin];
            [split; [set_solver | split; [done | intros H; exfalso; apply H; set_solver]] |]).
    by apply elem_of_nil in Hin.
  - split; [unfold mimeTypes; set_solver |]. split; [| done].
    intros _ Hin. apply list_elem_of_fmap in Hin as ([k v] & -> & Hin).
    eapply find_none in Hfind; [| by apply list_elem_of_In].
    simpl in Hfind. by rewrite String.eqb_refl in Hfind.
Qed.

(** ** The parameters of a request *)

(** X5 — Parameters of the wrong JSON type.  When [params] is a string,
    a number, a boolean or an array, the three methods that decode
    parameters answer -32602 with their own message, and the handler does
    not run (nothing is logged). *)
Theorem X5_params_not_object fs s msg w :
  notObject (Params msg) ->
  (Method msg = "initialize" ->
   handleMessage fs s msg w
   = (None, after w [errorResponse (ID msg) (-32602) "Invalid initialize parameters"] []))
  /\ (Method msg = "resources/read" ->
      handleMessage fs s msg w
      = (None, after w [errorResponse (ID msg) (-32602) "Invalid read resource parameters"]
                     []))
  /\ (Method msg = "tools/call" ->
      handleMessage fs s msg w
      = (None, after w [errorResponse (ID msg) (-32602) "Invalid call tool parameters"] [])).
Proof.
  intros Hp. unfold handleMessage.
  destruct (Params msg) eqn:Hparams; try done;
    (repeat split; intros ->; apply sendError_eq).
Qed.

Lemma X5_params_not_object_witness :
  let line := jsonText "{'jsonrpc':'2.0','id':4,'method':'tools/call','params':['read_file']}" in
  let msg := {| JSONRPC := "2.0"; ID := Float64 "4"; Method := "tools/call";
                Params := Slice [Str "read_file"]; Result := None; Error := None |} in
  UnmarshalMessage line = Ok msg
  /\ notObject (Params msg)
  /\ handleMessage exampleFS exampleServer msg emptyWorld
     = (None, after emptyWorld
                    [errorResponse (Float64 "4") (-32602) "Invalid call tool parameters"] []).
Proof.
  intros line msg. split; [vm_compute; reflexivity |]. split; [exact I |].
  exact (proj2 (proj2 (X5_params_not_object exampleFS exampleServer msg emptyWorld I))
               eq_refl).
Defined.

Lemma elem_of_sortedMembers {V} (m : gmap string V) k v :
  (k, v) ∈ sortedMembers m <-> m !! k = Some v.
Proof. unfold sortedMembers. rewrite merge_sort_Permutation. apply elem_of_map_to_list. Qed.

Lemma fieldOf_other field k :
  k <> field -> EqualFold k field = false -> fieldOf [field] k = None.
Proof.
  intros Hne Hfold. unfold fieldOf. simpl.
  destruct (String.eqb_spec k field); [done |]. by rewrite Hfold.
Qed.

Lemma fieldOf_same field : fieldOf [field] field = Some field.
Proof. unfold fieldOf. simpl. by rewrite String.eqb_refl. Qed.

(** The fold of [decodeStruct] for [ReadResourceParams], over members
    whose only key that names the field [uri] is [uri] itself, with the
    string [u]. *)
Lemma decode_uri_members u (members : list (string * Value)) : forall x,
  (forall k v, (k, v) ∈ members ->
               (k = "uri" /\ v = JString u) \/ fieldOf ["uri"] k = None) ->
  fold_left
    (fun acc kv =>
       match acc with
       | Err e => Err e
       | Ok p =>
         match fieldOf ["uri"] (fst kv) with
         | Some _ =>
           match decodeString (snd kv) (ReadResourceParams_URI p) with
           | Ok y => Ok {| ReadResourceParams_URI := y |}
           | Err e => Err e
           end
         | None => Ok p
         end
       end)
    members (Ok {| ReadResourceParams_URI := x |})
  = Ok {| ReadResourceParams_URI :=
            if existsb (fun kv => String.eqb (fst kv) "uri") members then u else x |}.
Proof.
  induction members as [| [k v] members IH]; intros x Hall; [done |].
  cbn [fold_left existsb fst snd].
  destruct (Hall k v) as [[-> ->] | Hskip]; [by left | |].
  - rewrite fieldOf_same. cbn [decodeString ReadResourceParams_URI].
    rewrite IH; [| intros; apply Hall; by right].
    rewrite String.eqb_refl. simpl. by destruct (existsb _ members).
  - rewrite Hskip. rewrite IH; [| intros; apply Hall; by right].
    destruct (String.eqb_spec k "uri") as [-> | _]; [| done].
    by rewrite fieldOf_same in Hskip.
Qed.

(** X6 — [resources/read] with a [uri].  When [params] is an object whose
    [uri] is a string, and no other key of it equals [uri] up to the case of
    letters, the dispatcher calls [handleReadResource] with that URI: the
    other members of the object are ignored. *)
Theorem X6_read_resource_params fs s msg (m : gmap string any) u :
  Method msg = "resources/read" ->
  Params msg = Map m ->
  m !! "uri" = Some (Str u) ->
  map_Forall (fun k _ => k <> "uri" -> EqualFold k "uri" = false) m ->
  UnmarshalReadResourceParams (mustMarshal (Params msg))
  = Ok {| ReadResourceParams_URI := u |}
  /\ handleMessage fs s msg
     = handleReadResource fs s (ID msg) {| ReadResourceParams_URI := u |}.
Proof.
  intros Hmethod Hparams Huri Hkeys.
  assert (UnmarshalReadResourceParams (mustMarshal (Params msg))
          = Ok {| ReadResourceParams_URI := u |}) as Hdecode.
  { rewrite Hparams. unfold UnmarshalReadResourceParams, mustMarshal, decodeStruct.
    cbn [Marshal]. unfold zeroReadResourceParams.
    rewrite (decode_uri_members u).
    - assert (existsb (fun kv : string * Value => String.eqb (fst kv) "uri")
                      (sortedMembers (Marshal <$> m)) = true) as ->; [| done].
      apply existsb_exists. exists ("uri", JString u). split; [| done].
      apply list_elem_of_In, elem_of_sortedMembers. by rewrite lookup_fmap, Huri.
    - intros k v [x [<- Hx]]%elem_of_sortedMembers%lookup_fmap_Some.
      destruct (decide (k = "uri")) as [-> | Hne].
      + left. rewrite Huri in Hx. by simplify_eq.
      + right. apply fieldOf_other; [done |]. by eapply Hkeys. }
  split; [done |].
  unfold handleMessage. rewrite Hmethod. cbn [String.eqb Ascii.eqb Bool.eqb].
  by rewrite Hdecode.
Qed.

Lemma X6_read_resource_params_witness :
  let m : gmap string any :=
    <["uri" := Str "file:///srv/data/a.txt"]> (<["cursor" := Float64 "7"]> ∅) in
  let msg := {| JSONRPC := "2.0"; ID := Str "r1"; Method := "resources/read";
                Params := Map m; Result := None; Error := None |} in
  m !! "uri" = Some (Str "file:///srv/data/a.txt")
  /\ map_Forall (fun k _ => k <> "uri" -> EqualFold k "uri" = false) m
  /\ handleMessage exampleFS exampleServer msg
     = handleReadResource exampleFS exampleServer (Str "r1")
                          {| ReadResourceParams_URI := "file:///srv/data/a.txt" |}.
Proof.
  intros m msg.
  assert (map_Forall (fun k _ => k <> "uri" -> EqualFold k "uri" = false) m) as Hkeys.
  { intros k v [[<- _] | [_ [[<- _] | [_ H]]%lookup_insert_Some]]%lookup_insert_Some;
      [done | reflexivity | by rewrite lookup_empty in H]. }
  split; [reflexivity |]. split; [exact Hkeys |].
  exact (proj2 (X6_read_resource_params exampleFS exampleServer msg m
                  "file:///srv/data/a.txt" eq_refl eq_refl eq_refl Hkeys)).
Defined.

(** ** The tools *)

(** X7 — The schemas and the handlers agree on the arguments.  For every
    tool that [tools/list] gives: a call without a key that its schema
    lists under [required] is answered -32602 [Missing required argument];
    a call with a key of its [properties] whose value is not a string is
    answered -32602 [must be string].  Neither answer depends on the file
    system. *)
Theorem X7_tool_arguments fs s id t k (args : gmap string any) w :
  t ∈ tools ->
  let params := {| CallToolParams_Name := Tool_Name t; Arguments := args |} in
  (k ∈ required t -> args !! k = None ->
   handleCallTool fs s id params w
   = (None, after w [errorResponse id (-32602) ("Missing required argument: " +:+ k)]
                  [LogCallingTool (Tool_Name t) args]))
  /\ (k ∈ properties t -> forall v, args !! k = Some v -> notString v ->
      handleCallTool fs s id params w
      = (None, after w [errorResponse id (-32602)
                                      ("Invalid " +:+ k +:+ " argument: must be string")]
                     [LogCallingTool (Tool_Name t) args])).
Proof.
  intros Ht params. subst params. unfold tools in Ht.
  repeat (apply elem_of_cons in Ht as [-> | Ht]); [| | | by apply elem_of_nil in Ht];
    (split;
     [ intros Hk Hargs; vm_compute in Hk
     | intros Hk v Hargs Hv; vm_compute in Hk ];
     repeat (apply elem_of_cons in Hk as [-> | Hk]); try (by apply elem_of_nil in Hk);
     unfold handleCallTool; cbn [CallToolParams_Name Arguments String.eqb Ascii.eqb Bool.eqb];
     apply (writes_log _ _ None [_] []);
     unfold handleReadFileTool, handleListDirectoryTool, handleSearchFilesTool;
     rewrite Hargs; try (destruct v; try done); apply writes_sendError).
Qed.

Lemma X7_tool_arguments_witness :
  let t := {| Tool_Name := "search_files";
              Tool_Description := "Search for files by name pattern";
              InputSchema :=
                schema [("pattern", "The filename pattern to search for (supports wildcards)")]
                       ["pattern"] |} in
  t ∈ tools
  /\ "pattern" ∈ required t
  /\ handleCallTool exampleFS exampleServer (Float64 "1")
                    {| CallToolParams_Name := "search_files";
                       Arguments := {["path" := Str "x"]} |} emptyWorld
     = (None, after emptyWorld
                    [errorResponse (Float64 "1") (-32602) "Missing required argument: pattern"]
                    [LogCallingTool "search_files" {["path" := Str "x"]}]).
Proof.
  intros t.
  assert (t ∈ tools) as Ht by (unfold tools; repeat constructor).
  assert ("pattern" ∈ required t) as Hk by (vm_compute; constructor).
  split; [exact Ht |]. split; [exact Hk |].
  exact (proj1 (X7_tool_arguments exampleFS exampleServer (Float64 "1") t "pattern"
                                  {["path" := Str "x"]} emptyWorld Ht) Hk eq_refl).
Defined.

Lemma tool_not_found_free fs s id params :
  CallToolParams_Name params ∈ (Tool_Name <$> tools) ->
  responds (fun m => ~ isProtocolError (-32601) m) (handleCallTool fs s id params).
Proof.
  intros Hname. unfold handleCallTool.
  unfold handleReadFileTool, handleListDirectoryTool, handleSearchFilesTool.
  responds_cases ltac:(intros [_ (? & ? & ?)]; simpl in *; by simplify_eq).
  exfalso. unfold tools in Hname. simpl in Hname.
  repeat match goal with H : String.eqb _ _ = false |- _ => apply String.eqb_neq in H end.
  repeat (apply elem_of_cons in Hname as [Hname | Hname]; [done |]).
  by apply elem_of_nil in Hname.
Qed.

(** X8 — The tools that [tools/list] gives are the tools that
    [tools/call] knows: a call is answered with the error -32601 exactly
    when its name is not the name of a listed tool. *)
Theorem X8_advertised_tools fs s id params :
  exists m logs,
    writes (handleCallTool fs s id params) None [m] logs
    /\ (isProtocolError (-32601) m
        <-> CallToolParams_Name params ∉ (Tool_Name <$> tools)).
Proof.
  destruct (decide (CallToolParams_Name params ∈ (Tool_Name <$> tools))) as [Hin | Hout].
  - destruct (tool_not_found_free fs s id params Hin) as (m & logs & Hw & Hm).
    exists m, logs. split; [done |]. split; [done |]. by intros Hout.
  - exists (errorResponse id (-32601) ("Tool not found: " +:+ CallToolParams_Name params)),
           [LogCallingTool (CallToolParams_Name params) (Arguments params)].
    split.
    + unfold handleCallTool. apply (writes_log _ _ None [_] []).
      repeat match goal with
             | |- context [String.eqb (CallToolParams_Name params) ?c] =>
               destruct (String.eqb_spec (CallToolParams_Name params) c) as [He | _];
                 [exfalso; apply Hout; rewrite He; vm_compute; repeat constructor |]
             end.
      apply writes_sendError.
    + split; [done |]. intros _. split; [done |]. by eexists.
Qed.



(** X10 — [list_directory].  Without a [path] the tool lists the base
    directory, with a string [path] the base directory joined with it.  A
    directory that the check denies is answered -32602.  A directory that
    does not exist is answered with the error flag and [Directory not
    found:] followed by the joined path (not the path as the caller gave
    it); any other failure, such as a regular file, with the error flag and
    the text of the error.  Otherwise the answer, without the flag, is a
    header line and one line for each entry, in the order of [os.ReadDir]. *)
Theorem X10_list_directory fs s id (args : gmap string any) targetDir absPath absBaseDir w :
  listTarget s args = Some targetDir ->
  filepath.Abs (os.Getwd fs) targetDir = Ok absPath ->
  filepath.Abs (os.Getwd fs) (baseDir s) = Ok absBaseDir ->
  (strings.HasPrefix absPath absBaseDir = false ->
   handleListDirectoryTool fs s id args w
   = (None, after w [errorResponse id (-32602)
                                   "Access denied: directory outside allowed path"] []))
  /\ (strings.HasPrefix absPath absBaseDir = true ->
      (forall err,
          os.ReadDir fs absPath = Err err -> IsNotExist err = true ->
          handleListDirectoryTool fs s id args w
          = (None, after w [toolResponse id ("Directory not found: " +:+ targetDir) true] []))
      /\ (forall err,
             os.ReadDir fs absPath = Err err -> IsNotExist err = false ->
             handleListDirectoryTool fs s id args w
             = (None, after w [toolResponse id ("Failed to list directory: " +:+ errText err)
                                            true] []))
      /\ (forall entries,
             os.ReadDir fs absPath = Ok entries ->
             handleListDirectoryTool fs s id args w
             = (None, after w [toolResponse id
                                 (listHeader s absPath
                                  +:+ String.concat "" (entryLine <$> entries)) false] []))).
Proof.
  intros Htarget Habs Hbase. unfold handleListDirectoryTool, listTarget in *.
  assert (match args !! "path" with
          | Some (Str path) => Ok (filepath.Join [baseDir s; path])
          | Some _ => Err (ErrorString "Invalid path argument: must be string")
          | None => Ok (baseDir s)
          end = Ok targetDir) as ->.
  { destruct (args !! "path") as [[] |]; by simplify_eq. }
  rewrite Habs, Hbase. split.
  - intros ->. apply sendError_eq.
  - intros ->. simpl negb. cbv iota. split; [| split].
    + intros err -> ->. apply sendToolResult_eq.
    + intros err -> ->. apply sendToolResult_eq.
    + intros entries ->. apply sendToolResult_eq.
Qed.

Lemma X10_list_directory_witness :
  let id := Float64 "3" in
  listTarget exampleServer ∅ = Some "/srv/data"
  /\ handleListDirectoryTool exampleFS exampleServer id ∅ emptyWorld
     = (None, after emptyWorld
                    [toolResponse id
                       ("Contents of base directory:" +:+ nl
                        +:+ "ðŸ“„ a.md (7 bytes)" +:+ nl
                        +:+ "ðŸ“„ a.txt (5 bytes)" +:+ nl
                        +:+ "ðŸ“„ b.txt (4 bytes)" +:+ nl
                        +:+ "ðŸ“ d/" +:+ nl
                        +:+ "ðŸ“„ locked.bin (4 bytes)" +:+ nl) false] [])
  /\ handleListDirectoryTool exampleFS exampleServer id {["path" := Str "nope/x"]} emptyWorld
     = (None, after emptyWorld
                    [toolResponse id "Directory not found: /srv/data/nope/x" true] [])
  /\ handleListDirectoryTool exampleFS exampleServer id {["path" := Str "a.txt"]} emptyWorld
     = (None, after emptyWorld
                    [toolResponse id
                       "Failed to list directory: readdirent /srv/data/a.txt: not a directory"
                       true] []).
Proof.
  intros id. split; [reflexivity |].
  pose proof (fun args target abs H1 H2 H3 H4 =>
                proj2 (X10_list_directory exampleFS exampleServer id args target abs
                                          "/srv/data" emptyWorld H1 H2 H3) H4) as X.
  split; [| split].
  - etrans.
    + refine (proj2 (proj2 (X ∅ "/srv/data" "/srv/data" _ _ _ _)) _ _);
        vm_compute; reflexivity.
    + vm_compute; reflexivity.
  - refine (proj1 (X {["path" := Str "nope/x"]} "/srv/data/nope/x" "/srv/data/nope/x"
                     _ _ _ _) (PathError "open" "/srv/data/nope/x" ENOENT) _ _);
      vm_compute; reflexivity.
  - refine (proj1 (proj2 (X {["path" := Str "a.txt"]} "/srv/data/a.txt" "/srv/data/a.txt"
                            _ _ _ _)) (PathError "readdirent" "/srv/data/a.txt" ENOTDIR) _ _);
      vm_compute; reflexivity.
Defined.

(** ** The walk of [resources/list] *)

Lemma listSpec_app s vs1 vs2 :
  listSpec s (vs1 ++ vs2)
  = match listSpec s vs1 with
    | Err e => Err e
    | Ok l1 =>
      match listSpec s vs2 with
      | Ok l2 => Ok (l1 ++ l2)
      | Err e => Err e
      end
    end.
Proof.
  induction vs1 as [| [path name | path] vs1 IH]; simpl.
  - by destruct (listSpec s vs2).
  - rewrite IH. destruct (filepath.Rel (baseDir s) path); [| done].
    destruct (listSpec s vs1); [| done]. by destruct (listSpec s vs2).
  - done.
Qed.

Lemma listSpec_ordinary s vs e : listSpec s vs = Err e -> ordinary e.
Proof.
  induction vs as [| [path name | path] vs IH]; simpl; intros H.
  - done.
  - destruct (filepath.Rel (baseDir s) path) eqn:Hr.
    + destruct (listSpec s vs); simplify_eq. by apply IH.
    + simplify_eq. by rewrite (Rel_error _ _ _ Hr).
  - by simplify_eq.
Qed.

Lemma walkDir_list s n :
  forall path name rs,
    listResult (listSpec s (visits path name n)) rs
               (walk.walkDir (listResourcesFn s) path name n rs).
Proof.
  induction n as [readable data | readable entries IH] using Node_ind';
    intros path name rs.
  - simpl. destruct (filepath.Rel (baseDir s) path); simpl; [done |].
    by rewrite andb_false_r.
  - destruct readable; [| done].
    simpl. revert rs.
    induction IH as [| [name1 n1] entries Hn1 _ IHentries]; intros rs.
    + simpl. by rewrite app_nil_r.
    + rewrite listSpec_app. simpl in Hn1.
      specialize (Hn1 (filepath.Join [path; name1]) name1 rs).
      destruct (listSpec s (visits (filepath.Join [path; name1]) name1 n1))
        as [l1 | e] eqn:H1; simpl in Hn1.
      * rewrite Hn1. specialize (IHentries (rs ++ l1)).
        match goal with
        | |- context [listSpec s ?vs] => destruct (listSpec s vs) as [l2 | e] eqn:H2
        end; simpl in *.
        -- by rewrite IHentries, app_assoc.
        -- done.
      * destruct (walk.walkDir _ _ _ n1 rs) as [[err |] rs'] eqn:Hw; simplify_eq/=.
        destruct (listSpec_ordinary _ _ _ H1) as [Hskip _].
        by destruct e.
Qed.

Lemma WalkDir_list fs s :
  match listOutcome fs s with
  | Ok l => walk.WalkDir (listResourcesFn s) fs (baseDir s) [] = (None, l)
  | Err e => exists rs, walk.WalkDir (listResourcesFn s) fs (baseDir s) [] = (Some e, rs)
  end.
Proof.
  unfold listOutcome, walked, walk.WalkDir.
  destruct (os.resolve fs (baseDir s)) as [errno | n]; simpl.
  - by eexists.
  - pose proof (walkDir_list s n (baseDir s) (os.basename (baseDir s)) []) as H.
    destruct (listSpec s _) as [l | e] eqn:Hs; simpl in H.
    + by rewrite H.
    + destruct (walk.walkDir _ _ _ n []) as [[err |] rs'] eqn:Hw; simplify_eq/=.
      destruct (listSpec_ordinary _ _ _ Hs) as [Hskip Hall].
      exists rs'. by destruct e.
Qed.

Lemma getMimeType_in ext : getMimeType ext ∈ mimeTypes.
Proof.
  unfold getMimeType, mimeTypes. generalize (strings.ToLower ext) as e. intros e.
  simpl. repeat (destruct (String.eqb e _); [by repeat constructor |]).
  by repeat constructor.
Qed.

Lemma listSpec_resources s vs rs :
  listSpec s vs = Ok rs ->
  length rs = length vs
  /\ Forall (fun v => isFile v = true) vs
  /\ Forall (fun r =>
               Resource_URI r = "file://" +:+ filepath.Join [baseDir s; Resource_Name r]
               /\ Description r = "File: " +:+ Resource_Name r
               /\ Resource_MimeType r ∈ mimeTypes
               /\ Resource_Meta r = ∅) rs.
Proof.
  revert rs. induction vs as [| [path name | path] vs IH]; simpl; intros rs H.
  - by simplify_eq.
  - destruct (filepath.Rel (baseDir s) path) as [rel |]; [| done].
    destruct (listSpec s vs) as [l |]; simplify_eq.
    destruct (IH l eq_refl) as (Hlen & Hfiles & Hl). simpl.
    split; [by rewrite Hlen |]. split; [by constructor |].
    constructor; [| done]. simpl. repeat split.
    apply getMimeType_in.
  - done.
Qed.

(** X11 — [resources/list].  The walk from the base directory gives one
    resource for each regular file below it, in the order of the walk:
    its name is the path from the base directory, its URI is [file://]
    followed by the base directory joined with that name, its description
    is [File: ] and the name, its MIME type is one of the table.
    Directories give no resource.  The first error of the walk (the base
    directory cannot be reached, a directory cannot be read) is answered
    -32603 with the text of the error, and no resource is given. *)
Theorem X11_list_resources fs s id w :
  match listOutcome fs s with
  | Ok rs =>
    handleListResources fs s id w
    = (None, after w [resultResponse id (OfListResourcesResult
                                            {| ListResourcesResult_Resources := rs |})]
                   [LogListingResources (baseDir s); LogFoundResources (length rs)])
    /\ (exists vs, walked fs s = inr vs
                   /\ length rs = length vs /\ Forall (fun v => isFile v = true) vs)
    /\ Forall (fun r =>
                 Resource_URI r = "file://" +:+ filepath.Join [baseDir s; Resource_Name r]
                 /\ Description r = "File: " +:+ Resource_Name r
                 /\ Resource_MimeType r ∈ mimeTypes
                 /\ Resource_Meta r = ∅) rs
  | Err e =>
    handleListResources fs s id w
    = (None, after w [errorResponse id (-32603) ("Failed to list resources: " +:+ errText e)]
                   [LogListingResources (baseDir s); LogErrorWalking e])
  end.
Proof.
  pose proof (WalkDir_list fs s) as Hwalk. unfold handleListResources.
  destruct (listOutcome fs s) as [rs | e] eqn:Hout.
  - split.
    + unfold bind at 1. rewrite logPrintf_eq, Hwalk.
      unfold bind. rewrite logPrintf_eq, sendResult_eq.
      unfold after; simpl. by rewrite !app_nil_r, <- !app_assoc.
    + unfold listOutcome in Hout. destruct (walked fs s) as [| vs]; [done |].
      destruct (listSpec_resources _ _ _ Hout) as (Hlen & Hfiles & Hrs).
      split; [by exists vs | done].
  - destruct Hwalk as [rs Hwalk].
    unfold bind at 1. rewrite logPrintf_eq, Hwalk.
    unfold bind. rewrite logPrintf_eq, sendError_eq.
    unfold after; simpl. by rewrite !app_nil_r, <- !app_assoc.
Qed.

Lemma search_within_list s pattern vs rs :
  listSpec s vs = Ok rs ->
  match searchSpec s pattern vs with
  | Ok ms => sublist ms (Resource_Name <$> rs)
  | Err e => e = ErrBadPattern
  end.
Proof.
  revert rs. induction vs as [| [path name | path] vs IH]; simpl; intros rs H.
  - simplify_eq. constructor.
  - destruct (filepath.Rel (baseDir s) path) as [rel |]; [| done].
    destruct (listSpec s vs) as [l |]; simplify_eq.
    specialize (IH l eq_refl).
    destruct (filepath.Match pattern name) as [[] | e] eqn:Hm.
    + destruct (searchSpec s pattern vs); [| done]. simpl. by constructor.
    + destruct (searchSpec s pattern vs); [| done]. simpl. by constructor.
    + by apply Match_error in Hm.
  - done.
Qed.

Lemma search_star s vs rs :
  listSpec s vs = Ok rs -> plainNames vs ->
  searchSpec s "*" vs = Ok (Resource_Name <$> rs).
Proof.
  revert rs. induction vs as [| [path name | path] vs IH]; simpl; intros rs H Hplain.
  - by simplify_eq.
  - apply Forall_cons in Hplain as [Hname Hplain].
    change (strings.ContainsByte name filepath.Separator)
      with (strings.ContainsByte name "/").
    rewrite Hname. simpl.
    destruct (filepath.Rel (baseDir s) path) as [rel |]; [| done].
    destruct (listSpec s vs) as [l |]; simplify_eq.
    by rewrite (IH l eq_refl Hplain).
  - done.
Qed.

(** X12 — [search_files] against [resources/list].  When the listing
    succeeds, a search either fails on a malformed pattern or gives names
    of the listing, in the order of the listing; the pattern [*] gives all
    of them when no file name holds a separator. *)
Theorem X12_search_within_list fs s pattern rs :
  listOutcome fs s = Ok rs ->
  match searchOutcome fs s pattern with
  | Ok ms => sublist ms (Resource_Name <$> rs)
  | Err e => e = ErrBadPattern
  end
  /\ (forall vs, walked fs s = inr vs -> plainNames vs ->
                 searchOutcome fs s "*" = Ok (Resource_Name <$> rs)).
Proof.
  unfold listOutcome, searchOutcome, walked.
  destruct (os.resolve fs (baseDir s)) as [| n]; [done |]. intros Hlist. split.
  - by apply search_within_list.
  - intros vs ? Hplain. simplify_eq. by apply search_star.
Qed.

Lemma X12_search_within_list_witness :
  exists rs vs,
    listOutcome exampleFS exampleServer = Ok rs
    /\ walked exampleFS exampleServer = inr vs
    /\ plainNames vs
    /\ searchOutcome exampleFS exampleServer "*" = Ok (Resource_Name <$> rs).
Proof.
  eexists _, _. split; [vm_compute; reflexivity |]. split; [vm_compute; reflexivity |].
  split; [repeat constructor |].
  refine (proj2 (X12_search_within_list exampleFS exampleServer "*" _ _) _ _ _);
    [vm_compute; reflexivity | vm_compute; reflexivity | repeat constructor].
Defined.

(** ** The start of the server *)

Lemma Run_result fs s lines scanErr w :
  fst (Run fs s lines scanErr w)
  = match scanErr with
    | Some err => Some (ErrorString ("scanner error: " +:+ errText err))
    | None => None
    end.
Proof.
  unfold Run, bind. rewrite !logPrintf_eq.
  destruct (scanLoop fs s lines _) as [[] w']. by destruct scanErr.
Qed.

(** X13 — [main].  The directory served is the first argument, or [.]
    without one; further arguments are ignored.  When no file of that name
    exists the process ends at once: nothing is written to the standard
    output and no line is read.  Otherwise the server runs on that
    directory, also when the name is that of a regular file or of a
    directory that cannot be reached for another reason; the process then
    ends with a fatal error exactly when the scan of the input fails. *)
Theorem X13_main fs args lines scanErr :
  (os.resolve fs (served args) = inl ENOENT ->
   main fs args lines scanErr emptyWorld
   = (Fatal ("Directory does not exist: " +:+ served args), emptyWorld))
  /\ (os.resolve fs (served args) <> inl ENOENT ->
      stdout (snd (main fs args lines scanErr emptyWorld))
      = concat (respond fs (NewMCPServer (served args)) <$> lines)
      /\ (fst (main fs args lines scanErr emptyWorld) = Returned <-> scanErr = None)).
Proof.
  assert (match args with _ :: arg :: _ => arg | _ => "." end = served args) as Hdir.
  { unfold served. by destruct args as [| ? [| ? ?]]. }
  unfold main. rewrite Hdir. unfold Stat. split.
  - by intros ->.
  - intros Hexists.
    assert (match os.resolve fs (served args) with
            | inl e => IsNotExist (PathError "stat" (served args) e)
            | inr _ => false
            end = false) as Hstat.
    { destruct (os.resolve fs (served args)) as [[] |]; done. }
    destruct (os.resolve fs (served args)) as [e |]; simpl in Hstat |- *; rewrite ?Hstat;
      unfold bind;
      pose proof (Run_stdout fs (NewMCPServer (served args)) lines scanErr) as Hout;
      pose proof (Run_result fs (NewMCPServer (served args)) lines scanErr emptyWorld) as Hres;
      destruct (Run fs (NewMCPServer (served args)) lines scanErr emptyWorld) as [err w];
      simpl in *; subst err; destruct scanErr; simpl; (split; [done |]); split; done.
Qed.

Lemma X13_main_witness :
  main exampleFS ["server"; "/srv/nowhere"] ["{}"] None emptyWorld
  = (Fatal "Directory does not exist: /srv/nowhere", emptyWorld)
  /\ stdout (snd (main exampleFS ["server"; "/srv/data/a.txt"; "more"] ["{}"] None emptyWorld))
     = concat (respond exampleFS (NewMCPServer "/srv/data/a.txt") <$> ["{}"])
  /\ fst (main exampleFS ["server"] [] None emptyWorld) = Returned.
Proof.
  split; [| split].
  - refine (proj1 (X13_main exampleFS ["server"; "/srv/nowhere"] ["{}"] None) _).
    vm_compute; reflexivity.
  - refine (proj1 (proj2 (X13_main exampleFS ["server"; "/srv/data/a.txt"; "more"]
                                   ["{}"] None) _)).
    vm_compute; discriminate.
  - refine (proj2 (proj2 (proj2 (X13_main exampleFS ["server"] [] None) _)) eq_refl).
    vm_compute; discriminate.
Defined.

(** ** The round trip of the parameters of [tools/call] *)














(** ** The listing and the reading of resources *)

Lemma append_cons c (a b : string) : String c a +:+ b = String c (a +:+ b).
Proof. reflexivity. Qed.

Lemma append_nil_l (a : string) : "" +:+ a = a.
Proof. reflexivity. Qed.

Lemma append_assoc (a b c : string) : (a +:+ b) +:+ c = a +:+ (b +:+ c).
Proof. induction a as [| x a IH]; [done |]. rewrite !append_cons. by rewrite IH. Qed.

Lemma append_nil_r (a : string) : a +:+ "" = a.
Proof. induction a as [| x a IH]; [done |]. rewrite append_cons. by rewrite IH. Qed.

Lemma length_append (a b : string) :
  String.length (a +:+ b) = String.length a + String.length b.
Proof. induction a as [| x a IH]; [done |]. rewrite append_cons. simpl. by rewrite IH. Qed.

Lemma bytesOf_append (a b : string) : bytesOf (a +:+ b) = bytesOf a ++ bytesOf b.
Proof. induction a as [| x a IH]; [done |]. rewrite append_cons. simpl. by rewrite IH. Qed.

Lemma joinPath_app xs ys : joinPath (xs ++ ys) = joinPath xs +:+ joinPath ys.
Proof.
  induction xs as [| x xs IH]; [done |]. simpl. rewrite IH, append_cons.
  by rewrite append_assoc.
Qed.

Lemma atElementEnd_joinPath els : filepath.atElementEnd (joinPath els) = true.
Proof. by destruct els. Qed.

Lemma copyElement_append e t out :
  strings.ContainsByte e "/" = false -> filepath.atElementEnd t = true ->
  filepath.copyElement (e +:+ t) out = (t, rev (bytesOf e) ++ out).
Proof.
  revert out. induction e as [| c e IH]; intros out Hsep Hend.
  - simpl. destruct t as [| c t]; [done |]. simpl in *. by rewrite Hend.
  - simpl in Hsep. apply orb_false_elim in Hsep as [Hc Hsep]. simpl.
    unfold filepath.IsPathSeparator, filepath.Separator. rewrite Hc.
    rewrite IH by done. by rewrite <- app_assoc.
Qed.

Lemma atElementEnd_append e t :
  strings.ContainsByte e "/" = false -> filepath.atElementEnd (e +:+ t) = true -> e = "".
Proof.
  destruct e as [| c e]; [done |]. simpl. intros [Hc _]%orb_false_elim.
  unfold filepath.IsPathSeparator, filepath.Separator. by rewrite Hc.
Qed.

Lemma properb_inv e :
  properb e = true ->
  e <> "" /\ e <> "." /\ e <> ".." /\ strings.ContainsByte e "/" = false.
Proof.
  unfold properb. intros H. repeat (apply andb_prop in H as [H ?]).
  repeat match goal with
         | H : negb _ = true |- _ => apply negb_true_iff in H
         | H : String.eqb _ _ = false |- _ => apply String.eqb_neq in H
         end.
  done.
Qed.

(** The head of a proper element: a real path element for [Clean]. *)
Lemma proper_head e t :
  properb e = true -> filepath.atElementEnd t = true ->
  exists c p1,
    e +:+ t = String c p1
    /\ filepath.IsPathSeparator c = false
    /\ Ascii.eqb c "." && filepath.atElementEnd p1 = false
    /\ filepath.dotdotElement (String c p1) = None.
Proof.
  intros (Hne & Hdot & Hdotdot & Hsep)%properb_inv Hend.
  destruct e as [| c e1]; [done |]. exists c, (e1 +:+ t).
  simpl in Hsep. apply orb_false_elim in Hsep as [Hc Hsep].
  split; [done |]. split; [done |]. split.
  - destruct (Ascii.eqb_spec c "."); [| done]. subst c. simpl.
    destruct (filepath.atElementEnd (e1 +:+ t)) eqn:He; [| done].
    apply atElementEnd_append in He; [| done]. by subst e1.
  - simpl. destruct (e1 +:+ t) as [| c1 p2] eqn:Hp; [done |].
    destruct (Ascii.eqb_spec c "."); [| done]. subst c. simpl.
    destruct (Ascii.eqb_spec c1 "."); [| done]. subst c1. simpl.
    destruct (filepath.atElementEnd p2) eqn:He; [| done]. exfalso.
    destruct e1 as [| c1 e2].
    + rewrite append_nil_l in Hp. subst t. simpl in Hend. done.
    + rewrite append_cons in Hp. simplify_eq. simpl in Hsep.
      apply atElementEnd_append in He; [| done]. by subst e2.
Qed.

Lemma proper_length e : properb e = true -> 0 < String.length e.
Proof. intros (Hne & _)%properb_inv. destruct e; [done | simpl; lia]. Qed.

Lemma bytesOf_length s : length (bytesOf s) = String.length s.
Proof. induction s as [| c s IH]; [done |]. simpl. by rewrite IH. Qed.

Lemma buffer_snoc rooted ys e :
  Forall proper ys ->
  buffer rooted (ys ++ [e])
  = rev (bytesOf e)
    ++ (if (rooted && negb (length (buffer rooted ys) =? 1)%nat)
           || (negb rooted && negb (length (buffer rooted ys) =? 0)%nat)
        then filepath.Separator :: buffer rooted ys
        else buffer rooted ys).
Proof.
  intros Hys. unfold buffer. destruct ys as [| y ys].
  - destruct rooted; simpl; by rewrite append_nil_r, ?app_nil_r.
  - apply Forall_cons in Hys as [Hy _]. apply proper_length in Hy.
    assert (joinPath ((y :: ys) ++ [e]) = joinPath (y :: ys) +:+ "/" +:+ e) as Hjoin.
    { rewrite joinPath_app. simpl. by rewrite append_nil_r. }
    destruct rooted.
    + change (pathOf ((y :: ys) ++ [e])) with (joinPath ((y :: ys) ++ [e])).
      change (pathOf (y :: ys)) with (joinPath (y :: ys)). rewrite Hjoin.
      assert ((length (rev (bytesOf (joinPath (y :: ys)))) =? 1)%nat = false) as ->.
      { apply Nat.eqb_neq. rewrite length_rev, bytesOf_length. simpl.
        rewrite length_append. lia. }
      cbn [andb negb orb].
      rewrite !bytesOf_append, !rev_app_distr. simpl. by rewrite <- app_assoc.
    + rewrite Hjoin. cbn [joinPath]. rewrite append_cons. cbn [strings.drop].
      assert ((length (rev (bytesOf (y +:+ joinPath ys))) =? 0)%nat = false) as ->.
      { apply Nat.eqb_neq. rewrite length_rev, bytesOf_length, length_append. lia. }
      cbn [andb negb orb].
      rewrite !bytesOf_append, !rev_app_distr. simpl. by rewrite <- !app_assoc.
Qed.

(** The loop of [Clean] over elements without a [..]: the empty and the
    [.] elements go, the others are written one after the other. *)
Lemma cleanLoop_elements els : forall rooted ys fuel dotdot,
  Forall (fun e => skippedb e = true \/ properb e = true) els ->
  Forall proper ys ->
  String.length (joinPath els) < fuel ->
  filepath.cleanLoop fuel rooted (joinPath els) (buffer rooted ys) dotdot
  = buffer rooted (ys ++ filter (fun e => properb e = true) els).
Proof.
  induction els as [| e els IH]; intros rooted ys fuel dotdot Hels Hys Hfuel.
  - destruct fuel; [simpl in Hfuel; lia |]. simpl. by rewrite app_nil_r.
  - apply Forall_cons in Hels as [He Hels].
    destruct fuel as [| fuel]; [simpl in Hfuel; lia |].
    cbn [joinPath filepath.cleanLoop].
    change (filepath.IsPathSeparator "/") with true. cbv iota.
    simpl in Hfuel. rewrite length_append in Hfuel.
    destruct (properb e) eqn:Hproper.
    + (* a real path element *)
      destruct (proper_head e (joinPath els) Hproper (atElementEnd_joinPath els))
        as (c & p1 & Heq & Hc & Hdot & Hdd).
      pose proof (proper_length _ Hproper) as Hlen.
      destruct fuel as [| fuel]; [lia |].
      rewrite Heq. cbn [filepath.cleanLoop]. rewrite Hc, Hdot, Hdd. rewrite <- Heq.
      apply properb_inv in Hproper as Hparts. destruct Hparts as (_ & _ & _ & Hsep).
      rewrite copyElement_append by (done || apply atElementEnd_joinPath).
      rewrite filter_cons_True by done.
      replace (ys ++ e :: filter (fun e0 => properb e0 = true) els)
        with ((ys ++ [e]) ++ filter (fun e0 => properb e0 = true) els)
        by (by rewrite <- app_assoc).
      rewrite <- (IH rooted (ys ++ [e]) fuel dotdot); [| done | | lia].
      * by rewrite buffer_snoc.
      * apply Forall_app. split; [done |]. by constructor.
    + destruct He as [He | He]; [| congruence].
      rewrite filter_cons_False by congruence.
      unfold skippedb in He. apply orb_prop in He as [He | He]; apply String.eqb_eq in He;
        subst e.
      * rewrite append_nil_l. apply IH; [done | done | simpl in Hfuel; lia].
      * destruct fuel as [| fuel]; [simpl in Hfuel; lia |].
        rewrite append_cons, append_nil_l. cbn [filepath.cleanLoop].
        change (filepath.IsPathSeparator ".") with false.
        rewrite atElementEnd_joinPath. cbn [Ascii.eqb Bool.eqb andb]. cbv iota.
        apply IH; [done | done | simpl in Hfuel; lia].
Qed.

Lemma ofBytes_rev_bytesOf s : strings.ofBytes (rev (rev (bytesOf s))) = s.
Proof.
  unfold strings.ofBytes, bytesOf. rewrite rev_involutive.
  apply String.string_of_list_ascii_of_string.
Qed.

Lemma buffer_rooted_nonempty ys : buffer true ys <> [].
Proof.
  unfold buffer. intros H. apply (f_equal (@length ascii)) in H.
  rewrite length_rev in H. by destruct ys.
Qed.

Lemma cleanLoop_sep fuel rooted p out dotdot :
  filepath.cleanLoop (S fuel) rooted (String "/" p) out dotdot
  = filepath.cleanLoop fuel rooted p out dotdot.
Proof. reflexivity. Qed.

(** [Clean] of a rooted path: the empty and the [.] elements go. *)
Lemma Clean_joinPath e els :
  Forall (fun e => skippedb e = true \/ properb e = true) (e :: els) ->
  filepath.Clean (joinPath (e :: els))
  = pathOf (filter (fun e => properb e = true) (e :: els)).
Proof.
  intros Hels. unfold filepath.Clean. cbn [joinPath].
  change (filepath.IsPathSeparator "/") with true. cbv iota.
  rewrite <- (cleanLoop_sep _ true _ [filepath.Separator] 1).
  change (String "/" (e +:+ joinPath els)) with (joinPath (e :: els)).
  change [filepath.Separator] with (buffer true []).
  rewrite cleanLoop_elements by (done || lia). simpl app.
  pose proof (buffer_rooted_nonempty (filter (fun e0 => properb e0 = true) (e :: els)))
    as Hne.
  destruct (buffer true _) eqn:Hout; [done |]. rewrite <- Hout. apply ofBytes_rev_bytesOf.
Qed.

Lemma filter_proper xs :
  Forall proper xs -> filter (fun e => properb e = true) xs = xs.
Proof.
  induction 1 as [| x xs Hx _ IH]; [done |]. by rewrite filter_cons_True, IH.
Qed.

Lemma Forall_proper_skipped xs :
  Forall proper xs ->
  Forall (fun e => skippedb e = true \/ properb e = true) xs.
Proof. intros H. eapply Forall_impl; [exact H |]. auto. Qed.

Lemma Clean_pathOf xs :
  Forall proper xs -> filepath.Clean (pathOf xs) = pathOf xs.
Proof.
  intros Hxs. destruct xs as [| x xs]; [done |].
  change (pathOf (x :: xs)) with (joinPath (x :: xs)) at 1.
  rewrite Clean_joinPath by by apply Forall_proper_skipped.
  by rewrite filter_proper.
Qed.

(** The path of an entry of a directory, as [WalkDir] makes it. *)
Lemma Join_pathOf xs name :
  Forall proper xs -> properb name = true ->
  filepath.Join [pathOf xs; name] = pathOf (xs ++ [name]).
Proof.
  intros Hxs Hname.
  assert (filepath.Join [pathOf xs; name]
          = filepath.Clean (pathOf xs +:+ "/" +:+ name)) as ->.
  { unfold filepath.Join. by destruct xs. }
  destruct xs as [| x xs].
  - assert (pathOf [] +:+ "/" +:+ name = joinPath [""; name]) as ->.
    { cbn [joinPath]. by rewrite append_nil_r. }
    rewrite Clean_joinPath.
    + rewrite filter_cons_False by done. by rewrite filter_cons_True, filter_nil.
    + constructor; [by left |]. constructor; [by right |]. constructor.
  - assert (pathOf (x :: xs) +:+ "/" +:+ name = joinPath ((x :: xs) ++ [name])) as ->.
    { rewrite joinPath_app. simpl. by rewrite append_nil_r. }
    rewrite <- app_comm_cons. rewrite Clean_joinPath.
    + rewrite app_comm_cons, filter_proper; [done |]. apply Forall_app. split; [done |].
      by constructor.
    + rewrite app_comm_cons. apply Forall_proper_skipped, Forall_app.
      split; [done |]. by constructor.
Qed.

Lemma Clean_joinPath' els :
  els <> [] ->
  Forall (fun e => skippedb e = true \/ properb e = true) els ->
  filepath.Clean (joinPath els) = pathOf (filter (fun e => properb e = true) els).
Proof. destruct els; [done |]. intros _. apply Clean_joinPath. Qed.

(** The URI of a resource: the relative path joined with the base
    directory is the path of the walk. *)
Lemma Join_pathOf_relOf xs ns :
  Forall proper xs -> Forall proper ns ->
  filepath.Join [pathOf xs; relOf ns] = pathOf (xs ++ ns).
Proof.
  intros Hxs Hns.
  assert (filepath.Join [pathOf xs; relOf ns]
          = filepath.Clean (pathOf xs +:+ "/" +:+ relOf ns)) as ->.
  { unfold filepath.Join. by destruct xs. }
  assert (pathOf xs +:+ "/" +:+ relOf ns
          = joinPath (match xs with [] => [""] | _ => xs end
                      ++ match ns with [] => ["."] | _ => ns end)) as ->.
  { rewrite joinPath_app. f_equal; [by destruct xs |].
    destruct ns; [done |]. by cbn [joinPath relOf]. }
  rewrite Clean_joinPath'.
  - f_equal. rewrite filter_app. f_equal.
    + destruct xs; [done |]. by apply filter_proper.
    + destruct ns; [done |]. by apply filter_proper.
  - by destruct xs.
  - apply Forall_app. split.
    + destruct xs; [| by apply Forall_proper_skipped]. constructor; [by left | constructor].
    + destruct ns; [| by apply Forall_proper_skipped]. constructor; [by left | constructor].
Qed.

Lemma splitElement_append e t :
  strings.ContainsByte e "/" = false -> filepath.atElementEnd t = true ->
  filepath.splitElement (e +:+ t) = (e, t).
Proof.
  induction e as [| c e IH]; intros Hsep Hend.
  - rewrite append_nil_l. destruct t as [| c t]; [done |]. simpl in *. by rewrite Hend.
  - simpl in Hsep. apply orb_false_elim in Hsep as [Hc Hsep].
    rewrite append_cons. simpl.
    unfold filepath.IsPathSeparator, filepath.Separator. rewrite Hc.
    by rewrite IH.
Qed.

Lemma proper_noSep e : properb e = true -> strings.ContainsByte e "/" = false.
Proof. by intros (_ & _ & _ & H)%properb_inv. Qed.

Lemma proper_append_nonempty e t : properb e = true -> String.eqb (e +:+ t) "" = false.
Proof. intros (Hne & _)%properb_inv. by destruct e. Qed.

Lemma relLoop_extension ns xs : forall x fuel,
  properb x = true -> Forall proper xs -> ns <> [] ->
  length xs < fuel ->
  filepath.relLoop (S fuel) (x +:+ joinPath xs) (x +:+ joinPath (xs ++ ns))
  = ("", "", relOf ns).
Proof.
  induction xs as [| x2 xs IH]; intros x fuel Hx Hxs Hns Hfuel.
  - cbn [filepath.relLoop]. rewrite !proper_append_nonempty by done. cbn [orb].
    rewrite !splitElement_append by (by apply proper_noSep || apply atElementEnd_joinPath).
    rewrite String.eqb_refl. cbn [negb].
    destruct ns as [| n ns]; [done |]. destruct fuel; [simpl in Hfuel; lia |]. done.
  - apply Forall_cons in Hxs as [Hx2 Hxs].
    cbn [filepath.relLoop]. rewrite !proper_append_nonempty by done. cbn [orb].
    rewrite !splitElement_append by (by apply proper_noSep || apply atElementEnd_joinPath).
    rewrite String.eqb_refl. cbn [negb].
    destruct fuel as [| fuel]; [simpl in Hfuel; lia |].
    rewrite <- app_comm_cons. cbn [joinPath filepath.skipSeparator].
    apply IH; [done | done | done | simpl in Hfuel; lia].
Qed.

Lemma length_joinPath xs : Forall proper xs -> length xs <= String.length (joinPath xs).
Proof.
  induction 1 as [| x xs Hx _ IH]; [done |]. simpl. rewrite length_append. lia.
Qed.

Lemma pathOf_head xs : exists t, pathOf xs = String "/" t.
Proof. destruct xs; simpl; eauto. Qed.

Lemma pathOf_app xs ns :
  Forall proper xs -> Forall proper ns -> ns <> [] ->
  String.length (pathOf xs) < String.length (pathOf (xs ++ ns)).
Proof.
  intros Hxs Hns Hne. destruct ns as [| n ns]; [done |].
  apply Forall_cons in Hns as [Hn%proper_length _].
  destruct xs as [| x xs].
  - simpl. rewrite length_append. lia.
  - change (pathOf ((x :: xs) ++ n :: ns)) with (joinPath ((x :: xs) ++ n :: ns)).
    rewrite joinPath_app, length_append. simpl. rewrite !length_append. lia.
Qed.

(** [Rel] from the base directory to a path below it. *)
Lemma Rel_pathOf xs ns :
  Forall proper xs -> Forall proper ns ->
  filepath.Rel (pathOf xs) (pathOf (xs ++ ns)) = Ok (relOf ns).
Proof.
  intros Hxs Hns. unfold filepath.Rel.
  rewrite !Clean_pathOf by (done || by apply Forall_app).
  destruct ns as [| n ns].
  { by rewrite app_nil_r, String.eqb_refl. }
  assert (String.eqb (pathOf (xs ++ n :: ns)) (pathOf xs) = false) as ->.
  { apply String.eqb_neq. intros Heq.
    pose proof (pathOf_app xs (n :: ns) Hxs Hns) as Hlt. rewrite Heq in Hlt.
    specialize (Hlt ltac:(done)). lia. }
  destruct (pathOf_head xs) as [t Ht]. destruct (pathOf_head (xs ++ n :: ns)) as [t' Ht'].
  assert (String.eqb (pathOf xs) "." = false) as -> by by rewrite Ht.
  assert (filepath.IsAbs (pathOf xs) = true) as -> by (rewrite Ht; by destruct t).
  assert (filepath.IsAbs (pathOf (xs ++ n :: ns)) = true) as ->
      by (rewrite Ht'; by destruct t').
  cbn [Bool.eqb negb]. cbv iota.
  assert (filepath.relLoop (S (String.length (pathOf xs))) (pathOf xs)
                           (pathOf (xs ++ n :: ns))
          = ("", "", relOf (n :: ns))) as ->; [| done].
  destruct xs as [| x xs].
  - reflexivity.
  - apply Forall_cons in Hxs as [Hx Hxs].
    change (pathOf ((x :: xs) ++ n :: ns)) with (String "/" (x +:+ joinPath (xs ++ n :: ns))).
    change (pathOf (x :: xs)) with (String "/" (x +:+ joinPath xs)).
    cbn [filepath.relLoop String.eqb orb filepath.splitElement].
    change (filepath.IsPathSeparator "/") with true. cbv iota.
    cbn [String.eqb negb filepath.skipSeparator String.length].
    pose proof (length_joinPath xs Hxs) as Hlen. pose proof (proper_length x Hx) as Hx'.
    rewrite length_append.
    destruct (String.length x + String.length (joinPath xs)) as [| fuel] eqn:Hfuel; [lia |].
    apply relLoop_extension; [done | done | done | lia].
Qed.

(** ** The files of the walk in the file system *)

Lemma step_proper name readable entries up :
  properb name = true ->
  os.step name (os.Dir readable entries :: up)
  = if negb readable then inl EACCES
    else match os.lookupEntry name entries with
         | Some n => inr (n :: os.Dir readable entries :: up)
         | None => inl ENOENT
         end.
Proof.
  intros (Hne & Hdot & Hdotdot & _)%properb_inv. unfold os.step.
  apply String.eqb_neq in Hne, Hdot, Hdotdot. by rewrite Hne, Hdot, Hdotdot.
Qed.

Lemma walkElements_path xs : forall x fuel stack,
  properb x = true -> Forall proper xs ->
  length xs < fuel ->
  os.walkElements fuel (x +:+ joinPath xs) stack = descend (x :: xs) stack.
Proof.
  induction xs as [| x2 xs IH]; intros x fuel stack Hx Hxs Hfuel;
    (destruct fuel as [| fuel]; [simpl in Hfuel; lia |]);
    cbn [os.walkElements descend]; rewrite proper_append_nonempty by done;
    rewrite splitElement_append by (by apply proper_noSep || apply atElementEnd_joinPath);
    destruct (os.step x stack) as [e | stack']; try done.
  apply Forall_cons in Hxs as [Hx2 Hxs]. cbn [joinPath].
  rewrite proper_append_nonempty by done. apply IH; [done | done | simpl in Hfuel; lia].
Qed.

Lemma walkElements_root fuel p readable entries up :
  String.eqb p "" = false ->
  os.walkElements (S fuel) (String "/" p) (os.Dir readable entries :: up)
  = os.walkElements fuel p (os.Dir readable entries :: up).
Proof. intros Hp. cbn [os.walkElements]. simpl. by rewrite Hp. Qed.

(** The walk of an absolute path in clean form, from the root. *)
Lemma walkElements_pathOf root xs :
  Forall proper xs ->
  os.walkElements (S (String.length (pathOf xs))) (pathOf xs) [root]
  = match root with
    | os.File _ _ => inl ENOTDIR
    | os.Dir _ _ => descend xs [root]
    end.
Proof.
  intros Hxs. destruct xs as [| x xs].
  - by destruct root.
  - apply Forall_cons in Hxs as [Hx Hxs].
    change (pathOf (x :: xs)) with (String "/" (x +:+ joinPath xs)).
    destruct root as [readable data | readable entries]; [done |].
    rewrite walkElements_root by by apply proper_append_nonempty.
    rewrite walkElements_path; [done | done | done |].
    pose proof (length_joinPath xs Hxs). simpl. rewrite length_append. lia.
Qed.

Lemma resolve_pathOf fs xs :
  Forall proper xs ->
  os.resolve fs (pathOf xs)
  = match os.Root fs with
    | os.File _ _ => inl ENOTDIR
    | os.Dir _ _ =>
      match descend xs [os.Root fs] with
      | inl e => inl e
      | inr (n :: _) => inr n
      | inr [] => inl ENOENT
      end
    end.
Proof.
  intros Hxs. unfold os.resolve.
  destruct (pathOf_head xs) as [t Ht].
  assert (String.eqb (pathOf xs) "" = false) as -> by by rewrite Ht.
  assert (filepath.IsAbs (pathOf xs) = true) as -> by (rewrite Ht; by destruct t).
  rewrite walkElements_pathOf by done. by destruct (os.Root fs).
Qed.

Lemma descend_app xs ns stack :
  descend (xs ++ ns) stack
  = match descend xs stack with
    | inl e => inl e
    | inr stack' => descend ns stack'
    end.
Proof.
  revert stack. induction xs as [| x xs IH]; intros stack; [done |].
  simpl. by destruct (os.step x stack).
Qed.

Lemma descend_nodeAt ns : forall n up target,
  Forall proper ns -> nodeAt ns n = Some target ->
  exists up', descend ns (n :: up) = inr (target :: up').
Proof.
  induction ns as [| name ns IH]; intros n up target Hns Hat.
  - simpl in *. simplify_eq. by eexists.
  - apply Forall_cons in Hns as [Hname Hns]. simpl in Hat.
    destruct n as [| [] entries]; try done.
    destruct (os.lookupEntry name entries) as [child |] eqn:Hlookup; [| done].
    cbn [descend]. rewrite step_proper by done. simpl. rewrite Hlookup.
    by eapply IH.
Qed.

(** The path of a file below the base directory names that file. *)
Lemma resolve_below fs xs ns n target :
  Forall proper xs -> Forall proper ns ->
  os.resolve fs (pathOf xs) = inr n -> nodeAt ns n = Some target ->
  os.resolve fs (pathOf (xs ++ ns)) = inr target.
Proof.
  intros Hxs Hns Hbase Hat.
  rewrite resolve_pathOf in Hbase |- * by (done || by apply Forall_app).
  destruct (os.Root fs); [done |]. rewrite descend_app.
  destruct (descend xs _) as [| [| n' up]]; try done. simplify_eq.
  by destruct (descend_nodeAt ns n up target Hns Hat) as [up' ->].
Qed.

Lemma lookupEntry_unique name child entries :
  uniqueNames (map fst entries) = true -> (name, child) ∈ entries ->
  os.lookupEntry name entries = Some child.
Proof.
  induction entries as [| [n0 c0] entries IH]; intros Huniq Hin.
  - by apply elem_of_nil in Hin.
  - simpl in Huniq. apply andb_prop in Huniq as [Hfresh Huniq]. simpl.
    apply elem_of_cons in Hin as [Heq | Hin].
    + simplify_eq. by rewrite String.eqb_refl.
    + destruct (String.eqb_spec n0 name) as [-> | _]; [| by apply IH].
      exfalso. apply negb_true_iff in Hfresh.
      assert (existsb (String.eqb name) (map fst entries) = true) as Hex; [| congruence].
      apply existsb_exists. exists name. split; [| apply String.eqb_refl].
      apply in_map_iff. exists (name, child). split; [done |]. by apply list_elem_of_In.
Qed.

Lemma visits_Dir path name entries :
  visits path name (os.Dir true entries)
  = concat ((fun e => visits (filepath.Join [path; fst e]) (fst e) (snd e)) <$> entries).
Proof.
  simpl. induction entries as [| [name1 n1] entries IH]; [done |]. simpl. by rewrite IH.
Qed.

(** ** Relative paths *)

Lemma relOf_parts bs :
  relOf bs = match bs with [] => "." | b :: _ => b end +:+ joinPath (tail bs).
Proof. by destruct bs. Qed.

Lemma relOf_head bs :
  Forall proper bs ->
  exists c t, relOf bs = String c t /\ filepath.IsPathSeparator c = false.
Proof.
  intros Hbs. destruct bs as [| b bs]; [by exists "."%char, "" |].
  apply Forall_cons in Hbs as [Hb _].
  destruct (proper_head b (joinPath bs) Hb (atElementEnd_joinPath bs))
    as (c & p1 & Heq & Hc & _). by exists c, p1.
Qed.

Lemma IsAbs_relOf bs : Forall proper bs -> filepath.IsAbs (relOf bs) = false.
Proof.
  intros (c & t & -> & Hc)%relOf_head. unfold filepath.IsAbs. simpl.
  unfold filepath.IsPathSeparator, filepath.Separator in Hc. by rewrite Hc.
Qed.

(** [Clean] of a relative path without a [..] element. *)
Lemma Clean_relative e els :
  e = "." \/ proper e ->
  Forall (fun e => skippedb e = true \/ properb e = true) els ->
  filepath.Clean (e +:+ joinPath els)
  = relOf (filter (fun e => properb e = true) (e :: els)).
Proof.
  intros He Hels.
  assert (exists c p1, e +:+ joinPath els = String c p1
                       /\ filepath.IsPathSeparator c = false) as (c & p1 & Heq & Hc).
  { destruct He as [-> | He]; [by exists "."%char, (joinPath els) |].
    destruct (proper_head e (joinPath els) He (atElementEnd_joinPath els))
      as (c & p1 & Heq & Hc & _). by exists c, p1. }
  assert (filepath.cleanLoop (S (String.length (String c p1))) false (String c p1) [] 0
          = buffer false (filter (fun e => properb e = true) (e :: els))) as Hloop.
  { rewrite <- Heq. rewrite <- (cleanLoop_sep _ false _ [] 0).
    change (String "/" (e +:+ joinPath els)) with (joinPath (e :: els)).
    change (@nil ascii) with (buffer false []).
    rewrite cleanLoop_elements; [done | | constructor | simpl; lia].
    constructor; [| done]. destruct He as [-> | He]; [by left | by right]. }
  unfold filepath.Clean. rewrite Heq, Hc. cbv zeta iota. rewrite Hloop.
  destruct (filter _ (e :: els)) as [| z zs] eqn:Hfilter; [done |].
  assert (proper z) as Hz.
  { assert (z ∈ filter (fun e0 => properb e0 = true) (e :: els)) as Hin
        by (rewrite Hfilter; left).
    by apply list_elem_of_filter in Hin as [Hin _]. }
  apply proper_length in Hz. unfold buffer. cbn [joinPath strings.drop relOf].
  destruct (rev (bytesOf (z +:+ joinPath zs))) eqn:Hout.
  - apply (f_equal (@length ascii)) in Hout.
    rewrite length_rev, bytesOf_length, length_append in Hout. simpl in Hout. lia.
  - rewrite <- Hout. apply ofBytes_rev_bytesOf.
Qed.

Lemma Join_relOf_relOf bs ns :
  Forall proper bs -> Forall proper ns ->
  filepath.Join [relOf bs; relOf ns] = relOf (bs ++ ns).
Proof.
  intros Hbs Hns.
  assert (filepath.Join [relOf bs; relOf ns]
          = filepath.Clean (relOf bs +:+ "/" +:+ relOf ns)) as ->.
  { unfold filepath.Join. destruct (relOf_head bs Hbs) as (c & t & -> & _). done. }
  assert (relOf bs +:+ "/" +:+ relOf ns
          = match bs with [] => "." | b :: _ => b end
            +:+ joinPath (tail bs ++ match ns with [] => ["."] | _ => ns end)) as ->.
  { rewrite relOf_parts, joinPath_app, append_assoc. f_equal. f_equal.
    destruct ns; [done |]. by cbn [joinPath relOf]. }
  rewrite Clean_relative.
  - f_equal. destruct bs as [| b bs].
    + rewrite filter_cons_False by done. simpl tail. rewrite app_nil_l.
      destruct ns; [done |]. by apply filter_proper.
    + apply Forall_cons in Hbs as [Hb Hbs]. rewrite filter_cons_True by done.
      simpl tail. rewrite filter_app, (filter_proper bs) by done.
      cbn [app]. f_equal. f_equal.
      destruct ns; [done |]. by apply filter_proper.
  - destruct bs as [| b bs]; [by left |]. right. by apply Forall_cons in Hbs as [Hb _].
  - apply Forall_app. split.
    + destruct bs as [| b bs]; [constructor |]. apply Forall_cons in Hbs as [_ Hbs].
      by apply Forall_proper_skipped.
    + destruct ns; [| by apply Forall_proper_skipped]. constructor; [by left | constructor].
Qed.

Lemma Join_relOf bs name :
  Forall proper bs -> proper name ->
  filepath.Join [relOf bs; name] = relOf (bs ++ [name]).
Proof.
  intros Hbs Hname. rewrite <- Join_relOf_relOf by (done || by constructor).
  cbn [relOf joinPath]. by rewrite append_nil_r.
Qed.

Lemma Clean_relOf bs : Forall proper bs -> filepath.Clean (relOf bs) = relOf bs.
Proof.
  intros Hbs. rewrite relOf_parts. rewrite Clean_relative.
  - destruct bs as [| b bs]; [done |]. apply Forall_cons in Hbs as [Hb Hbs].
    rewrite filter_cons_True by done. simpl tail. by rewrite filter_proper.
  - destruct bs as [| b bs]; [by left |]. right. by apply Forall_cons in Hbs as [Hb _].
  - destruct bs as [| b bs]; [constructor |]. apply Forall_cons in Hbs as [_ Hbs].
    by apply Forall_proper_skipped.
Qed.

Lemma relOf_not_dot n ns : proper n -> String.eqb (relOf (n :: ns)) "." = false.
Proof.
  intros (Hne & Hdot & _)%properb_inv. apply String.eqb_neq. cbn [relOf]. intros Heq.
  destruct n as [| c n]; [done |]. rewrite append_cons in Heq.
  injection Heq as -> Heq. destruct n as [| c n]; [done |]. by rewrite append_cons in Heq.
Qed.

Lemma relOf_app_length b bs ns :
  ns <> [] ->
  String.length (relOf (b :: bs)) < String.length (relOf ((b :: bs) ++ ns)).
Proof.
  intros Hne. rewrite <- app_comm_cons. cbn [relOf]. rewrite joinPath_app, !length_append.
  destruct ns as [| n ns]; [done |]. simpl. lia.
Qed.

(** [Rel] from a relative base directory to a path below it. *)
Lemma Rel_relOf bs ns :
  Forall proper bs -> Forall proper ns ->
  filepath.Rel (relOf bs) (relOf (bs ++ ns)) = Ok (relOf ns).
Proof.
  intros Hbs Hns. unfold filepath.Rel.
  rewrite !Clean_relOf by (done || by apply Forall_app).
  destruct ns as [| n ns].
  { by rewrite app_nil_r, String.eqb_refl. }
  destruct bs as [| b bs].
  - rewrite app_nil_l. change (relOf []) with ".".
    apply Forall_cons in Hns as Hn. destruct Hn as [Hn _].
    rewrite (relOf_not_dot n ns Hn). cbn [String.eqb Ascii.eqb Bool.eqb].
    by rewrite (IsAbs_relOf (n :: ns)).
  - assert (String.eqb (relOf ((b :: bs) ++ n :: ns)) (relOf (b :: bs)) = false) as ->.
    { apply String.eqb_neq. intros Heq.
      pose proof (relOf_app_length b bs (n :: ns) ltac:(done)) as Hlt.
      rewrite Heq in Hlt. lia. }
    rewrite !IsAbs_relOf by (done || by apply Forall_app).
    apply Forall_cons in Hbs as [Hb Hbs].
    rewrite (relOf_not_dot b bs Hb). rewrite (IsAbs_relOf (b :: bs)) by by constructor.
    cbn [Bool.eqb negb]. cbv iota.
    rewrite <- app_comm_cons. cbn [relOf].
    rewrite relLoop_extension; [done | done | done | done |].
    pose proof (length_joinPath bs Hbs). rewrite length_append.
    pose proof (proper_length b Hb). lia.
Qed.

Lemma Abs_relOf wds zs :
  Forall proper wds -> Forall proper zs ->
  filepath.Abs (Ok (pathOf wds)) (relOf zs) = Ok (pathOf (wds ++ zs)).
Proof.
  intros Hwds Hzs. unfold filepath.Abs. by rewrite IsAbs_relOf, Join_pathOf_relOf.
Qed.

(** [.] names a directory. *)
Lemma resolve_dot fs n :
  os.resolve fs "." = inr n -> exists readable entries, n = os.Dir readable entries.
Proof.
  unfold os.resolve. cbn [String.eqb Ascii.eqb Bool.eqb].
  change (filepath.IsAbs ".") with false. cbv iota.
  destruct (os.Getwd fs) as [wd |]; [| done].
  destruct (os.walkElements _ wd _) as [| stack]; [done |]. cbn.
  destruct stack as [| [] ?]; [done | done |]. cbn. intros [= <-]. eauto.
Qed.

(** A relative base directory names the node of its absolute path. *)
Lemma resolve_relOf fs wds bs n :
  os.Getwd fs = Ok (pathOf wds) -> Forall proper wds -> Forall proper bs ->
  os.resolve fs (relOf bs) = inr n ->
  os.resolve fs (pathOf (wds ++ bs)) = inr n.
Proof.
  intros Hwd Hwds Hbs. rewrite resolve_pathOf by by apply Forall_app.
  unfold os.resolve. rewrite IsAbs_relOf, Hwd by done.
  destruct (relOf_head bs Hbs) as (c & t & Hrel & _).
  assert (String.eqb (relOf bs) "" = false) as -> by by rewrite Hrel.
  rewrite walkElements_pathOf by done.
  destruct (os.Root fs) as [| readable entries]; [done |].
  rewrite descend_app. destruct (descend wds _) as [| stack]; [done |].
  destruct bs as [| b bs].
  - cbn. by destruct stack as [| [] ?].
  - apply Forall_cons in Hbs as [Hb Hbs]. cbn [relOf].
    rewrite walkElements_path; [done | done | done |].
    pose proof (length_joinPath bs Hbs). rewrite length_append.
    pose proof (proper_length b Hb). lia.
Qed.

Lemma Ext_cons c p :
  filepath.Ext (String c p)
  = if filepath.IsPathSeparator c then filepath.Ext p
    else match filepath.Ext p with
         | EmptyString =>
           if Ascii.eqb c "." && negb (strings.ContainsByte p filepath.Separator)
           then String c p else ""
         | e => e
         end.
Proof. reflexivity. Qed.

Lemma ContainsByte_append p z :
  strings.ContainsByte (p +:+ String "/" z) filepath.Separator = true.
Proof.
  induction p as [| c p IH]; [done |]. rewrite append_cons. simpl.
  rewrite IH. apply orb_true_r.
Qed.

(** [Ext] reads the last element only. *)
Lemma Ext_last p z : filepath.Ext (p +:+ String "/" z) = filepath.Ext z.
Proof.
  induction p as [| c p IH]; [done |]. rewrite append_cons, Ext_cons, IH.
  destruct (filepath.IsPathSeparator c); [done |].
  destruct (filepath.Ext z); [| done].
  by rewrite ContainsByte_append, andb_false_r.
Qed.

Lemma Ext_pathOf xs z : filepath.Ext (pathOf (xs ++ [z])) = filepath.Ext z.
Proof.
  assert (pathOf (xs ++ [z]) = joinPath xs +:+ String "/" z) as ->.
  { destruct xs as [| x xs]; simpl; [by rewrite append_nil_r, append_nil_l |].
    rewrite joinPath_app, append_cons, append_assoc. simpl. by rewrite append_nil_r. }
  apply Ext_last.
Qed.

Lemma Ext_relOf b bs z : filepath.Ext (relOf ((b :: bs) ++ [z])) = filepath.Ext z.
Proof.
  rewrite <- app_comm_cons. cbn [relOf]. rewrite joinPath_app. cbn [joinPath].
  rewrite append_nil_r, <- append_assoc. apply Ext_last.
Qed.

Lemma HasPrefix_append p q : strings.HasPrefix (p +:+ q) p = true.
Proof. apply (HasPrefix_app _ p q), HasPrefix_refl. Qed.

Lemma TrimPrefix_append p q : strings.TrimPrefix (p +:+ q) p = q.
Proof.
  unfold strings.TrimPrefix. rewrite HasPrefix_append.
  induction p as [| c p IH]; [done |]. by rewrite append_cons.
Qed.

Lemma Abs_pathOf getwd xs :
  Forall proper xs -> filepath.Abs getwd (pathOf xs) = Ok (pathOf xs).
Proof.
  intros Hxs. unfold filepath.Abs. destruct (pathOf_head xs) as [t Ht].
  assert (filepath.IsAbs (pathOf xs) = true) as -> by (rewrite Ht; by destruct t).
  by rewrite Clean_pathOf.
Qed.

Lemma HasPrefix_below xs ns :
  strings.HasPrefix (pathOf (xs ++ ns)) (pathOf xs) = true.
Proof.
  destruct xs as [| x xs].
  - rewrite app_nil_l. destruct (pathOf_head ns) as [t ->]. by destruct t.
  - change (pathOf ((x :: xs) ++ ns)) with (joinPath ((x :: xs) ++ ns)).
    rewrite joinPath_app. apply HasPrefix_append.
Qed.

(** ** The base directory in clean form *)

Lemma walkPath_nil fs s b : basedAt fs s b -> walkPath b [] = baseDir s.
Proof.
  destruct b; simpl; rewrite app_nil_r.
  - by intros [-> _].
  - by intros (_ & -> & _).
Qed.

Lemma baseNames_proper fs s b : basedAt fs s b -> Forall proper (baseNames b).
Proof.
  destruct b; simpl; [by intros [_ ?] |]. intros (_ & _ & ? & ?). by apply Forall_app.
Qed.

Lemma Join_walkPath fs s b ns name :
  basedAt fs s b -> Forall proper ns -> proper name ->
  filepath.Join [walkPath b ns; name] = walkPath b (ns ++ [name]).
Proof.
  intros Hb Hns Hname. destruct b as [xs | wds bs]; simpl in *.
  - destruct Hb as [_ Hxs]. rewrite app_assoc. apply Join_pathOf; [| done].
    by apply Forall_app.
  - destruct Hb as (_ & _ & _ & Hbs). rewrite app_assoc. apply Join_relOf; [| done].
    by apply Forall_app.
Qed.

Lemma Rel_walkPath fs s b ns :
  basedAt fs s b -> Forall proper ns ->
  filepath.Rel (baseDir s) (walkPath b ns) = Ok (relOf ns).
Proof.
  intros Hb Hns. destruct b as [xs | wds bs]; simpl in *.
  - destruct Hb as [-> Hxs]. by apply Rel_pathOf.
  - destruct Hb as (_ & -> & _ & Hbs). by apply Rel_relOf.
Qed.

Lemma Join_base fs s b ns :
  basedAt fs s b -> Forall proper ns ->
  filepath.Join [baseDir s; relOf ns] = walkPath b ns.
Proof.
  intros Hb Hns. destruct b as [xs | wds bs]; simpl in *.
  - destruct Hb as [-> Hxs]. by apply Join_pathOf_relOf.
  - destruct Hb as (_ & -> & _ & Hbs). by apply Join_relOf_relOf.
Qed.

Lemma Abs_walkPath fs s b ns :
  basedAt fs s b -> Forall proper ns ->
  filepath.Abs (os.Getwd fs) (walkPath b ns) = Ok (pathOf (baseNames b ++ ns)).
Proof.
  intros Hb Hns. destruct b as [xs | wds bs]; simpl in *.
  - destruct Hb as [_ Hxs]. apply Abs_pathOf. by apply Forall_app.
  - destruct Hb as (-> & _ & Hwds & Hbs). rewrite <- app_assoc.
    apply Abs_relOf; [done |]. by apply Forall_app.
Qed.

Lemma resolve_base fs s b n :
  basedAt fs s b -> os.resolve fs (baseDir s) = inr n ->
  os.resolve fs (pathOf (baseNames b)) = inr n.
Proof.
  intros Hb. destruct b as [xs | wds bs]; simpl in *.
  - by destruct Hb as [-> _].
  - destruct Hb as (Hwd & -> & Hwds & Hbs). by apply resolve_relOf.
Qed.

(** The check of the handlers accepts what is below the base directory. *)
Lemma check_below fs s b ns :
  basedAt fs s b ->
  filepath.Abs (os.Getwd fs) (baseDir s) = Ok (pathOf (baseNames b))
  /\ strings.HasPrefix (pathOf (baseNames b ++ ns)) (pathOf (baseNames b)) = true.
Proof.
  intros Hb. split; [| apply HasPrefix_below].
  rewrite <- (walkPath_nil fs s b Hb).
  rewrite (Abs_walkPath fs s b [] Hb) by constructor. by rewrite app_nil_r.
Qed.

Lemma Ext_relOf_last init z : filepath.Ext (relOf (init ++ [z])) = filepath.Ext z.
Proof.
  destruct init as [| b bs]; [| apply Ext_relOf].
  cbn [app relOf joinPath]. by rewrite append_nil_r.
Qed.

(** The extension of a file of the walk is that of its absolute path. *)
Lemma Ext_walkPath fs s b ns n readable data :
  basedAt fs s b ->
  os.resolve fs (baseDir s) = inr n ->
  nodeAt ns n = Some (os.File readable data) ->
  filepath.Ext (walkPath b ns) = filepath.Ext (pathOf (baseNames b ++ ns)).
Proof.
  intros Hb Hresolve Hat. destruct b as [xs | wds bs]; [done |]. simpl in *.
  destruct Hb as (_ & Hbase & _ & _).
  destruct (bs ++ ns) as [| z zs _] eqn:Heq using rev_ind.
  - apply app_eq_nil in Heq as [-> ->]. simpl in *. rewrite Hbase in Hresolve.
    apply resolve_dot in Hresolve as (? & ? & ->). by simplify_eq.
  - rewrite Ext_relOf_last. rewrite <- app_assoc, Heq, app_assoc. by rewrite Ext_pathOf.
Qed.

(** ** The files of the walk *)

Lemma visits_below fs s b n :
  basedAt fs s b ->
  forall ns name,
    wellNamed n = true -> Forall proper ns ->
    Forall (fun v =>
              match v with
              | VisitFile path _ =>
                exists ms readable data,
                  path = walkPath b (ns ++ ms)
                  /\ Forall proper ms
                  /\ nodeAt ms n = Some (os.File readable data)
              | VisitUnreadable _ => True
              end) (visits (walkPath b ns) name n).
Proof.
  intros Hb.
  induction n as [readable data | readable entries IH] using Node_ind';
    intros ns name Hwell Hns.
  - constructor; [| constructor]. exists [], readable, data. by rewrite app_nil_r.
  - destruct readable; [| by repeat constructor].
    rewrite visits_Dir. apply Forall_concat, Forall_fmap, Forall_forall.
    intros [name1 n1] Hin. simpl.
    simpl in Hwell. apply andb_prop in Hwell as [[Hnames Huniq]%andb_prop Hwell].
    assert (properb name1 = true) as Hname1.
    { rewrite forallb_forall in Hnames. apply Hnames, in_map_iff.
      exists (name1, n1). split; [done |]. by apply list_elem_of_In. }
    assert (wellNamed n1 = true) as Hwell1.
    { rewrite forallb_forall in Hwell. by apply (Hwell (name1, n1)), list_elem_of_In. }
    rewrite Forall_forall in IH. specialize (IH _ Hin (ns ++ [name1]) name1 Hwell1).
    rewrite (Join_walkPath fs s) by done.
    eapply Forall_impl; [apply IH; apply Forall_app; split; [done | by constructor] |].
    intros [path nm | path]; [| done]. simpl.
    intros (ms & r & d & -> & Hms & Hat). exists (name1 :: ms), r, d.
    split; [by rewrite <- app_assoc |]. split; [by constructor |].
    cbn [nodeAt]. by rewrite (lookupEntry_unique _ _ _ Huniq Hin).
Qed.

Lemma walked_fileBelow fs s b n :
  basedAt fs s b -> wellNamed n = true ->
  Forall (fileBelow b n) (visits (baseDir s) (os.basename (baseDir s)) n).
Proof.
  intros Hb Hwell. rewrite <- (walkPath_nil fs s b Hb).
  eapply Forall_impl; [by apply (visits_below fs s b n Hb [] _ Hwell) |].
  by intros [path nm | path].
Qed.

Lemma ReadFile_below fs s b ns n readable data :
  basedAt fs s b -> Forall proper ns ->
  os.resolve fs (baseDir s) = inr n ->
  nodeAt ns n = Some (os.File readable data) ->
  os.ReadFile fs (pathOf (baseNames b ++ ns))
  = if readable then Ok data
    else Err (PathError "open" (pathOf (baseNames b ++ ns)) EACCES).
Proof.
  intros Hb Hns Hresolve Hat. unfold os.ReadFile.
  rewrite (resolve_below fs (baseNames b) ns n _ (baseNames_proper fs s b Hb) Hns
                         (resolve_base fs s b n Hb Hresolve) Hat).
  by destruct readable.
Qed.

(** ** Reading a listed resource *)

(** The resource of a file of the walk is read back with its URI. *)
Lemma readBack_below fs s id w b ns n readable data :
  basedAt fs s b -> Forall proper ns ->
  os.resolve fs (baseDir s) = inr n ->
  nodeAt ns n = Some (os.File readable data) ->
  readBack fs s id w (resourceOf s (walkPath b ns) (relOf ns)).
Proof.
  intros Hb Hns Hresolve Hat.
  exists (walkPath b ns), (pathOf (baseNames b ++ ns)).
  assert (Resource_URI (resourceOf s (walkPath b ns) (relOf ns))
          = "file://" +:+ walkPath b ns) as Huri.
  { unfold resourceOf. cbn [Resource_URI]. by rewrite (Join_base fs s b). }
  split; [done |]. split; [by apply (Abs_walkPath fs s) |].
  destruct (check_below fs s b ns Hb) as [Hbase Hprefix].
  unfold handleReadResource. cbn [ReadResourceParams_URI]. rewrite Huri.
  rewrite HasPrefix_append, TrimPrefix_append. cbn [negb].
  rewrite (Abs_walkPath fs s b ns Hb Hns), Hbase, Hprefix. cbn [negb].
  rewrite (ReadFile_below fs s b ns n readable data) by done.
  unfold resourceOf. cbn [Resource_MimeType].
  rewrite (Ext_walkPath fs s b ns n readable data) by done.
  destruct readable.
  - unfold bind. rewrite !logPrintf_eq, sendResult_eq.
    unfold after; simpl. by rewrite !app_nil_r, <- !app_assoc.
  - split; [done |]. cbn [IsNotExist].
    unfold bind. rewrite !logPrintf_eq, sendError_eq.
    unfold after; simpl. by rewrite !app_nil_r.
Qed.

Lemma listSpec_readBack fs s id w b n vs : forall rs,
  basedAt fs s b ->
  os.resolve fs (baseDir s) = inr n ->
  Forall (fileBelow b n) vs -> listSpec s vs = Ok rs ->
  Forall (readBack fs s id w) rs.
Proof.
  intros rs Hb Hresolve Hvs. revert rs.
  induction Hvs as [| [path name | path] vs Hv _ IH]; intros rs Hlist; simpl in Hlist.
  - simplify_eq. constructor.
  - destruct Hv as (ns & readable & data & -> & Hns & Hat).
    rewrite (Rel_walkPath fs s b ns Hb Hns) in Hlist.
    destruct (listSpec s vs) as [l |]; simplify_eq.
    constructor; [| by apply IH]. by eapply readBack_below.
  - done.
Qed.

(** X15 — What [resources/list] gives, [resources/read] reads.  When the
    base directory is given in clean form (an absolute path, or a relative
    one such as [.] from an absolute working directory) and the entries
    below it have distinct, proper file names, each URI of the listing is
    answered by [resources/read] with the content of a file and the MIME
    type of the listing, or with the error -32603 when the file itself may
    not be read; it is never answered as outside of the base directory or
    as not found. *)
Theorem X15_listed_resources_read_back fs s id w b n rs :
  basedAt fs s b ->
  os.resolve fs (baseDir s) = inr n ->
  wellNamed n = true ->
  listOutcome fs s = Ok rs ->
  Forall (readBack fs s id w) rs.
Proof.
  intros Hb Hresolve Hwell Hlist.
  unfold listOutcome, walked in Hlist. rewrite Hresolve in Hlist.
  eapply listSpec_readBack; [done | done | | done].
  by apply (walked_fileBelow fs).
Qed.

Lemma X15_listed_resources_read_back_witness :
  exists rs,
    listOutcome exampleFS exampleServer = Ok rs
    /\ length rs = 5
    /\ Forall (readBack exampleFS exampleServer (Float64 "9") emptyWorld) rs.
Proof.
  eexists. split; [vm_compute; reflexivity |]. split; [reflexivity |].
  refine (X15_listed_resources_read_back exampleFS exampleServer (Float64 "9") emptyWorld
            (AbsBase ["srv"; "data"]) _ _ _ _ _ _).
  - split; [reflexivity | by repeat constructor].
  - vm_compute; reflexivity.
  - vm_compute; reflexivity.
  - vm_compute; reflexivity.
Defined.

(** ** The tools on paths below the base directory *)

Lemma readFile_below fs s id (args : gmap string any) b ns w :
  basedAt fs s b -> Forall proper ns ->
  args !! "path" = Some (Str (relOf ns)) ->
  handleReadFileTool fs s id args w
  = (None, after w [match os.ReadFile fs (pathOf (baseNames b ++ ns)) with
                    | Ok content =>
                      toolResponse id ("Contents of " +:+ relOf ns +:+ ":" +:+ nl +:+ content)
                                   false
                    | Err err =>
                      toolResponse id (if IsNotExist err
                                       then "File not found: " +:+ relOf ns
                                       else "Failed to read file: " +:+ errText err) true
                    end] []).
Proof.
  intros Hb Hns Hargs. destruct (check_below fs s b ns Hb) as [Hbase Hprefix].
  unfold handleReadFileTool. rewrite Hargs, (Join_base fs s b ns Hb Hns).
  rewrite (Abs_walkPath fs s b ns Hb Hns), Hbase, Hprefix. cbn [negb].
  destruct (os.ReadFile fs _) as [content | err].
  - apply sendToolResult_eq.
  - destruct (IsNotExist err); apply sendToolResult_eq.
Qed.

Lemma Rel_mixed bs zs :
  Forall proper bs -> Forall proper zs ->
  filepath.Rel (relOf bs) (pathOf zs) = Err (filepath.relError (relOf bs) (pathOf zs)).
Proof.
  intros Hbs Hzs. unfold filepath.Rel. rewrite Clean_relOf, Clean_pathOf by done.
  destruct (pathOf_head zs) as [t Ht]. destruct (relOf_head bs Hbs) as (c & t' & Hrel & Hc).
  assert (String.eqb (pathOf zs) (relOf bs) = false) as ->.
  { apply String.eqb_neq. rewrite Ht, Hrel. intros [= <- _]. done. }
  assert (filepath.IsAbs (pathOf zs) = true) as -> by (rewrite Ht; by destruct t).
  assert (filepath.IsAbs (if String.eqb (relOf bs) "." then "" else relOf bs) = false) as ->.
  { destruct (String.eqb (relOf bs) "."); [done |]. by apply IsAbs_relOf. }
  done.
Qed.

Lemma listHeader_below fs s b ns :
  basedAt fs s b -> Forall proper ns ->
  listHeader s (pathOf (baseNames b ++ ns)) = headerBelow b ns.
Proof.
  intros Hb Hns. unfold listHeader, headerBelow. destruct b as [xs | wds bs]; simpl in *.
  - destruct Hb as [-> Hxs]. rewrite Rel_pathOf by done.
    destruct ns as [| n ns]; [done |].
    apply Forall_cons in Hns as [Hn _]. pose proof (relOf_not_dot n ns Hn) as Hdot.
    generalize dependent (relOf (n :: ns)). intros rel Hdot.
    destruct rel as [| c rel]; [done |].
    destruct rel as [| c' rel]; [| by destruct c as [[] [] [] [] [] [] [] []]].
    destruct (Ascii.eqb_spec c "."); [by subst c |].
    by destruct c as [[] [] [] [] [] [] [] []].
  - destruct Hb as (_ & -> & Hwds & Hbs).
    rewrite Rel_mixed; [done | done |]. apply Forall_app. split; [| done].
    by apply Forall_app.
Qed.

(** X16 — The tools on a path below the base directory.  When the base
    directory is given in clean form, a relative path of proper file names
    is never denied: [read_file] answers from the file of that path below
    the base directory, and [list_directory] from the directory of that
    path.  The header of the listing names the relative path when the base
    directory is absolute; when it is relative (as the default [.]) the
    header names no path at all, since [filepath.Rel] fails between a
    relative and an absolute path. *)
Theorem X16_tools_below_base fs s id (args : gmap string any) b ns w :
  basedAt fs s b -> Forall proper ns ->
  args !! "path" = Some (Str (relOf ns)) ->
  handleReadFileTool fs s id args w
  = (None, after w [match os.ReadFile fs (pathOf (baseNames b ++ ns)) with
                    | Ok content =>
                      toolResponse id ("Contents of " +:+ relOf ns +:+ ":" +:+ nl +:+ content)
                                   false
                    | Err err =>
                      toolResponse id (if IsNotExist err
                                       then "File not found: " +:+ relOf ns
                                       else "Failed to read file: " +:+ errText err) true
                    end] [])
  /\ handleListDirectoryTool fs s id args w
     = (None, after w [match os.ReadDir fs (pathOf (baseNames b ++ ns)) with
                       | Ok entries =>
                         toolResponse id
                           (headerBelow b ns +:+ String.concat "" (entryLine <$> entries))
                           false
                       | Err err =>
                         toolResponse id (if IsNotExist err
                                          then "Directory not found: " +:+ walkPath b ns
                                          else "Failed to list directory: " +:+ errText err)
                                      true
                       end] []).
Proof.
  intros Hb Hns Hargs. split; [by apply readFile_below |].
  destruct (check_below fs s b ns Hb) as [Hbase Hprefix].
  pose proof (listHeader_below fs s b ns Hb Hns) as Hheader.
  unfold handleListDirectoryTool, listHeader in *. rewrite Hargs. cbv zeta.
  rewrite (Join_base fs s b ns Hb Hns).
  rewrite (Abs_walkPath fs s b ns Hb Hns), Hbase, Hprefix. cbn [negb].
  destruct (os.ReadDir fs _) as [entries | err].
  - rewrite Hheader. apply sendToolResult_eq.
  - destruct (IsNotExist err); apply sendToolResult_eq.
Qed.

Lemma X16_tools_below_base_witness :
  let id := Float64 "5" in
  handleReadFileTool exampleFS exampleServer id {["path" := Str "d/y.json"]} emptyWorld
  = (None, after emptyWorld
                 [toolResponse id ("Contents of d/y.json:" +:+ nl +:+ "{}") false] [])
  /\ handleListDirectoryTool exampleFS (NewMCPServer ".") id {["path" := Str "d"]} emptyWorld
     = (None, after emptyWorld
                    [toolResponse id ("Contents of :" +:+ nl
                                      +:+ "ðŸ“„ y.json (2 bytes)" +:+ nl) false] []).
Proof.
  intros id. split.
  - etrans.
    + refine (proj1 (X16_tools_below_base exampleFS exampleServer id _
                       (AbsBase ["srv"; "data"]) ["d"; "y.json"] emptyWorld _ _ _)).
      * split; [reflexivity | by repeat constructor].
      * by repeat constructor.
      * reflexivity.
    + vm_compute; reflexivity.
  - etrans.
    + refine (proj2 (X16_tools_below_base exampleFS (NewMCPServer ".") id _
                       (RelBase ["srv"; "data"] []) ["d"] emptyWorld _ _ _)).
      * split; [reflexivity |]. split; [reflexivity |]. by repeat constructor.
      * by repeat constructor.
      * reflexivity.
    + vm_compute; reflexivity.
Defined.

(** ** The results of a search as arguments of [read_file] *)

Lemma readFileBack_below fs s id w b ns n readable data :
  basedAt fs s b -> Forall proper ns ->
  os.resolve fs (baseDir s) = inr n ->
  nodeAt ns n = Some (os.File readable data) ->
  readFileBack fs s id w (relOf ns).
Proof.
  intros Hb Hns Hresolve Hat. exists (pathOf (baseNames b ++ ns)).
  split; [rewrite (Join_base fs s b ns Hb Hns); by apply (Abs_walkPath fs s) |].
  rewrite (readFile_below fs s id _ b ns w Hb Hns) by apply lookup_singleton_eq.
  rewrite (ReadFile_below fs s b ns n readable data) by done.
  by destruct readable.
Qed.

Lemma searchSpec_readFileBack fs s id w b n pattern vs : forall ms,
  basedAt fs s b ->
  os.resolve fs (baseDir s) = inr n ->
  Forall (fileBelow b n) vs -> searchSpec s pattern vs = Ok ms ->
  Forall (readFileBack fs s id w) ms.
Proof.
  intros ms Hb Hresolve Hvs. revert ms.
  induction Hvs as [| [path name | path] vs Hv _ IH]; intros ms Hsearch; simpl in Hsearch.
  - simplify_eq. constructor.
  - destruct Hv as (ns & readable & data & -> & Hns & Hat).
    rewrite (Rel_walkPath fs s b ns Hb Hns) in Hsearch.
    destruct (filepath.Match pattern name) as [[] |]; [| | done];
      destruct (searchSpec s pattern vs) as [l |]; simplify_eq; simpl.
    + constructor; [| by apply IH]. by eapply readFileBack_below.
    + by apply IH.
  - done.
Qed.

(** X17 — What [search_files] finds, [read_file] reads.  When the base
    directory is given in clean form and the entries below it have
    distinct, proper file names, each path of a search, given to
    [read_file] as it is, is answered with the content of the file, or with
    a failure when the file itself may not be read; never as denied or as
    not found. *)
Theorem X17_search_results_read_back fs s id w b n pattern ms :
  basedAt fs s b ->
  os.resolve fs (baseDir s) = inr n ->
  wellNamed n = true ->
  searchOutcome fs s pattern = Ok ms ->
  Forall (readFileBack fs s id w) ms.
Proof.
  intros Hb Hresolve Hwell Hsearch.
  unfold searchOutcome in Hsearch. rewrite Hresolve in Hsearch.
  eapply searchSpec_readFileBack; [done | done | | done].
  by apply (walked_fileBelow fs).
Qed.

Lemma X17_search_results_read_back_witness :
  exists ms,
    searchOutcome exampleFS (NewMCPServer ".") "*.txt" = Ok ms
    /\ length ms = 2
    /\ Forall (readFileBack exampleFS (NewMCPServer ".") (Float64 "9") emptyWorld) ms.
Proof.
  eexists. split; [vm_compute; reflexivity |]. split; [reflexivity |].
  refine (X17_search_results_read_back exampleFS (NewMCPServer ".") (Float64 "9") emptyWorld
            (RelBase ["srv"; "data"] []) _ "*.txt" _ _ _ _ _).
  - split; [reflexivity |]. split; [reflexivity |]. by repeat constructor.
  - vm_compute; reflexivity.
  - vm_compute; reflexivity.
  - vm_compute; reflexivity.
Defined.
